(** * Cai-install backend: ordered source fallback, ST decoding, key merge,
      DLC classification and script regeneration

    A shallow embedding of [backend_gui.py] (classes [STConverter] and
    [GuiBackend]) and of the search-all selection of [game_box_gui.py],
    followed by the properties established about them.

    Conventions of the embedding.
    - Python [bytes] are [list byte]; Python [str] is [string], whose
      characters are the code points below 256.  On that range [\d] is
      ['0'..'9'] and [\s] / [str.strip] whitespace is
      9-13, 28-31, 32, 133 and 160.
    - A raised exception is the [Raise] case of [result]; [try/except]
      is a [match] on it.
    - The file system is a finite map from path to [file], with the set
      of the directories that exist; a file written in text mode is kept
      as its text, a file written in binary mode as its bytes.  A write
      into a directory the code has just made, or over a file it has just
      found, is not checked for its directory; the one write the code
      makes without either, that of the script of a key file, is.  Other
      operating-system failures of [open]/[write] are outside the model.
    - The logger is the list of entries emitted so far, newest last.
    - Libraries outside the repository ([zlib], the UTF-8 codec, [vdf])
      are an interface, [Libs]; every statement holds for all
      implementations of it. *)

From Stdlib Require Import ZArith Lia Bool Ascii String List.
From Stdlib Require Import Strings.Byte.
From Stdlib Require OrderedTypeEx.
From stdpp Require Import base option list gmap strings sorting.

Set Warnings "-register-all".
Local Open Scope string_scope.
Local Open Scope Z_scope.

(** ** Exceptions and results *)

Inductive exn : Type :=
| ValueError (msg : string)
| StructError
| ZlibError
| UnicodeDecodeError
| FileNotFoundError (path : string)
| AttributeError
| KeyError (key : string)
| TypeError
| SyntaxError
| OtherError (msg : string).

Inductive result (A : Type) : Type :=
| Ok (a : A)
| Raise (e : exn).
Arguments Ok {A} a.
Arguments Raise {A} e.

Definition rbind {A B} (k : A -> result B) (r : result A) : result B :=
  match r with
  | Ok a => k a
  | Raise e => Raise e
  end.

#[global] Instance result_bind : MBind result := @rbind.
#[global] Instance result_ret : MRet result := @Ok.
#[global] Instance result_fmap : FMap result := fun A B f r =>
  match r with Ok a => Ok (f a) | Raise e => Raise e end.

Definition is_ok {A} (r : result A) : bool :=
  match r with Ok _ => true | Raise _ => false end.

Definition of_option {A} (e : exn) (o : option A) : result A :=
  match o with Some a => Ok a | None => Raise e end.

(** ** The libraries the backend calls *)

(** A VDF document as [vdf.loads] returns it: every value is a string or a
    nested [dict]; a [dict] keeps its keys in insertion order. *)
Inductive vdf : Type :=
| VStr (s : string)
| VDict (items : list (string * vdf)).

(** A JSON document as [Response.json()] returns it. *)
Inductive json : Type :=
| JNull
| JBool (b : bool)
| JNum (n : Z)
| JStr (s : string)
| JArr (items : list json)
| JObj (members : list (string * json)).

Class Libs : Type := {
  (** [zlib.decompress]; [None] stands for [zlib.error]. *)
  zlib_decompress : list byte -> option (list byte);
  (** [bytes.decode('utf-8')]; [None] stands for [UnicodeDecodeError]. *)
  utf8_decode : list byte -> option string;
  (** [vdf.loads]; [None] stands for the parse error it raises. *)
  vdf_loads : string -> option (list (string * vdf));
  (** [vdf.dumps(_, pretty=True)]. *)
  vdf_dumps : list (string * vdf) -> string;
  (** [zipfile.ZipFile(_).extractall(dir)]: the files then found directly
      in [dir], by name, in directory order; [None] stands for the error
      raised on a damaged archive. *)
  zip_extract : list byte -> option (list (string * list byte));
  (** [Response.json()]; [None] stands for the decoding error. *)
  json_loads : list byte -> option json
}.

(** ** Bytes *)

Definition byte_val (b : byte) : Z := Z.of_N (Byte.to_N b).

Definition byte_of_val (z : Z) : byte :=
  default x00 (Byte.of_N (Z.to_N (z mod 256))).

(** [struct.unpack('III', header)]: three unsigned 32-bit integers in the
    byte order of the host, which is little-endian on every platform the
    program runs on (it imports [winreg]). *)
Definition u32_le (b0 b1 b2 b3 : byte) : Z :=
  byte_val b0 + 256 * byte_val b1 + 65536 * byte_val b2 + 16777216 * byte_val b3.

Definition struct_unpack_III (header : list byte) : result (Z * Z * Z) :=
  match header with
  | [a0; a1; a2; a3; b0; b1; b2; b3; c0; c1; c2; c3] =>
      Ok (u32_le a0 a1 a2 a3, u32_le b0 b1 b2 b3, u32_le c0 c1 c2 c3)
  | _ => Raise StructError
  end.

(** [content[lo:hi]] for [0 <= lo] and [0 <= hi]. *)
Definition slice {A} (l : list A) (lo hi : Z) : list A :=
  take (Z.to_nat hi - Z.to_nat lo) (drop (Z.to_nat lo) l).

Definition len {A} (l : list A) : Z := Z.of_nat (length l).

(** ** STConverter *)

Record st_metadata : Type := { original_xorkey : Z; st_size : Z }.

Section STConverter.
Context `{Libs}.

(** The body of [STConverter.parse_st_file] once [content] has been
    read. *)
Definition parse_st_bytes (content : list byte) : result (string * st_metadata) :=
  if len content <? 12 then Raise (ValueError "文件头长度不足") else
  let header := take 12 content in
  '(xorkey, size, _) ← struct_unpack_III header;
  let xorkey := Z.lxor xorkey 0xFFFEA4C8 in
  let xorkey := Z.land xorkey 0xFF in
  let encrypted_data := slice content 12 (12 + size) in
  if len encrypted_data <? size then Raise (ValueError "数据长度不足") else
  let data := map (fun b => byte_of_val (Z.lxor (byte_val b) xorkey)) encrypted_data in
  decompressed_data ← of_option ZlibError (zlib_decompress data);
  content_str ← of_option UnicodeDecodeError (utf8_decode (drop 512 decompressed_data));
  let metadata := {| original_xorkey := xorkey; st_size := size |} in
  Ok (content_str, metadata).
End STConverter.

(** ** Text: the pieces of [str] and [re] the backend uses *)

Definition code (c : ascii) : Z := Z.of_N (N_of_ascii c).

Definition in_range (lo hi : Z) (c : ascii) : bool :=
  (lo <=? code c) && (code c <=? hi).

(** [\d] *)
Definition is_digit (c : ascii) : bool := in_range 48 57 c.

(** [\s], which is also what [str.strip] removes *)
Definition is_space (c : ascii) : bool :=
  in_range 9 13 c || in_range 28 32 c || (code c =? 133) || (code c =? 160).

(** [\w] *)
Definition is_word (c : ascii) : bool :=
  is_digit c || in_range 65 90 c || (code c =? 95) || in_range 97 122 c
  || (code c =? 170) || (code c =? 178) || (code c =? 179) || (code c =? 181)
  || (code c =? 185) || (code c =? 186) || in_range 188 190 c
  || in_range 192 214 c || in_range 216 246 c || in_range 248 255 c.

Definition dquote : ascii := "034"%char.

Definition is_quote (c : ascii) : bool := code c =? 34.

(** The longest prefix of [s] whose characters satisfy [p], and the rest:
    a greedy [p*]. *)
Fixpoint span (p : ascii -> bool) (s : string) : string * string :=
  match s with
  | EmptyString => (EmptyString, EmptyString)
  | String c t =>
      if p c then let '(a, b) := span p t in (String c a, b)
      else (EmptyString, s)
  end.

(** [s] without the literal prefix [pre], when it starts with it. *)
Fixpoint strip_prefix (pre s : string) : option string :=
  match pre, s with
  | EmptyString, _ => Some s
  | String a pre', String b s' =>
      if Ascii.eqb a b then strip_prefix pre' s' else None
  | String _ _, EmptyString => None
  end.

(** [s.startswith(pre)] *)
Definition startswith (pre s : string) : bool :=
  bool_decide (is_Some (strip_prefix pre s)).

Definition str_rev (s : string) : string :=
  string_of_list_ascii (rev (list_ascii_of_string s)).

(** [s.endswith(suf)] *)
Definition endswith (suf s : string) : bool :=
  startswith (str_rev suf) (str_rev s).

(** [s.lstrip()] *)
Definition lstrip (s : string) : string := snd (span is_space s).

(** [s.rstrip()] *)
Fixpoint rstrip (s : string) : string :=
  match s with
  | EmptyString => EmptyString
  | String c t =>
      match rstrip t with
      | EmptyString => if is_space c then EmptyString else String c EmptyString
      | t' => String c t'
      end
  end.

(** [s.strip()] *)
Definition strip (s : string) : string := rstrip (lstrip s).

(** [int(s)] for a string of decimal digits; [0] for the empty string,
    which no caller passes. *)
Definition int_of_digits (s : string) : Z :=
  fold_left (fun acc c => 10 * acc + (code c - 48)) (list_ascii_of_string s) 0.

(** A pattern tried at the start of [s]: its groups and what follows the
    match. *)
Definition matcher (G : Type) : Type := string -> option (G * string).

(** [re.search]: the leftmost position where the pattern matches. *)
Fixpoint re_search {G} (m : matcher G) (s : string) : option G :=
  match m s with
  | Some (g, _) => Some g
  | None =>
      match s with
      | EmptyString => None
      | String _ t => re_search m t
      end
  end.

(** [re.finditer]: the successive non-overlapping matches, left to right.
    The patterns used here never match the empty string, so the scan
    resumes where the previous match ended; [fuel] bounds the number of
    positions visited. *)
Fixpoint re_finditer_from {G} (m : matcher G) (fuel : nat) (s : string) : list G :=
  match fuel with
  | O => []
  | S fuel' =>
      match m s with
      | Some (g, rest) =>
          g :: (if bool_decide (String.length rest < String.length s)%nat
                then re_finditer_from m fuel' rest else [])
      | None =>
          match s with
          | EmptyString => []
          | String _ t => re_finditer_from m fuel' t
          end
      end
  end.

Definition re_finditer {G} (m : matcher G) (s : string) : list G :=
  re_finditer_from m (S (String.length s)) s.

(** [addappid\((\d+)] *)
Definition pat_addappid : matcher string := fun s =>
  rest ← strip_prefix "addappid(" s;
  let '(digits, rest) := span is_digit rest in
  if bool_decide (digits = EmptyString) then None else Some (digits, rest).

(** [\s*] followed by the literal [lit] *)
Definition spaces_then (lit : string) (s : string) : option string :=
  strip_prefix lit (snd (span is_space s)).

(** A quoted non-empty run of characters other than the double quote,
    followed by a closing parenthesis: the tail of both depot patterns,
    whose group is the text between the quotes. *)
Definition quoted_then_paren (s : string) : option (string * string) :=
  rest ← strip_prefix (String dquote EmptyString) s;
  let '(key, rest) := span (fun c => negb (is_quote c)) rest in
  if bool_decide (key = EmptyString) then None else
  rest ← strip_prefix (String dquote ")") rest;
  Some (key, rest).

(** The depot pattern of SteamTools scripts:
    [addappid\((\d+),\s*1,\s*] and then the quoted key and [\)]. *)
Definition pat_st_depot : matcher (string * string) := fun s =>
  '(depot_id, rest) ← pat_addappid s;
  rest ← strip_prefix "," rest;
  rest ← spaces_then "1," rest;
  '(key, rest) ← quoted_then_paren (snd (span is_space rest));
  Some ((depot_id, key), rest).

(** The depot pattern used for GreenLuma:
    [addappid\((\d+),\s*] and then the quoted key and [\)]. *)
Definition pat_gl_depot : matcher (string * string) := fun s =>
  '(depot_id, rest) ← pat_addappid s;
  rest ← strip_prefix "," rest;
  '(key, rest) ← quoted_then_paren (snd (span is_space rest));
  Some ((depot_id, key), rest).

(** [(\d+)_(\w+)\.manifest] *)
Definition pat_manifest : matcher (string * string) := fun s =>
  let '(depot_id, rest) := span is_digit s in
  if bool_decide (depot_id = EmptyString) then None else
  rest ← strip_prefix "_" rest;
  let '(manifest_id, rest) := span is_word rest in
  if bool_decide (manifest_id = EmptyString) then None else
  rest ← strip_prefix ".manifest" rest;
  Some ((depot_id, manifest_id), rest).

Definition nl : string := String "010"%char EmptyString.
Definition quoted (s : string) : string :=
  String dquote s +:+ String dquote EmptyString.

(** [sep.join(l)] *)
Fixpoint join (sep : string) (l : list string) : string :=
  match l with
  | [] => EmptyString
  | [x] => x
  | x :: t => x +:+ sep +:+ join sep t
  end.

(** ** Dictionaries in insertion order *)

Definition dict (V : Type) : Type := list (string * V).

(** [d.get(k)] *)
Fixpoint dict_get {V} (k : string) (d : dict V) : option V :=
  match d with
  | [] => None
  | (k', v) :: t => if String.eqb k k' then Some v else dict_get k t
  end.

(** [d[k] = v]: an existing key keeps its place, a new key goes last. *)
Fixpoint dict_set {V} (k : string) (v : V) (d : dict V) : dict V :=
  match d with
  | [] => [(k, v)]
  | (k', v') :: t =>
      if String.eqb k k' then (k', v) :: t else (k', v') :: dict_set k v t
  end.

(** [d.update(other)] *)
Definition dict_update {V} (d other : dict V) : dict V :=
  fold_left (fun acc kv => dict_set kv.1 kv.2 acc) other d.

(** [d.setdefault(k, v)]: the value now under [k], and the dictionary. *)
Definition dict_setdefault {V} (k : string) (v : V) (d : dict V) : V * dict V :=
  match dict_get k d with
  | Some x => (x, d)
  | None => (v, (d ++ [(k, v)])%list)
  end.

Definition dict_keys {V} (d : dict V) : list string := d.*1.

(** ** The world the backend acts on *)

Inductive file : Type :=
| Binary (data : list byte)
| Text (text : string).

Inductive level : Type := INFO | WARNING | ERROR.

Definition path : Type := list string.

Inductive http_response : Type :=
| ConnectionError
| Response (status : Z) (body : list byte).

(** A GET leaves two events: the request going out and, when the
    awaiting coroutine resumes, its answer or failure coming in. *)
Inductive net_event : Type :=
| Sent (url : string)
| Received (url : string).

Record world : Type := {
  files : gmap path file;
  (** the directories that exist *)
  dirs : gset path;
  log : list (level * string);
  (** [os.environ.get('IS_CN')] *)
  environ_IS_CN : option string;
  (** the network events so far, oldest first *)
  requests : list net_event;
  (** what the network answers to a GET of a URL *)
  remote : string -> http_response
}.

Definition set_files (f : gmap path file -> gmap path file) (w : world) : world :=
  {| files := f (files w); dirs := dirs w; log := log w; environ_IS_CN := environ_IS_CN w;
     requests := requests w; remote := remote w |}.

Definition set_dirs (f : gset path -> gset path) (w : world) : world :=
  {| files := files w; dirs := f (dirs w); log := log w; environ_IS_CN := environ_IS_CN w;
     requests := requests w; remote := remote w |}.

Definition emit (l : level) (msg : string) (w : world) : world :=
  {| files := files w; dirs := dirs w; log := (log w ++ [(l, msg)])%list;
     environ_IS_CN := environ_IS_CN w; requests := requests w; remote := remote w |}.

Definition set_IS_CN (v : string) (w : world) : world :=
  {| files := files w; dirs := dirs w; log := log w; environ_IS_CN := Some v;
     requests := requests w; remote := remote w |}.

(** The two moments of a GET: the request goes out, and later the
    coroutine that awaits it resumes with the answer or the failure.
    Other coroutines of the event loop may run in between. *)
Definition send (url : string) (w : world) : world :=
  {| files := files w; dirs := dirs w; log := log w; environ_IS_CN := environ_IS_CN w;
     requests := (requests w ++ [Sent url])%list; remote := remote w |}.

Definition receive (url : string) (w : world) : http_response * world :=
  (remote w url,
   {| files := files w; dirs := dirs w; log := log w; environ_IS_CN := environ_IS_CN w;
      requests := (requests w ++ [Received url])%list; remote := remote w |}).

(** [await client.get(url)] in a coroutine that has started no task of
    its own: nothing runs between the request and its answer. *)
Definition http_get (url : string) (w : world) : http_response * world :=
  receive url (send url w).

Definition write_text (p : path) (s : string) (w : world) : world :=
  set_files (insert p (Text s)) w.

Definition write_bytes (p : path) (b : list byte) (w : world) : world :=
  set_files (insert p (Binary b)) w.

(** The directory that holds [p]. *)
Definition parent (p : path) : path := take (length p - 1) p.

(** [p] and the directories above it, the outermost first. *)
Definition ancestors (p : path) : list path :=
  map (fun n => take n p) (seq 0 (S (length p))).

(** [p.mkdir(parents=True, exist_ok=True)] *)
Definition mkdir (p : path) (w : world) : world :=
  set_dirs (fun ds => list_to_set (ancestors p) ∪ ds) w.

(** [p.is_dir()] *)
Definition is_dir (p : path) (w : world) : bool := bool_decide (p ∈ dirs w).

Definition exn_str (e : exn) : string :=
  match e with
  | ValueError msg => msg
  | StructError => "struct.error"
  | ZlibError => "zlib.error"
  | UnicodeDecodeError => "UnicodeDecodeError"
  | FileNotFoundError p => "FileNotFoundError: " +:+ p
  | AttributeError => "AttributeError"
  | KeyError k => "KeyError: " +:+ k
  | TypeError => "TypeError"
  | SyntaxError => "SyntaxError"
  | OtherError msg => msg
  end.

(** [self.stack_error(e)]; the traceback text is not modelled. *)
Definition stack_error (e : exn) : string := exn_str e.

(** The state of a [GuiBackend] object. *)
Inductive unlocker : Type := steamtools | greenluma.

Record backend : Type := {
  steam_path : path;
  unlocker_type : option unlocker;
  (** [app_config.get("steamtools_only_lua", False)] *)
  steamtools_only_lua : bool;
  st_lock_manifest_version : bool
}.

Definition is_steamtools (self : backend) : bool :=
  match unlocker_type self with
  | Some steamtools => true
  | _ => false
  end.

Definition temp_dir : path := ["temp_cai_install"].

Definition path_str (p : path) : string := join "/" p.

(** ** GuiBackend.depotkey_merge *)

(** [v.get(k)] on a parsed value; a string has no [get]. *)
Definition py_get (k : string) (v : vdf) : result (option vdf) :=
  match v with
  | VDict d => Ok (dict_get k d)
  | VStr _ => Raise AttributeError
  end.

(** [v.get(k, {})] *)
Definition py_get_or_empty (k : string) (v : vdf) : result vdf :=
  o ← py_get k v; Ok (default (VDict []) o).

(** Python truth of a parsed value. *)
Definition truthy (v : vdf) : bool :=
  match v with
  | VStr EmptyString => false
  | VStr _ => true
  | VDict [] => false
  | VDict _ => true
  end.

(** [config.get('InstallConfigStore', {}).get('Software', {}).get(name)] *)
Definition software_get (name : string) (config : dict vdf) : result (option vdf) :=
  ics ← py_get_or_empty "InstallConfigStore" (VDict config);
  sw ← py_get_or_empty "Software" ics;
  py_get name sw.

(** The value of [... .get('Valve') or ... .get('valve')], with the
    spelling that supplied it. *)
Definition find_steam (config : dict vdf) : result (option (string * vdf)) :=
  upper ← software_get "Valve" config;
  let lower : result (option (string * vdf)) :=
    option_map (pair "valve") <$> software_get "valve" config in
  match upper with
  | Some v => if truthy v then Ok (Some ("Valve", v)) else lower
  | None => lower
  end.

(** [steam.setdefault('depots', {}).update(depots_config.get('depots', {}))],
    returning [steam] as it is afterwards. *)
Definition merge_depots (steam : vdf) (depots_config : dict vdf) : result vdf :=
  match steam with
  | VStr _ => Raise AttributeError
  | VDict st =>
      let '(depots, st) := dict_setdefault "depots" (VDict []) st in
      match depots with
      | VStr _ => Raise AttributeError
      | VDict old =>
          match default (VDict []) (dict_get "depots" depots_config) with
          | VDict new => Ok (VDict (dict_set "depots" (VDict (dict_update old new)) st))
          | VStr EmptyString => Ok (VDict st)
          | VStr _ => Raise (ValueError "dictionary update sequence element #0 has length 1; 2 is required")
          end
      end
  end.

(** [steam] is an object inside [config]: changing it changes [config] at
    the place it was found. *)
Definition store_steam (spelling : string) (steam : vdf) (config : dict vdf) : dict vdf :=
  match dict_get "InstallConfigStore" config with
  | Some (VDict ics) =>
      match dict_get "Software" ics with
      | Some (VDict sw) =>
          dict_set "InstallConfigStore"
            (VDict (dict_set "Software" (VDict (dict_set spelling steam sw)) ics)) config
      | _ => config
      end
  | _ => config
  end.

(** The body of the [try] of [depotkey_merge] between reading and writing:
    [Ok None] when the Steam section is not found, [Ok (Some config')] with
    the merged configuration otherwise. *)
Definition merge_config (config depots_config : dict vdf) : result (option (dict vdf)) :=
  steam ← find_steam config;
  match steam with
  | Some (spelling, s) =>
      if truthy s
      then s' ← merge_depots s depots_config; Ok (Some (store_steam spelling s' config))
      else Ok None
  | None => Ok None
  end.

Section Backend.
Context `{Libs}.

(** [open(p, 'r', encoding='utf-8').read()] *)
Definition read_text (p : path) (w : world) : result string :=
  match files w !! p with
  | None => Raise (FileNotFoundError (path_str p))
  | Some (Text s) => Ok s
  | Some (Binary b) => of_option UnicodeDecodeError (utf8_decode b)
  end.

Definition config_path (self : backend) : path :=
  (steam_path self ++ ["config"; "config.vdf"])%list.

Definition depotkey_merge (self : backend) (depots_config : dict vdf) (w : world)
  : bool * world :=
  match files w !! config_path self with
  | None => (false, emit ERROR "Steam默认配置(config.vdf)不存在" w)
  | Some _ =>
      match (text ← read_text (config_path self) w;
             config ← of_option SyntaxError (vdf_loads text);
             merge_config config depots_config) with
      | Ok None => (false, emit ERROR "找不到Steam配置节" w)
      | Ok (Some config) =>
          (true, emit INFO "密钥成功合并到 config.vdf。"
                   (write_text (config_path self) (vdf_dumps config) w))
      | Raise e => (false, emit ERROR ("合并密钥失败: " +:+ stack_error e) w)
      end
  end.

(** ** GuiBackend.greenluma_add *)
Definition greenluma_add (self : backend) (depot_id_list : list string) (w : world)
  : bool * world :=
  let app_list_path := (steam_path self ++ ["AppList"])%list in
  let w := mkdir app_list_path w in
  let w := fold_left
             (fun w appid => write_text (app_list_path ++ [appid +:+ ".txt"])%list appid w)
             depot_id_list w in
  (true, emit INFO ("已为GreenLuma添加AppID: " +:+ join ", " depot_id_list) w).
End Backend.

(** ** Actions: a world threaded through code that may raise

    What an action did to the world before it raised stays done. *)
Definition act (A : Type) : Type := world -> result A * world.

Definition act_ret {A} (a : A) : act A := fun w => (Ok a, w).

Definition act_bind {A B} (k : A -> act B) (m : act A) : act B := fun w =>
  match m w with
  | (Ok a, w') => k a w'
  | (Raise e, w') => (Raise e, w')
  end.

#[global] Instance act_mret : MRet act := @act_ret.
#[global] Instance act_mbind : MBind act := @act_bind.

Definition lift {A} (r : result A) : act A := fun w => (r, w).
Definition logger (l : level) (msg : string) : act unit := fun w => (Ok tt, emit l msg w).
Definition modify (f : world -> world) : act unit := fun w => (Ok tt, f w).
(** A method that reports failure by its return value and never raises. *)
Definition call {A} (f : world -> A * world) : act A := fun w =>
  let '(a, w') := f w in (Ok a, w').

(** [with open(p, 'w') as f: f.write(text)] where nothing has made sure
    of the directory of [p]: without it [open] raises. *)
Definition open_and_write (p : path) (text : string) : act unit := fun w =>
  if is_dir (parent p) w then (Ok tt, write_text p text w)
  else (Raise (FileNotFoundError (path_str p)), w).

(** [for x in l: body x], stopping at the first exception. *)
Fixpoint for_each {A} (l : list A) (body : A -> act unit) : act unit :=
  match l with
  | [] => mret tt
  | x :: t => _ ← body x; for_each t body
  end.

(** ** GuiBackend._process_zip_based_manifest *)

(** [Path(name).with_suffix(suffix)]: the part of [name] from its last dot
    on is replaced, when that dot is neither first nor last. *)
Definition with_suffix (suffix name : string) : string :=
  let '(ext_rev, rest) := span (fun c => negb (Ascii.eqb c ".")) (str_rev name) in
  match ext_rev, rest with
  | String _ _, String _ (String c stem_rev) => str_rev (String c stem_rev) +:+ suffix
  | _, _ => name +:+ suffix
  end.

(** [dir.glob('*' + ext)] over a directory listing; names are compared
    exactly. *)
Definition glob (ext : string) (listing : dict file) : list string :=
  List.filter (endswith ext) (dict_keys listing).

Definition read_bytes_in (dir : dict file) (name : string) : result (list byte) :=
  match dict_get name dir with
  | None => Raise (FileNotFoundError name)
  | Some (Binary b) => Ok b
  | Some (Text _) => Raise (OtherError "text file opened in binary mode")
  end.

Definition st_script_line (depot_id key : string) : string :=
  "addappid(" +:+ depot_id +:+ ", 1, " +:+ quoted key +:+ ")" +:+ nl.

(** The [setManifestid] line of a manifest file name, commented out in
    floating mode; nothing when the name does not match. *)
Definition manifest_line (is_floating_version : bool) (name : string) : string :=
  match re_search pat_manifest name with
  | Some (depot_id, manifest_id) =>
      let line := "setManifestid(" +:+ depot_id +:+ ", " +:+ quoted manifest_id +:+ ")" +:+ nl in
      if is_floating_version then "--" +:+ line else line
  | None => EmptyString
  end.

Section ZipBased.
Context `{Libs}.

Definition read_text_in (dir : dict file) (name : string) : result string :=
  match dict_get name dir with
  | None => Raise (FileNotFoundError name)
  | Some (Text s) => Ok s
  | Some (Binary b) => of_option UnicodeDecodeError (utf8_decode b)
  end.

(** [STConverter.parse_st_file] on a file of the staging directory. *)
Definition parse_st_file (dir : dict file) (st_file_path : string)
  : result (string * st_metadata) :=
  content ← read_bytes_in dir st_file_path; parse_st_bytes content.

(** [STConverter.convert_file] *)
Definition convert_file (dir : dict file) (st_path : string) : act string := fun w =>
  match parse_st_file dir st_path with
  | Ok (content, _) => (Ok content, w)
  | Raise e =>
      (Raise e, emit ERROR ("ST文件转换失败: " +:+ st_path +:+ " - " +:+ exn_str e) w)
  end.

(** One turn of the loop over the [.st] files: the staging directory
    and [lua_files] afterwards. *)
Definition convert_st (st_file : string) (acc : dict file * list string) (w : world)
  : (dict file * list string) * world :=
  let '(dir, lua_files) := acc in
  let lua_path := with_suffix ".lua" st_file in
  match convert_file dir st_file w with
  | (Ok lua_content, w) =>
      ((dict_set lua_path (Text lua_content) dir, (lua_files ++ [lua_path])%list),
       emit INFO ("已转换ST文件: " +:+ st_file) w)
  | (Raise e, w) =>
      ((dir, lua_files),
       emit ERROR ("转换ST文件失败: " +:+ exn_str e +:+ " - " +:+ stack_error e) w)
  end.

Fixpoint convert_all (st_files : list string) (acc : dict file * list string) (w : world)
  : (dict file * list string) * world :=
  match st_files with
  | [] => (acc, w)
  | st_file :: rest =>
      let '(acc, w) := convert_st st_file acc w in convert_all rest acc w
  end.

(** The loop filling [all_depots] from the scripts, with the pattern and
    the value stored per depot of the branch. *)
Fixpoint collect_depots {V} (pat : matcher (string * string)) (mk : string -> V)
    (dir : dict file) (lua_files : list string) (all_depots : dict V) : result (dict V) :=
  match lua_files with
  | [] => Ok all_depots
  | lua_f :: rest =>
      text ← read_text_in dir lua_f;
      collect_depots pat mk dir rest
        (fold_left (fun d m => dict_set m.1 (mk m.2) d) (re_finditer pat text) all_depots)
  end.

(** [shutil.copy2(dir / name, target)] *)
Definition copy2 (dir : dict file) (name : string) (target : path) : act unit := fun w =>
  match dict_get name dir with
  | Some f => (Ok tt, set_files (insert (target ++ [name])%list f) w)
  | None => (Raise (FileNotFoundError name), w)
  end.

Definition install_steamtools (self : backend) (app_id source_name : string)
    (dir : dict file) (manifest_files lua_files : list string) : act bool :=
  let is_st_auto_update_mode := is_steamtools self && steamtools_only_lua self in
  let is_floating_version := is_st_auto_update_mode && negb (st_lock_manifest_version self) in
  let st_plug := (steam_path self ++ ["config"; "stplug-in"])%list in
  _ ← modify (mkdir st_plug);
  _ ← (if negb is_st_auto_update_mode then
         _ ← logger INFO ("[" +:+ source_name +:+ "] 按SteamTools标准模式安装清单文件。");
         let st_depot_path := (steam_path self ++ ["config"; "depotcache"])%list in
         let gl_depot_path := (steam_path self ++ ["depotcache"])%list in
         _ ← modify (mkdir st_depot_path);
         _ ← modify (mkdir gl_depot_path);
         match manifest_files with
         | _ :: _ =>
             _ ← for_each manifest_files (fun f =>
                   _ ← copy2 dir f st_depot_path; copy2 dir f gl_depot_path);
             logger INFO ("[" +:+ source_name +:+ "] 已复制清单到 config/depotcache 和 depotcache 两个目录。")
         | [] => logger INFO ("[" +:+ source_name +:+ "] 未找到 .manifest 文件。")
         end
       else logger INFO ("[" +:+ source_name +:+ "] ST自动更新模式: 已跳过.manifest 文件。"));
  let lua_filename := app_id +:+ ".lua" in
  let lua_filepath := (st_plug ++ [lua_filename])%list in
  all_depots ← lift (collect_depots pat_st_depot id dir lua_files []);
  _ ← modify (write_text lua_filepath
         (st_script_line app_id "None"
          +:+ String.concat EmptyString (map (fun d => st_script_line d.1 d.2) all_depots)
          +:+ String.concat EmptyString (map (manifest_line is_floating_version) manifest_files)));
  _ ← logger INFO ("[" +:+ source_name +:+ "] 已为SteamTools生成解锁脚本: " +:+ lua_filename);
  mret true.

Definition decryption_key (key : string) : vdf := VDict [("DecryptionKey", VStr key)].

Definition install_greenluma (self : backend) (app_id source_name : string)
    (dir : dict file) (manifest_files lua_files : list string) : act bool :=
  _ ← logger INFO ("[" +:+ source_name +:+ "] 按GreenLuma/标准模式安装。");
  let gl_depot := (steam_path self ++ ["depotcache"])%list in
  _ ← modify (mkdir gl_depot);
  match manifest_files with
  | [] =>
      _ ← logger WARNING ("[" +:+ source_name +:+ "] 在GreenLuma/标准模式下未找到可安装的 .manifest 文件。");
      mret false
  | _ :: _ =>
      _ ← for_each manifest_files (fun f => copy2 dir f gl_depot);
      _ ← logger INFO "已复制清单到Steam depotcache目录。";
      all_depots ← lift (collect_depots pat_gl_depot decryption_key dir lua_files []);
      _ ← match all_depots with
          | _ :: _ =>
              _ ← call (depotkey_merge self [("depots", VDict all_depots)]);
              call (greenluma_add self (app_id :: dict_keys all_depots))
          | [] => call (greenluma_add self [app_id])
          end;
      mret true
  end.

(** The body of the [try] of [_process_zip_based_manifest].  The staging
    directory is made and removed within the call: it is a value of the
    call, not a part of the world. *)
Definition download_and_install (self : backend)
    (app_id download_url source_name : string) : act bool :=
  _ ← logger INFO ("[" +:+ source_name +:+ "] 正在下载清单文件: " +:+ download_url);
  r ← call (http_get download_url);
  match r with
  | ConnectionError => lift (Raise (OtherError "ConnectError"))
  | Response status zip =>
      if negb (status =? 200) then
        _ ← logger ERROR ("[" +:+ source_name +:+ "] 下载失败: 状态码");
        mret false
      else
        _ ← logger INFO ("[" +:+ source_name +:+ "] 正在解压文件...");
        listing ← lift (of_option (OtherError "BadZipFile") (zip_extract zip));
        let dir : dict file := map (fun e => (e.1, Binary e.2)) listing in
        let manifest_files := glob ".manifest" dir in
        let lua_files := glob ".lua" dir in
        let st_files := glob ".st" dir in
        converted ← call (convert_all st_files (dir, lua_files));
        if is_steamtools self
        then install_steamtools self app_id source_name converted.1 manifest_files converted.2
        else install_greenluma self app_id source_name converted.1 manifest_files converted.2
  end.

Definition process_zip_based_manifest (self : backend)
    (app_id download_url source_name : string) (w : world) : bool * world :=
  match download_and_install self app_id download_url source_name w with
  | (Ok b, w) => (b, w)
  | (Raise e, w) =>
      (false, emit ERROR ("[" +:+ source_name +:+ "] 处理清单时出错: " +:+ stack_error e) w)
  end.
End ZipBased.

(** ** Region check and raw-file download *)

Definition is_str (k : string) (j : json) : bool :=
  match j with JStr s => String.eqb s k | _ => false end.

(** [k in s] for strings *)
Fixpoint substring_of (k s : string) : bool :=
  startswith k s ||
  match s with
  | EmptyString => false
  | String _ t => substring_of k t
  end.

(** Python truth of a JSON value. *)
Definition json_truthy (j : json) : bool :=
  match j with
  | JNull => false
  | JBool b => b
  | JNum n => negb (n =? 0)
  | JStr EmptyString => false
  | JStr _ => true
  | JArr [] => false
  | JArr _ => true
  | JObj [] => false
  | JObj _ => true
  end.

(** [j.get(k)] *)
Definition json_get (k : string) (j : json) : result (option json) :=
  match j with
  | JObj o => Ok (dict_get k o)
  | _ => Raise AttributeError
  end.

(** [k in j] *)
Definition json_contains (k : string) (j : json) : result bool :=
  match j with
  | JObj o => Ok (bool_decide (k ∈ dict_keys o))
  | JArr l => Ok (existsb (is_str k) l)
  | JStr s => Ok (substring_of k s)
  | _ => Raise TypeError
  end.

(** [j[k]] with a string [k] *)
Definition json_item (k : string) (j : json) : result json :=
  match j with
  | JObj o => of_option (KeyError k) (dict_get k o)
  | _ => Raise TypeError
  end.

Definition region_url : string := "https://mips.kugou.com/check/iscn?&format=json".

Section Region.
Context `{Libs}.

(** The [try] body of [checkcn]: the flag of the answer, as Python truth. *)
Definition region_flag (r : http_response) : result bool :=
  match r with
  | ConnectionError => Raise (OtherError "ConnectError")
  | Response _ body =>
      j ← of_option (ValueError "JSONDecodeError") (json_loads body);
      flag ← json_get "flag" j;
      Ok (json_truthy (default JNull flag))
  end.

Definition checkcn (w : world) : world :=
  let '(r, w) := http_get region_url w in
  match region_flag r with
  | Ok false =>
      set_IS_CN "no" (emit INFO "检测到您在非中国大陆地区，将使用GitHub官方下载源。" w)
  | Ok true =>
      emit INFO "检测到您在中国大陆地区，将使用国内镜像。" (set_IS_CN "yes" w)
  | Raise _ =>
      emit WARNING "检查服务器位置失败，将默认使用国内加速CDN。" (set_IS_CN "yes" w)
  end.

Definition mirror_urls (w : world) (sha path repo : string) : list string :=
  if bool_decide (environ_IS_CN w = Some "yes")
  then ["https://cdn.jsdmirror.com/gh/" +:+ repo +:+ "@" +:+ sha +:+ "/" +:+ path;
        "https://raw.gitmirror.com/" +:+ repo +:+ "/" +:+ sha +:+ "/" +:+ path]
  else ["https://raw.githubusercontent.com/" +:+ repo +:+ "/" +:+ sha +:+ "/" +:+ path].

(** [url.split('/')] *)
Fixpoint split_slash (s : string) : list string :=
  match s with
  | EmptyString => [EmptyString]
  | String c t =>
      if Ascii.eqb c "/" then EmptyString :: split_slash t
      else match split_slash t with
           | [] => [String c EmptyString]
           | seg :: segs => String c seg :: segs
           end
  end.

(** [url.split('/')[2]] *)
Definition host_of (url : string) : result string :=
  of_option (OtherError "IndexError") (split_slash url !! 2%nat).

(** The loop of [get_from_url] over the remaining URLs. *)
Fixpoint try_urls (path : string) (urls : list string) : act (list byte) :=
  match urls with
  | [] => lift (Raise (OtherError ("所有下载源均失败: " +:+ path)))
  | url :: rest => fun w =>
      match host_of url with
      | Raise e => (Raise e, w)
      | Ok host =>
          let w := emit INFO ("尝试下载: " +:+ path +:+ " from " +:+ host) w in
          let '(r, w) := http_get url w in
          match r with
          | Response 200 content => (Ok content, w)
          | Response _ _ =>
              try_urls path rest
                (emit WARNING ("下载失败 from " +:+ host +:+ "，尝试下一个源...") w)
          | ConnectionError =>
              try_urls path rest
                (emit WARNING ("下载时连接错误 from " +:+ host +:+ "，尝试下一个源...") w)
          end
      end
  end.

Definition get_from_url (sha path repo : string) : act (list byte) := fun w =>
  try_urls path (mirror_urls w sha path repo) w.
End Region.

(** ** Searching every GitHub repository *)

(** One entry of the list [search_all_repos] returns. *)
Record hit : Type := {
  hit_repo : string;
  hit_sha : json;
  hit_tree : json;
  update_date : json
}.

Definition branch_url (repo app_id : string) : string :=
  "https://api.github.com/repos/" +:+ repo +:+ "/branches/" +:+ app_id.

Section Search.
Context `{Libs}.

(** [fetch_branch_info]: every failure is logged and turned into [None].
    [raise_for_status] accepts the 2xx answers. *)
Definition fetch_branch_info (url : string) (w : world) : option json * world :=
  let '(r, w) := http_get url w in
  match r with
  | ConnectionError => (None, emit ERROR "获取信息失败: ConnectError" w)
  | Response status body =>
      if (200 <=? status) && (status <=? 299) then
        match json_loads body with
        | Some j => (Some j, w)
        | None => (None, emit ERROR "获取信息失败: JSONDecodeError" w)
        end
      else
        let w := emit ERROR ("获取信息失败: " +:+ url +:+ " - 状态码") w in
        (None,
         if status =? 404 then
           emit ERROR "404 Not Found: 请检查AppID是否正确，以及该清单是否存在于所选仓库中。" w
         else if status =? 403 then
           emit ERROR "403 Forbidden: GitHub API速率限制，请在设置中添加Token或稍后再试。" w
         else w)
  end.

(** [fetch_branch_info] called with a value read from a response: a
    value that is not a string makes the client raise, which
    [fetch_branch_info] logs and turns into [None]. *)
Definition fetch_branch_info_at (url : json) (w : world) : option json * world :=
  match url with
  | JStr u => fetch_branch_info u w
  | _ => (None, emit ERROR "获取信息失败: TypeError" w)
  end.

(** One turn of the loop of [search_all_repos]: the entry appended to
    [results], if any. *)
Definition search_repo (app_id repo : string) : act (option hit) :=
  _ ← logger INFO ("搜索仓库: " +:+ repo);
  r1 ← call (fetch_branch_info (branch_url repo app_id));
  match r1 with
  | None => mret None
  | Some r1 =>
      if negb (json_truthy r1) then mret None else
      has_commit ← lift (json_contains "commit" r1);
      if negb has_commit then mret None else
      tree_url ← lift (c ← json_item "commit" r1; c ← json_item "commit" c;
                       t ← json_item "tree" c; json_item "url" t);
      r2 ← call (fetch_branch_info_at tree_url);
      match r2 with
      | None => mret None
      | Some r2 =>
          if negb (json_truthy r2) then mret None else
          has_tree ← lift (json_contains "tree" r2);
          if negb has_tree then mret None else
          sha ← lift (c ← json_item "commit" r1; json_item "sha" c);
          tree ← lift (json_item "tree" r2);
          date ← lift (c ← json_item "commit" r1; c ← json_item "commit" c;
                       a ← json_item "author" c; json_item "date" a);
          _ ← logger INFO ("在仓库 " +:+ repo +:+ " 中找到清单。");
          mret (Some {| hit_repo := repo; hit_sha := sha; hit_tree := tree;
                        update_date := date |})
      end
  end.

Fixpoint search_repos (app_id : string) (repos : list string) (results : list hit)
  : act (list hit) :=
  match repos with
  | [] => mret results
  | repo :: rest =>
      found ← search_repo app_id repo;
      search_repos app_id rest
        (match found with Some h => (results ++ [h])%list | None => results end)
  end.

Definition search_all_repos (app_id : string) (repos : list string) : act (list hit) :=
  search_repos app_id repos [].
End Search.

(** *** The choice among the results ([game_box_gui.py])

    [results.sort(key=lambda x: x['update_date'], reverse=True)] and
    [results[0]].  The date of a commit is a JSON string; ordering any
    other JSON value is taken to raise [TypeError]. *)

Definition date_str (h : hit) : result string :=
  match update_date h with
  | JStr s => Ok s
  | _ => Raise TypeError
  end.

(** [a < b] on strings: by code points, left to right. *)
Definition str_lt (a b : string) : bool :=
  match String.compare a b with Lt => true | _ => false end.

(** Insertion keeping the list in descending key order, after the entries
    whose key is equal: with [fold_right] this is a stable sort. *)
Fixpoint insert_desc {A} (key : A -> string) (x : A) (l : list A) : list A :=
  match l with
  | [] => [x]
  | y :: t => if str_lt (key x) (key y) then y :: insert_desc key x t else x :: y :: t
  end.

Definition sort_desc {A} (key : A -> string) (l : list A) : list A :=
  fold_right (insert_desc key) [] l.

Definition sort_by_date_desc (results : list hit) : result (list hit) :=
  match results with
  | [] | [_] => Ok results
  | _ =>
      dated ← mapM (fun h => d ← date_str h; Ok (d, h)) results;
      Ok ((sort_desc fst dated).*2)
  end.

Definition github_repos (repo_options : list (string * string)) : list string :=
  List.filter
    (fun val => negb (bool_decide (val ∈ ["swa"; "cysaw"; "furcate"; "cngs"; "steamdatabase"])))
    (repo_options.*2).

Section SearchAll.
Context `{Libs}.
(** [GameBoxGUI.process_from_github_with_client] with [existing_data]. *)
Variable process_from_github_with_client : string -> string -> hit -> act bool.

(** The search-all branch of [process_game_thread]: [Some b] when the
    coroutine returns [b], [None] when it goes on with the loop. *)
Definition search_all_step (app_id : string) (repo_options : list (string * string))
  : act (option bool) :=
  results ← search_all_repos app_id (github_repos repo_options);
  match results with
  | _ :: _ =>
      sorted ← lift (sort_by_date_desc results);
      match sorted with
      | selected :: _ =>
          ok ← process_from_github_with_client app_id (hit_repo selected) selected;
          if ok : bool then
            _ ← logger INFO ("从 " +:+ hit_repo selected +:+ " 下载成功");
            mret (Some true)
          else mret None
      | [] => lift (Raise (OtherError "IndexError"))
      end
  | [] =>
      _ ← logger ERROR "在所有GitHub库中都未找到清单";
      mret (Some false)
  end.
End SearchAll.

(** ** GuiBackend.get_game_dlcs *)

Record dlc_info : Type := {
  appid : string;
  dlc_name : string;
  has_depots : bool
}.

Record dlcs : Type := {
  game_name : option string;
  free : list dlc_info;
  paid : list dlc_info;
  total : Z
}.

(** What one call of [get_game_dlcs] did besides logging: the calls of the
    progress callback, the batches handed to [asyncio.gather], and the
    pauses between batches. *)
Record classifying : Type := {
  processed_count : Z;
  free_dlcs : list dlc_info;
  paid_dlcs : list dlc_info;
  progress : list (Z * Z);
  gathered : list (list string);
  sleeps : nat
}.

(** [range(start, stop, step)] for a positive [step]. *)
Fixpoint range_from (fuel : nat) (start stop step : Z) : list Z :=
  match fuel with
  | O => []
  | S fuel' =>
      if start <? stop then start :: range_from fuel' (start + step) stop step else []
  end.

Definition py_range (start stop step : Z) : list Z :=
  range_from (Z.to_nat (stop - start)) start stop step.

Section GetGameDlcs.
(** The three helpers [get_game_dlcs] awaits.  [_get_game_name] cannot
    raise; [_analyze_single_dlc] is given with what [gather] collects
    for it: its value or the exception it raised.  The progress
    callback records its calls and does not raise, so the [except] of
    the batch is never entered. *)
Variable get_dlc_ids : string -> result (list string).
Variable get_game_name : string -> string.
Variable analyze_single_dlc : string -> result dlc_info.

(** One turn of the loop over [batch_results]. *)
Definition classify_result (progress_callback : bool) (total : Z)
    (st : classifying * world) (result : result dlc_info) : classifying * world :=
  let '(st, w) := st in
  let processed_count := processed_count st + 1 in
  let progress :=
    if progress_callback then (progress st ++ [(processed_count, total)])%list
    else progress st in
  match result with
  | Raise e =>
      ({| processed_count := processed_count; free_dlcs := free_dlcs st;
          paid_dlcs := paid_dlcs st; progress := progress;
          gathered := gathered st; sleeps := sleeps st |},
       emit ERROR ("分析DLC时出错: " +:+ exn_str e) w)
  | Ok info =>
      ({| processed_count := processed_count;
          free_dlcs := if has_depots info then free_dlcs st
                       else (free_dlcs st ++ [info])%list;
          paid_dlcs := if has_depots info then (paid_dlcs st ++ [info])%list
                       else paid_dlcs st;
          progress := progress; gathered := gathered st; sleeps := sleeps st |}, w)
  end.

Definition batch_size : Z := 10.

(** One turn of the loop over [range(0, len(all_dlc_ids), batch_size)]. *)
Definition classify_batch (progress_callback : bool) (all_dlc_ids : list string)
    (st : classifying * world) (batch_start : Z) : classifying * world :=
  let batch_end := Z.min (batch_start + batch_size) (len all_dlc_ids) in
  let batch_dlc_ids := slice all_dlc_ids batch_start batch_end in
  let batch_results := map analyze_single_dlc batch_dlc_ids in
  let st := ({| processed_count := processed_count st.1; free_dlcs := free_dlcs st.1;
                paid_dlcs := paid_dlcs st.1; progress := progress st.1;
                gathered := (gathered st.1 ++ [batch_dlc_ids])%list;
                sleeps := sleeps st.1 |}, st.2) in
  let '(st, w) :=
    fold_left (classify_result progress_callback (len all_dlc_ids)) batch_results st in
  if batch_end <? len all_dlc_ids then
    ({| processed_count := processed_count st; free_dlcs := free_dlcs st;
        paid_dlcs := paid_dlcs st; progress := progress st;
        gathered := gathered st; sleeps := S (sleeps st) |}, w)
  else (st, w).

Definition classifying_start : classifying :=
  {| processed_count := 0; free_dlcs := []; paid_dlcs := []; progress := [];
     gathered := []; sleeps := 0 |}.

Definition no_dlcs : dlcs := {| game_name := None; free := []; paid := []; total := 0 |}.

Definition get_game_dlcs (app_id : string) (progress_callback : bool) (w : world)
  : (dlcs * classifying) * world :=
  let w := emit INFO ("开始查找 AppID " +:+ app_id +:+ " 的所有DLC...") w in
  match get_dlc_ids app_id with
  | Raise e =>
      ((no_dlcs, classifying_start),
       emit ERROR ("获取DLC信息时出错: " +:+ stack_error e) w)
  | Ok [] =>
      ((no_dlcs, classifying_start),
       emit INFO ("AppID " +:+ app_id +:+ " 未找到任何DLC。") w)
  | Ok all_dlc_ids =>
      let w := emit INFO "找到DLC，正在分析..." w in
      let game_name := get_game_name app_id in
      let '(st, w) :=
        fold_left (classify_batch progress_callback all_dlc_ids)
          (py_range 0 (len all_dlc_ids) batch_size) (classifying_start, w) in
      let w := emit INFO "分析完成" w in
      (({| game_name := Some game_name; free := free_dlcs st; paid := paid_dlcs st;
           total := len all_dlc_ids |}, st), w)
  end.
End GetGameDlcs.

(** ** GuiBackend.process_dlcs *)

Record dlcs_result : Type := {
  success : list dlc_info;
  failed : list dlc_info;
  result_total : Z
}.

(** What a file opened in text mode hands over: a carriage return, alone
    or followed by a line feed, is read as one line feed. *)
Fixpoint universal_newlines (s : string) : string :=
  match s with
  | EmptyString => EmptyString
  | String c t =>
      if Ascii.eqb c "013" then
        String "010"
          match t with
          | String c2 t2 =>
              if Ascii.eqb c2 "010" then universal_newlines t2 else universal_newlines t
          | EmptyString => EmptyString
          end
      else String c (universal_newlines t)
  end.

(** [f.readlines()]: the lines of a text, each with its line break. *)
Fixpoint readlines (s : string) : list string :=
  match s with
  | EmptyString => []
  | String c t =>
      if Ascii.eqb c "010" then String c EmptyString :: readlines t
      else match readlines t with
           | [] => [String c EmptyString]
           | l :: ls => String c l :: ls
           end
  end.

(** [f.write(line + '\n')] for each line *)
Definition write_lines (lines : list string) : string :=
  String.concat EmptyString (map (fun l => l +:+ nl) lines).

Definition register_line (dlc : dlc_info) : string := "addappid(" +:+ appid dlc +:+ ")".

(** The ids already registered: group 1 of the first match in each line. *)
Definition existing_appids_of (existing_lines : list string) : list string :=
  omap (re_search pat_addappid) existing_lines.

Definition is_new (existing_appids : list string) (dlc : dlc_info) : bool :=
  negb (bool_decide (appid dlc ∈ existing_appids)).

Definition get_appid_from_line (line : string) : Z :=
  match re_search pat_addappid line with
  | Some digits => int_of_digits digits
  | None => 0
  end.

(** [list.sort(key=...)]: stable, ascending. *)
Fixpoint insert_asc {A} (key : A -> Z) (x : A) (l : list A) : list A :=
  match l with
  | [] => [x]
  | y :: t => if key y <? key x then y :: insert_asc key x t else x :: y :: t
  end.

Definition sort_asc {A} (key : A -> Z) (l : list A) : list A :=
  fold_right (insert_asc key) [] l.

Inductive line_kind : Type := AddAppId | SetManifestId | Other.

Definition kind_of (line : string) : line_kind :=
  if startswith "addappid" line then AddAppId
  else if startswith "setManifestid" line || startswith "--setManifestid" line
       then SetManifestId
  else Other.

Definition is_kind (k : line_kind) (line : string) : bool :=
  match k, kind_of line with
  | AddAppId, AddAppId | SetManifestId, SetManifestId | Other, Other => true
  | _, _ => false
  end.

Definition non_empty (line : string) : bool :=
  match line with EmptyString => false | _ => true end.

(** What is written back when there are new lines. *)
Definition regenerate (all_lines : list string) : string :=
  let addappid_lines := List.filter (is_kind AddAppId) all_lines in
  let setmanifestid_lines := List.filter (is_kind SetManifestId) all_lines in
  let other_lines := List.filter (is_kind Other) all_lines in
  write_lines (sort_asc get_appid_from_line addappid_lines)
  +:+ write_lines setmanifestid_lines
  +:+ write_lines (List.filter non_empty other_lines).

(** The merge of the free DLCs into the text of an existing script: the
    DLCs added, and the new text when the file is rewritten. *)
Definition merge_free (text : string) (free : list dlc_info)
  : list dlc_info * option string :=
  let existing_lines := map strip (readlines (universal_newlines text)) in
  let existing_appids := existing_appids_of existing_lines in
  let added := List.filter (is_new existing_appids) free in
  let new_lines := map register_line added in
  (added,
   match new_lines with
   | [] => None
   | _ :: _ => Some (regenerate (existing_lines ++ new_lines)%list)
   end).

Section ProcessDlcs.
Context `{Libs}.
(** [_process_dlc_from_github]. *)
Variable process_dlc_from_github : backend -> string -> string -> act bool.

Definition lua_path (self : backend) (app_id : string) : path :=
  (steam_path self ++ ["config"; "stplug-in"; app_id +:+ ".lua"])%list.

(** [_process_dlc_from_zip]: [_process_zip_based_manifest] lets no
    exception out, so the handler around it has nothing to catch. *)
Definition process_dlc_from_zip (self : backend)
    (dlc_id download_url source_name : string) : act bool :=
  call (process_zip_based_manifest self dlc_id download_url source_name).

(** The chain of comparisons on [repo_value]. *)
Definition fetch_dlc (self : backend) (dlc_id repo_value : string) : act bool :=
  if String.eqb repo_value "swa" then
    process_dlc_from_zip self dlc_id
      ("https://api.printedwaste.com/gfk/download/" +:+ dlc_id) "SWA V2"
  else if String.eqb repo_value "cysaw" then
    process_dlc_from_zip self dlc_id
      ("https://cysaw.top/uploads/" +:+ dlc_id +:+ ".zip") "Cysaw"
  else if String.eqb repo_value "furcate" then
    process_dlc_from_zip self dlc_id
      ("https://furcate.eu/files/" +:+ dlc_id +:+ ".zip") "Furcate"
  else if String.eqb repo_value "cngs" then
    process_dlc_from_zip self dlc_id
      ("https://assiw.cngames.site/qindan/" +:+ dlc_id +:+ ".zip") "CNGS"
  else if String.eqb repo_value "steamdatabase" then
    process_dlc_from_zip self dlc_id
      ("https://steamdatabase.s3.eu-north-1.amazonaws.com/" +:+ dlc_id +:+ ".zip")
      "SteamDatabase"
  else process_dlc_from_github self dlc_id repo_value.

(** The loop over [selected_repos] for one paid DLC: [found], and the
    world afterwards. *)
Fixpoint try_repos (self : backend) (dlc_id : string) (selected_repos : list string)
    (w : world) : bool * world :=
  match selected_repos with
  | [] => (false, w)
  | repo_value :: rest =>
      let w := emit INFO ("尝试从 " +:+ repo_value +:+ " 获取DLC " +:+ dlc_id +:+ " 的密钥...") w in
      match fetch_dlc self dlc_id repo_value w with
      | (Ok true, w) =>
          (true, emit INFO ("成功从 " +:+ repo_value +:+ " 获取DLC " +:+ dlc_id) w)
      | (Ok false, w) => try_repos self dlc_id rest w
      | (Raise e, w) =>
          try_repos self dlc_id rest
            (emit WARNING ("从 " +:+ repo_value +:+ " 获取DLC " +:+ dlc_id +:+ " 失败: " +:+ exn_str e) w)
      end
  end.

(** One turn of the loop over [dlcs["paid"]]. *)
Definition resolve_paid (self : backend) (selected_repos : list string)
    (st : dlcs_result * world) (dlc : dlc_info) : dlcs_result * world :=
  let '(result, w) := st in
  match try_repos self (appid dlc) selected_repos w with
  | (true, w) =>
      ({| success := (success result ++ [dlc])%list; failed := failed result;
          result_total := result_total result |}, w)
  | (false, w) =>
      ({| success := success result; failed := (failed result ++ [dlc])%list;
          result_total := result_total result |},
       emit WARNING ("无法从任何源获取DLC " +:+ appid dlc +:+ " 的密钥") w)
  end.

(** The free DLCs under SteamTools: they go into the script of the game
    when it exists. *)
Definition add_free_to_script (self : backend) (app_id : string) (free : list dlc_info)
  : act (list dlc_info) := fun w =>
  match files w !! lua_path self app_id with
  | None => (Ok [], w)
  | Some _ =>
      match read_text (lua_path self app_id) w with
      | Raise e => (Raise e, w)
      | Ok text =>
          match merge_free text free with
          | (added, Some text') =>
              (Ok added,
               emit INFO "成功添加免费DLC到lua文件"
                 (write_text (lua_path self app_id) text' w))
          | (added, None) => (Ok added, w)
          end
      end
  end.

(** The free DLCs. *)
Definition process_free (self : backend) (app_id : string) (free : list dlc_info)
  : act (list dlc_info) :=
  match free with
  | [] => mret []
  | _ :: _ =>
      _ ← logger INFO "正在处理免费DLC...";
      if is_steamtools self then add_free_to_script self app_id free
      else
        _ ← call (greenluma_add self (map appid free));
        mret free
  end.

(** [_merge_dlcs_to_main_lua]: it only reports. *)
Definition merge_dlcs_to_main_lua (self : backend) (app_id : string) (w : world) : world :=
  match files w !! lua_path self app_id with
  | None => emit WARNING ("主游戏lua文件不存在: " +:+ path_str (lua_path self app_id)) w
  | Some _ => emit INFO "DLC处理完成" w
  end.

Definition process_dlcs (self : backend) (app_id : string) (dlcs : dlcs)
    (selected_repos : list string) : act dlcs_result :=
  added ← process_free self app_id (free dlcs);
  let result := {| success := added; failed := [];
                   result_total := len (free dlcs) + len (paid dlcs) |} in
  result ← call (fun w =>
    match paid dlcs with
    | [] => (result, w)
    | _ :: _ =>
        fold_left (resolve_paid self selected_repos) (paid dlcs)
          (result, emit INFO "正在处理付费DLC..." w)
    end);
  _ ← modify (fun w =>
    match is_steamtools self, success result with
    | true, _ :: _ => merge_dlcs_to_main_lua self app_id w
    | _, _ => w
    end);
  mret result.
End ProcessDlcs.

(** ** Sample libraries and sample data

    The concrete examples below need libraries that compute.  The sample
    ones answer a listed input as the real library does (the listed
    archives, compressed stream and JSON texts are real ones) and fail on
    every other input. *)

Definition hex_val (c : ascii) : N :=
  let n := N_of_ascii c in
  (if 97 <=? n then n - 87 else n - 48)%N.

(** The bytes written as pairs of hexadecimal digits. *)
Fixpoint hex (s : string) : list byte :=
  match s with
  | String a (String b t) =>
      default x00 (Byte.of_N (16 * hex_val a + hex_val b)) :: hex t
  | _ => []
  end.

Definition bytes_eqb (a b : list byte) : bool :=
  bool_decide (map Byte.to_N a = map Byte.to_N b).

Fixpoint table {K A} (eqb : K -> K -> bool) (tbl : list (K * A)) (k : K) : option A :=
  match tbl with
  | [] => None
  | (k', a) :: t => if eqb k k' then Some a else table eqb t k
  end.

(** UTF-8 for code points below 256, the characters of [string]. *)
Fixpoint utf8_latin1 (bs : list byte) : option string :=
  match bs with
  | [] => Some EmptyString
  | b :: t =>
      let n := Byte.to_N b in
      if (n <? 128)%N then String (ascii_of_N n) <$> utf8_latin1 t
      else match t with
           | b2 :: t2 =>
               let m := Byte.to_N b2 in
               if ((194 <=? n) && (n <=? 195) && (128 <=? m) && (m <=? 191))%N
               then String (ascii_of_N ((n - 192) * 64 + (m - 128))) <$> utf8_latin1 t2
               else None
           | [] => None
           end
  end.

Definition tab : string := String "009"%char EmptyString.

(** A printer in the layout of [vdf.dumps(_, pretty=True)]; keys and
    values are written as they are. *)
Fixpoint dump_entry (indent key : string) (v : vdf) : string :=
  match v with
  | VStr s => indent +:+ quoted key +:+ " " +:+ quoted s +:+ nl
  | VDict items =>
      indent +:+ quoted key +:+ nl +:+ indent +:+ "{" +:+ nl
      +:+ String.concat EmptyString
            (map (fun kv => dump_entry (indent +:+ tab) kv.1 kv.2) items)
      +:+ indent +:+ "}" +:+ nl
  end.

Definition sample_dumps (config : dict vdf) : string :=
  String.concat EmptyString (map (fun kv => dump_entry EmptyString kv.1 kv.2) config).

(** A Steam configuration with one depot under the section the backend
    looks for, and unrelated settings beside it. *)
Definition config_valve : dict vdf :=
  [("InstallConfigStore",
    VDict [("Software",
            VDict [("Valve",
                    VDict [("depots",
                            VDict [("228982", VDict [("DecryptionKey", VStr "aa11")])]);
                           ("AutoUpdateWindowEnabled", VStr "0")])]);
           ("Music", VDict [("Volume", VStr "7")])])].

(** The same with the lower-case spelling of the section. *)
Definition config_lower : dict vdf :=
  [("InstallConfigStore",
    VDict [("Software",
            VDict [("valve",
                    VDict [("AutoUpdateWindowEnabled", VStr "0")])])])].

(** A section that is there and empty. *)
Definition config_empty_section : dict vdf :=
  [("InstallConfigStore", VDict [("Software", VDict [("Valve", VDict [])])])].

Definition sample_keys : dict vdf :=
  [("depots", VDict [("228981", VDict [("DecryptionKey", VStr "00ff")])])].

Definition config_valve_merged : dict vdf :=
  [("InstallConfigStore",
    VDict [("Software",
            VDict [("Valve",
                    VDict [("depots",
                            VDict [("228982", VDict [("DecryptionKey", VStr "aa11")]);
                                   ("228981", VDict [("DecryptionKey", VStr "00ff")])]);
                           ("AutoUpdateWindowEnabled", VStr "0")])]);
           ("Music", VDict [("Volume", VStr "7")])])].

Definition st_sample : list byte :=
  hex "785634121c00000000000000c86ad3d0a8b593a994161494a6a4d416d828e8a8d8c2b1b097efb49f747261696c696e67".

Definition st_sample_stream : list byte :=
  hex "78da63601805231924a6a424161464a66898581868720100275f042f".

Definition zip_manifest_only : list byte :=
  hex "504b0304140000000000000021581d80bc550300000003000000110000003232383938305f312e6d616e6966657374010203504b01021403140000000000000021581d80bc5503000000030000001100000000000000000000008001000000003232383938305f312e6d616e6966657374504b050600000000010001003f000000320000000000".

Definition zip_broken_st : list byte :=
  hex "504b0304140000000000000021581d80bc550300000003000000110000003232383938305f312e6d616e6966657374010203504b0304140000000000000021587f89540803000000030000000900000062726f6b656e2e7374000102504b01021403140000000000000021581d80bc5503000000030000001100000000000000000000008001000000003232383938305f312e6d616e6966657374504b01021403140000000000000021587f895408030000000300000009000000000000000000000080013200000062726f6b656e2e7374504b05060000000002000200760000005c0000000000".

Definition zip_with_key : list byte :=
  hex "504b0304140000000000000021587423df550200000002000000110000003232383938315f372e6d616e69666573740405504b0304140000000000000021582685557419000000190000000a0000003232383938302e6c75616164646170706964283232383938312c20223030666622290a504b01021403140000000000000021587423df5502000000020000001100000000000000000000008001000000003232383938315f372e6d616e6966657374504b01021403140000000000000021582685557419000000190000000a00000000000000000000008001310000003232383938302e6c7561504b0506000000000200020077000000720000000000".

(** The JSON texts of the samples: a region answer outside China, one
    inside, and the branch and tree answers of two repositories. *)
Definition json_texts : list (list byte * json) :=
  [(hex "7b22666c6167223a66616c73652c22636f756e747279223a225553227d",
    JObj [("flag", JBool false); ("country", JStr "US")]);
   (hex "7b22666c6167223a747275657d", JObj [("flag", JBool true)]);
   (hex "7b22636f6d6d6974223a7b22736861223a226131222c22636f6d6d6974223a7b22617574686f72223a7b2264617465223a22323032342d30312d30355431303a30303a30305a227d2c2274726565223a7b2275726c223a2268747470733a2f2f6170692e6769746875622e636f6d2f747265652f6131227d7d7d7d",
    JObj [("commit",
           JObj [("sha", JStr "a1");
                 ("commit",
                  JObj [("author", JObj [("date", JStr "2024-01-05T10:00:00Z")]);
                        ("tree", JObj [("url", JStr "https://api.github.com/tree/a1")])])])]);
   (hex "7b22636f6d6d6974223a7b22736861223a226232222c22636f6d6d6974223a7b22617574686f72223a7b2264617465223a22323032342d30332d30315430383a33303a30305a227d2c2274726565223a7b2275726c223a2268747470733a2f2f6170692e6769746875622e636f6d2f747265652f6232227d7d7d7d",
    JObj [("commit",
           JObj [("sha", JStr "b2");
                 ("commit",
                  JObj [("author", JObj [("date", JStr "2024-03-01T08:30:00Z")]);
                        ("tree", JObj [("url", JStr "https://api.github.com/tree/b2")])])])]);
   (hex "7b2274726565223a5b7b2270617468223a226b65792e766466227d5d7d", JObj [("tree", JArr [JObj [("path", JStr "key.vdf")]])]);
   (hex "7b2274726565223a5b7b2270617468223a223232383938315f372e6d616e6966657374227d5d7d", JObj [("tree", JArr [JObj [("path", JStr "228981_7.manifest")]])])].

Definition sample_libs : Libs :=
  {| zlib_decompress :=
       table bytes_eqb
         [(st_sample_stream,
           (replicate 512 x00 ++ hex "616464617070696428343830290a")%list)];
     utf8_decode := utf8_latin1;
     vdf_loads :=
       table String.eqb
         (map (fun c => (sample_dumps c, c))
            [config_valve; config_valve_merged; config_lower; config_empty_section]);
     vdf_dumps := sample_dumps;
     zip_extract :=
       table bytes_eqb
         [(zip_manifest_only, [("228980_1.manifest", hex "010203")]);
          (zip_broken_st,
           [("228980_1.manifest", hex "010203"); ("broken.st", hex "000102")]);
          (zip_with_key,
           [("228981_7.manifest", hex "0405");
            ("228980.lua", hex "6164646170706964283232383938312c20223030666622290a")])];
     json_loads := table bytes_eqb json_texts |}.

(** ** The ST format as its documentation words it *)

(** An unsigned integer from its bytes, least significant first. *)
Definition le_uint (bs : list byte) : Z :=
  fold_right (fun b acc => byte_val b + 256 * acc) 0 bs.

(** The header triple [(xorKey, payloadSize, reserved)]. *)
Definition st_header (content : list byte) : Z * Z * Z :=
  (le_uint (take 4 content), le_uint (take 4 (drop 4 content)),
   le_uint (take 4 (drop 8 content))).

(** The one-byte key derived from the raw key of the header. *)
Definition st_key (xorKey : Z) : Z := Z.land (Z.lxor xorKey 0xFFFEA4C8) 0xFF.

(** The [payloadSize] bytes after the header. *)
Definition st_payload (content : list byte) (payloadSize : Z) : list byte :=
  take (Z.to_nat payloadSize) (drop 12 content).

Definition xor_bytes (key : Z) (bs : list byte) : list byte :=
  map (fun b => byte_of_val (Z.lxor (byte_val b) key)) bs.

(** ** Reading a configuration along a path of keys *)

(** The value found by following the keys of [p] from [v]. *)
Fixpoint vdf_at (p : list string) (v : vdf) : option vdf :=
  match p with
  | [] => Some v
  | k :: rest =>
      match v with
      | VDict d => v' ← dict_get k d; vdf_at rest v'
      | VStr _ => None
      end
  end.

(** The keys leading to the depots map under a spelling of the section. *)
Definition depots_path (spelling : string) : list string :=
  ["InstallConfigStore"; "Software"; spelling; "depots"].

(** The depots already under a section. *)
Definition depots_of (section : dict vdf) : dict vdf :=
  match dict_get "depots" section with
  | Some (VDict old) => old
  | _ => []
  end.

(** The section after the depots [supplied] have been merged into it. *)
Definition merged_section (section supplied : dict vdf) : dict vdf :=
  dict_set "depots" (VDict (dict_update (depots_of section) supplied)) section.

(** ** Sample backends and worlds *)

Definition gl_backend : backend :=
  {| steam_path := ["Steam"]; unlocker_type := Some greenluma;
     steamtools_only_lua := false; st_lock_manifest_version := false |}.

Definition st_backend : backend :=
  {| steam_path := ["Steam"]; unlocker_type := Some steamtools;
     steamtools_only_lua := false; st_lock_manifest_version := false |}.

(** A world with the given files and the directories that hold them,
    whose network answers the listed URLs and cannot be reached
    otherwise. *)
Definition world_of (fs : list (path * file)) (net : list (string * http_response)) : world :=
  {| files := list_to_map fs;
     dirs := list_to_set (flat_map (fun f => ancestors (parent f.1)) fs);
     log := []; environ_IS_CN := None; requests := [];
     remote := fun url => default ConnectionError (table String.eqb net url) |}.

(** A GreenLuma installation whose configuration is [config]. *)
Definition world_with_config (config : dict vdf) : world :=
  world_of [(config_path gl_backend, Text (sample_dumps config))] [].

(** The staging directory holding the sample ST file. *)
Definition st_sample_dir : dict file := [("480.st", Binary st_sample)].

(** The archive with a manifest and a truncated ST file, offered by the
    first archive source. *)
Definition world_broken_st : world :=
  world_of [] [("https://api.printedwaste.com/gfk/download/228980",
                Response 200 zip_broken_st)].

(** The archive with nothing but a manifest. *)
Definition world_manifest_only : world :=
  world_of [] [("https://api.printedwaste.com/gfk/download/228980",
                Response 200 zip_manifest_only)].

(** ** Comparing worlds *)

(** No file of [w] is missing from [w']. *)
Definition grows (w w' : world) : Prop :=
  forall p, is_Some (files w !! p) -> is_Some (files w' !! p).

(** The file at [p], or its absence, is the same in [w'] as in [w]. *)
Definition untouched (p : path) (w w' : world) : Prop :=
  files w' !! p = files w !! p.

(** The archive with a manifest and a script carrying its key, offered to
    an installation that has a configuration file. *)
Definition world_with_key : world :=
  world_of [(config_path gl_backend, Text (sample_dumps config_valve))]
    [("https://cysaw.top/uploads/228980.zip", Response 200 zip_with_key)].

(** ** Ordered fallback over the sources, as the documentation words it *)

Section OrderedFallback.
Context `{Libs}.
Variable process_dlc_from_github : backend -> string -> string -> act bool.

(** One source tried for one title: whether it yielded the title, and
    the world it leaves. *)
Definition attempt (self : backend) (dlc_id repo_value : string) (w : world)
  : bool * world :=
  match fetch_dlc process_dlc_from_github self dlc_id repo_value
          (emit INFO ("尝试从 " +:+ repo_value +:+ " 获取DLC " +:+ dlc_id +:+ " 的密钥...") w) with
  | (Ok true, w') =>
      (true, emit INFO ("成功从 " +:+ repo_value +:+ " 获取DLC " +:+ dlc_id) w')
  | (Ok false, w') => (false, w')
  | (Raise e, w') =>
      (false,
       emit WARNING ("从 " +:+ repo_value +:+ " 获取DLC " +:+ dlc_id +:+ " 失败: " +:+ exn_str e) w')
  end.

(** [ordered_fallback self dlc_id sources w tried winner w']: attempting
    the sources in order from [w] and stopping at the first that yields the
    title tries exactly [tried], ends with [winner], and leaves [w']. *)
Inductive ordered_fallback (self : backend) (dlc_id : string)
  : list string -> world -> list string -> option string -> world -> Prop :=
| fallback_exhausted (w : world) :
    ordered_fallback self dlc_id [] w [] None w
| fallback_hit (source : string) (rest : list string) (w w' : world) :
    attempt self dlc_id source w = (true, w') ->
    ordered_fallback self dlc_id (source :: rest) w [source] (Some source) w'
| fallback_miss (source : string) (rest tried : list string) (winner : option string)
    (w w' w'' : world) :
    attempt self dlc_id source w = (false, w') ->
    ordered_fallback self dlc_id rest w' tried winner w'' ->
    ordered_fallback self dlc_id (source :: rest) w (source :: tried) winner w''.

(** The sources of [tried] before the last one. *)
Definition missed_before (tried : list string) : list string :=
  take (length tried - 1) tried.
End OrderedFallback.

(** Recording one more title in a result. *)
Definition add_success (dlc : dlc_info) (result : dlcs_result) : dlcs_result :=
  {| success := (success result ++ [dlc])%list; failed := failed result;
     result_total := result_total result |}.

Definition add_failed (dlc : dlc_info) (result : dlcs_result) : dlcs_result :=
  {| success := success result; failed := (failed result ++ [dlc])%list;
     result_total := result_total result |}.

(** A GitHub pipeline that finds nothing, for the samples that only use
    archive sources. *)
Definition no_github : backend -> string -> string -> act bool :=
  fun _ _ _ => mret false.

Definition sample_dlc : dlc_info :=
  {| appid := "228980"; dlc_name := "DLC 228980"; has_depots := true |}.

(** ** What the classification keeps of the answers *)

Definition free_of (r : result dlc_info) : option dlc_info :=
  match r with
  | Ok info => if has_depots info then None else Some info
  | Raise _ => None
  end.

Definition paid_of (r : result dlc_info) : option dlc_info :=
  match r with
  | Ok info => if has_depots info then Some info else None
  | Raise _ => None
  end.

Definition error_of (r : result dlc_info) : option exn :=
  match r with
  | Ok _ => None
  | Raise e => Some e
  end.

Definition is_error (entry : level * string) : bool :=
  match entry.1 with ERROR => true | _ => false end.

(** The calls [(1, total)], ..., [(total, total)] of the progress callback. *)
Definition counting_up (from count total : Z) : list (Z * Z) :=
  map (fun i => (i, total)) (seqZ from count).



(** ** The hosts of a raw file *)

(** The two mirrors used inside mainland China, in the order tried. *)
Definition cn_mirrors (sha path repo : string) : list string :=
  ["https://cdn.jsdmirror.com/gh/" +:+ repo +:+ "@" +:+ sha +:+ "/" +:+ path;
   "https://raw.gitmirror.com/" +:+ repo +:+ "/" +:+ sha +:+ "/" +:+ path].

Definition official_url (sha path repo : string) : string :=
  "https://raw.githubusercontent.com/" +:+ repo +:+ "/" +:+ sha +:+ "/" +:+ path.

(** The events of asking the URLs one after the other. *)
Definition asked (urls : list string) : list net_event :=
  flat_map (fun u => [Sent u; Received u]) urls.

(** A world in which the region service and the official host cannot be
    reached and the second mirror has the file. *)
Definition world_offline_region : world :=
  world_of []
    [("https://raw.gitmirror.com/org/repo/a1/key.vdf", Response 200 (hex "6b"))].

(** A world in which the region service reports a place outside China. *)
Definition world_abroad : world :=
  world_of []
    [(region_url,
      Response 200 (hex "7b22666c6167223a66616c73652c22636f756e747279223a225553227d"));
     ("https://raw.githubusercontent.com/org/repo/a1/key.vdf", Response 200 (hex "6b"))].

(** ** Searching every repository: the network trace *)




(** The events after those of [w]. *)
Definition events_since (w w' : world) : list net_event :=
  drop (length (requests w)) (requests w').


Section Found.
Context `{Libs}.

(** What the loop of [search_all_repos] appends for [repo]. *)
Definition found (app_id : string) (w : world) (repo : string) : option hit :=
  match (search_repo app_id repo w).1 with
  | Ok (Some h) => Some h
  | _ => None
  end.
End Found.

(** Three repositories: the first two have the branch of application 480,
    the second with the later commit; the third has no such branch. *)
Definition sample_repo_options : list (string * string) :=
  [("SWA V2", "swa"); ("First", "orgA/repo"); ("Second", "orgB/repo");
   ("Third", "orgC/repo")].

Definition world_three_repos : world :=
  world_of []
    [(branch_url "orgA/repo" "480",
      Response 200 (hex "7b22636f6d6d6974223a7b22736861223a226131222c22636f6d6d6974223a7b22617574686f72223a7b2264617465223a22323032342d30312d30355431303a30303a30305a227d2c2274726565223a7b2275726c223a2268747470733a2f2f6170692e6769746875622e636f6d2f747265652f6131227d7d7d7d"));
     ("https://api.github.com/tree/a1",
      Response 200 (hex "7b2274726565223a5b7b2270617468223a226b65792e766466227d5d7d"));
     (branch_url "orgB/repo" "480",
      Response 200 (hex "7b22636f6d6d6974223a7b22736861223a226232222c22636f6d6d6974223a7b22617574686f72223a7b2264617465223a22323032342d30332d30315430383a33303a30305a227d2c2274726565223a7b2275726c223a2268747470733a2f2f6170692e6769746875622e636f6d2f747265652f6232227d7d7d7d"));
     ("https://api.github.com/tree/b2",
      Response 200 (hex "7b2274726565223a5b7b2270617468223a223232383938315f372e6d616e6966657374227d5d7d"));
     (branch_url "orgC/repo" "480",
      Response 404 (hex "7b226d657373616765223a224272616e6368206e6f7420666f756e64227d"))].



(** ** The script of a game and the free DLCs *)

(** Every character of [s] satisfies [P]. *)
Fixpoint str_forall (P : ascii -> Prop) (s : string) : Prop :=
  match s with
  | EmptyString => True
  | String c t => P c /\ str_forall P t
  end.


(** A non-empty string of decimal digits, as the ids of the store are. *)
Definition digits (s : string) : Prop :=
  s <> EmptyString /\ str_forall (fun c => is_digit c = true) s.




Definition free_dlc (id : string) : dlc_info :=
  {| appid := id; dlc_name := "DLC " +:+ id; has_depots := false |}.



(** ** The answers of the hosts of a raw file *)

(** No URL of [urls] answers with status 200. *)
Definition none_ok (w : world) (urls : list string) : Prop :=
  forall u body, u ∈ urls -> remote w u <> Response 200 body.

(** ** GuiBackend.extract_app_id *)

(** The literal [lit] followed by [(\d+)]: the group and what follows. *)
Definition pat_digits_after (lit : string) : matcher string := fun s =>
  rest ← strip_prefix lit s;
  let '(digits, rest) := span is_digit rest in
  if bool_decide (digits = EmptyString) then None else Some (digits, rest).

(** [store\.steampowered\.com/app/(\d+)] *)
Definition pat_store : matcher string := pat_digits_after "store.steampowered.com/app/".

(** [steamdb\.info/app/(\d+)] *)
Definition pat_steamdb : matcher string := pat_digits_after "steamdb.info/app/".

(** The characters for which [str.isdigit] holds: the decimal digits and
    the superscripts two, three and one. *)
Definition is_isdigit (c : ascii) : bool :=
  is_digit c || (code c =? 178) || (code c =? 179) || (code c =? 185).

Fixpoint all_chars (p : ascii -> bool) (s : string) : bool :=
  match s with
  | EmptyString => true
  | String c t => p c && all_chars p t
  end.

(** [s.isdigit()] *)
Definition py_isdigit (s : string) : bool := non_empty s && all_chars is_isdigit s.

Definition extract_app_id (user_input : string) : option string :=
  match re_search pat_store user_input with
  | Some id => Some id
  | None =>
      match re_search pat_steamdb user_input with
      | Some id => Some id
      | None => if py_isdigit user_input then Some user_input else None
      end
  end.

(** ** GuiBackend.get_manifest_from_github *)

(** [c.lower()] for a character below 256: the capital letters of ASCII
    and of Latin-1 (192-222 but the multiplication sign) move up by 32. *)
Definition lower_char (c : ascii) : ascii :=
  if in_range 65 90 c || (in_range 192 222 c && negb (code c =? 215))
  then ascii_of_N (N_of_ascii c + 32) else c.

(** [s.lower()] *)
Fixpoint lower (s : string) : string :=
  match s with
  | EmptyString => EmptyString
  | String c t => String (lower_char c) (lower t)
  end.

(** [[(depot_id, info['DecryptionKey']) for depot_id, info in
    depots_cfg.get('depots', {}).items()]] *)
Definition decryption_keys (depots_cfg : dict vdf) : result (list (string * vdf)) :=
  match default (VDict []) (dict_get "depots" depots_cfg) with
  | VStr _ => Raise AttributeError
  | VDict depots =>
      mapM (fun entry : string * vdf =>
              match entry.2 with
              | VDict info =>
                  key ← of_option (KeyError "DecryptionKey") (dict_get "DecryptionKey" info);
                  Ok (entry.1, key)
              | VStr _ => Raise TypeError
              end) depots
  end.

Section ManifestFromGithub.
Context `{Libs}.
(** [Path(path).name], the last component of a path as [pathlib] of the
    host splits it. *)
Variable path_name : string -> string.
(** [str(d)] of a dictionary, which is what a key that is not a string
    is written as. *)
Variable dict_repr : dict vdf -> string.

(** [f'{key}'] *)
Definition key_text (key : vdf) : string :=
  match key with
  | VStr s => s
  | VDict d => dict_repr d
  end.

(** The script written for the title from the keys of a key file. *)
Definition key_script (self : backend) (app_id : string) (depots : list (string * vdf))
    (all_manifests : list string) : string :=
  let is_st_auto_update_mode := is_steamtools self && steamtools_only_lua self in
  let is_floating_version := is_st_auto_update_mode && negb (st_lock_manifest_version self) in
  st_script_line app_id "None"
  +:+ String.concat EmptyString (map (fun d => st_script_line d.1 (key_text d.2)) depots)
  +:+ String.concat EmptyString (map (manifest_line is_floating_version) all_manifests).

Definition get_manifest_from_github (self : backend) (sha path repo app_id : string)
    (all_manifests : list string) : act (list (string * vdf)) :=
  let is_st_auto_update_mode := is_steamtools self && steamtools_only_lua self in
  if endswith ".manifest" path && is_st_auto_update_mode then
    _ ← logger INFO ("ST自动更新模式: 已跳过清单文件下载: " +:+ path);
    mret []
  else
    content ← get_from_url sha path repo;
    let stplug := (steam_path self ++ ["config"; "stplug-in"])%list in
    if endswith ".manifest" path && negb is_st_auto_update_mode then
      let depot_cache := (steam_path self ++ ["depotcache"])%list in
      let cfg_depot_cache := (steam_path self ++ ["config"; "depotcache"])%list in
      _ ← for_each [depot_cache; cfg_depot_cache; stplug] (fun p => modify (mkdir p));
      _ ← modify (write_bytes (depot_cache ++ [path_name path])%list content);
      _ ← modify (write_bytes (cfg_depot_cache ++ [path_name path])%list content);
      _ ← logger INFO ("清单已保存: " +:+ path);
      mret []
    else if substring_of "key.vdf" (lower path) then
      text ← lift (of_option UnicodeDecodeError (utf8_decode content));
      depots_cfg ← lift (of_option SyntaxError (vdf_loads text));
      depots ← lift (decryption_keys depots_cfg);
      _ ← (if is_steamtools self && non_empty app_id then
             let lua_path := (stplug ++ [app_id +:+ ".lua"])%list in
             _ ← logger INFO ("为SteamTools创建Lua脚本: " +:+ path_str lua_path);
             _ ← open_and_write lua_path (key_script self app_id depots all_manifests);
             logger INFO "Lua脚本创建成功。"
           else mret tt);
      mret depots
    else mret [].
End ManifestFromGithub.

(** ** Sample files of a repository *)

(** The bytes of a text of ASCII characters. *)
Definition ascii_bytes (s : string) : list byte :=
  map (fun c => byte_of_val (code c)) (list_ascii_of_string s).

(** The last component of a path written with slashes. *)
Definition last_component (p : string) : string :=
  default EmptyString (last (split_slash p)).

(** Libraries that read the sample key file. *)
Definition key_file_libs : Libs :=
  {| zlib_decompress := fun _ => None;
     utf8_decode := utf8_latin1;
     vdf_loads := table String.eqb [(sample_dumps sample_keys, sample_keys)];
     vdf_dumps := sample_dumps;
     zip_extract := fun _ => None;
     json_loads := fun _ => None |}.

(** A repository holding a manifest, the sample key file and a text,
    reached outside China. *)
Definition world_repo_files : world :=
  world_of []
    [(official_url "a1" "228981_7.manifest" "org/repo", Response 200 (hex "0405"));
     (official_url "a1" "Key.vdf" "org/repo",
      Response 200 (ascii_bytes (sample_dumps sample_keys)));
     (official_url "a1" "README.md" "org/repo", Response 200 (hex "23"))].

(** ** GuiBackend.search_games_by_name *)

(** [for x in j]: the elements of an array, the keys of an object, the
    characters of a string. *)
Definition json_iter (j : json) : result (list json) :=
  match j with
  | JArr items => Ok items
  | JObj members => Ok (map JStr (dict_keys members))
  | JStr s => Ok (map (fun c => JStr (String c EmptyString)) (list_ascii_of_string s))
  | _ => Raise TypeError
  end.

(** [t in ["Game", "Application"]] for what [game.get("type")] gave *)
Definition is_game_type (t : option json) : bool :=
  match t with
  | Some (JStr s) => String.eqb s "Game" || String.eqb s "Application"
  | _ => false
  end.

(** [[game for game in all_games if game.get("type") in [...]]] *)
Fixpoint filter_games (all_games : list json) : result (list json) :=
  match all_games with
  | [] => Ok []
  | game :: rest =>
      t ← json_get "type" game;
      rest ← filter_games rest;
      Ok (if is_game_type t then game :: rest else rest)
  end.

Definition games_url (game_name : string) : string :=
  "https://steamui.com/api/loadGames.php?page=1&search=" +:+ game_name +:+ "&sort=update".

Section SearchGames.
Context `{Libs}.

(** The body of the [try] of [search_games_by_name] after the request. *)
Definition games_of_response (r : http_response) : result (list json) :=
  match r with
  | ConnectionError => Raise (OtherError "ConnectError")
  | Response status body =>
      if (200 <=? status) && (status <=? 299) then
        j ← of_option (ValueError "JSONDecodeError") (json_loads body);
        all_games ← json_get "games" j;
        items ← json_iter (default (JArr []) all_games);
        filter_games items
      else Raise (OtherError "HTTPStatusError")
  end.

(** The numbers of the log entries are left out. *)
Definition search_games_by_name (game_name : string) (w : world) : list json * world :=
  let w := emit INFO ("通过API搜索游戏: '" +:+ game_name +:+ "'") w in
  let '(r, w) := http_get (games_url game_name) w in
  match games_of_response r with
  | Ok filtered_games => (filtered_games, emit INFO "找到匹配的游戏。" w)
  | Raise e => ([], emit ERROR ("通过游戏名搜索AppID时出错: " +:+ exn_str e) w)
  end.
End SearchGames.

(** A game entry that is an object. *)
Definition is_object (j : json) : bool :=
  match j with JObj _ => true | _ => false end.

(** The type of an entry that is an object. *)
Definition game_type (j : json) : option json :=
  match j with JObj members => dict_get "type" members | _ => None end.

(** ** Sample answers of the search service *)

Definition games_answer : list json :=
  [JObj [("type", JStr "Game"); ("appid", JNum 480)];
   JObj [("type", JStr "DLC"); ("appid", JNum 481)];
   JObj [("type", JStr "Application"); ("appid", JNum 482)]].

(** Libraries that read the two sample answers. *)
Definition games_libs : Libs :=
  {| zlib_decompress := fun _ => None;
     utf8_decode := utf8_latin1;
     vdf_loads := fun _ => None;
     vdf_dumps := sample_dumps;
     zip_extract := fun _ => None;
     json_loads :=
       table bytes_eqb
         [(hex "7b2267616d6573223a205b7b2274797065223a202247616d65222c20226170706964223a203438307d2c207b2274797065223a2022444c43222c20226170706964223a203438317d2c207b2274797065223a20224170706c69636174696f6e222c20226170706964223a203438327d5d7d",
           JObj [("games", JArr games_answer)]);
          (hex "7b2267616d6573223a205b7b2274797065223a202247616d65222c20226170706964223a203438307d2c20226f6f7073225d7d",
           JObj [("games", JArr [JObj [("type", JStr "Game"); ("appid", JNum 480)];
                                 JStr "oops"])])] |}.

(** The search service answering for two names, the second with an entry
    that is not an object. *)
Definition world_games : world :=
  world_of []
    [(games_url "space",
      Response 200 (hex "7b2267616d6573223a205b7b2274797065223a202247616d65222c20226170706964223a203438307d2c207b2274797065223a2022444c43222c20226170706964223a203438317d2c207b2274797065223a20224170706c69636174696f6e222c20226170706964223a203438327d5d7d"));
     (games_url "war",
      Response 200 (hex "7b2267616d6573223a205b7b2274797065223a202247616d65222c20226170706964223a203438307d2c20226f6f7073225d7d"))].

(** ** GameBoxGUI.process_game_thread: the loop over the selected sources *)

(** The name found for [repo_value] by the loop over [repo_options]. *)
Definition repo_name_of (repo_options : list (string * string)) (repo_value : string)
  : option string :=
  fst <$> List.find (fun option => String.eqb option.2 repo_value) repo_options.

(** The names of the sources the loop does not pass over: those with a
    name that is not empty. *)
Definition usable_names (repo_options : list (string * string))
    (selected_repos_list : list string) : list string :=
  List.filter non_empty (omap (repo_name_of repo_options) selected_repos_list).

Section ProcessGame.
Context `{Libs}.
(** [process_from_github_with_client], with [existing_data] when it is
    given. *)
Variable process_from_github_with_client : string -> string -> option hit -> act bool.

(** The chain of comparisons on [repo_value] when one source is used. *)
Definition process_source (self : backend) (app_id repo_value : string) : act bool :=
  if String.eqb repo_value "swa" then
    call (process_zip_based_manifest self app_id
            ("https://api.printedwaste.com/gfk/download/" +:+ app_id) "SWA V2")
  else if String.eqb repo_value "cysaw" then
    call (process_zip_based_manifest self app_id
            ("https://cysaw.top/uploads/" +:+ app_id +:+ ".zip") "Cysaw")
  else if String.eqb repo_value "furcate" then
    call (process_zip_based_manifest self app_id
            ("https://furcate.eu/files/" +:+ app_id +:+ ".zip") "Furcate")
  else if String.eqb repo_value "cngs" then
    call (process_zip_based_manifest self app_id
            ("https://assiw.cngames.site/qindan/" +:+ app_id +:+ ".zip") "CNGS")
  else if String.eqb repo_value "steamdatabase" then
    call (process_zip_based_manifest self app_id
            ("https://steamdatabase.s3.eu-north-1.amazonaws.com/" +:+ app_id +:+ ".zip")
            "SteamDatabase")
  else process_from_github_with_client app_id repo_value None.

(** The body of the [try] of one turn: [Some b] when the coroutine
    returns [b], [None] when the turn ends without returning. *)
Definition process_turn (self : backend) (search_all : bool) (app_id : string)
    (repo_options : list (string * string)) (repo_value repo_name : string)
  : act (option bool) :=
  if search_all then
    search_all_step (fun app_id repo selected =>
                       process_from_github_with_client app_id repo (Some selected))
      app_id repo_options
  else
    result ← process_source self app_id repo_value;
    if result : bool then
      _ ← logger INFO ("从 " +:+ repo_name +:+ " 下载成功");
      mret (Some true)
    else mret None.

(** [process_with_client]: what it returns, [failed_repos] and the world
    afterwards. *)
Fixpoint process_with_client (self : backend) (search_all : bool) (app_id : string)
    (repo_options : list (string * string)) (selected_repos_list : list string)
    (failed_repos : list string) (w : world) : bool * list string * world :=
  match selected_repos_list with
  | [] => (false, failed_repos, w)
  | repo_value :: rest =>
      match repo_name_of repo_options repo_value with
      | None | Some EmptyString =>
          process_with_client self search_all app_id repo_options rest failed_repos w
      | Some repo_name =>
          let w := emit INFO ("尝试从 " +:+ repo_name +:+ " 下载清单...") w in
          match process_turn self search_all app_id repo_options repo_value repo_name w with
          | (Ok (Some b), w) => (b, failed_repos, w)
          | (Ok None, w) =>
              if search_all then
                process_with_client self search_all app_id repo_options rest failed_repos w
              else
                process_with_client self search_all app_id repo_options rest
                  (failed_repos ++ [repo_name])%list
                  (emit WARNING ("从 " +:+ repo_name +:+ " 下载失败，尝试下一个源...") w)
          | (Raise e, w) =>
              process_with_client self search_all app_id repo_options rest
                (failed_repos ++ [repo_name])%list
                (emit ERROR ("从 " +:+ repo_name +:+ " 下载时出错: " +:+ exn_str e) w)
          end
      end
  end.
End ProcessGame.

(** ** The lines of a SteamTools script, spelled out *)






(** ** Sample installations of SteamTools *)






(** ** The region check, as the claim words it *)

Section RegionCheck.
Context `{Libs}.


End RegionCheck.

(** Libraries that read the answer of a region service out of order. *)
Definition region_libs : Libs :=
  {| zlib_decompress := fun _ => None;
     utf8_decode := utf8_latin1;
     vdf_loads := fun _ => None;
     vdf_dumps := sample_dumps;
     zip_extract := fun _ => None;
     json_loads :=
       table bytes_eqb
         [(hex "7b226572726f72223a22756e617661696c61626c65227d",
           JObj [("error", JStr "unavailable")])] |}.

(** A world in which the region service answers with status 503 and an
    error object, and the official host has the file. *)
Definition world_region_error : world :=
  world_of []
    [(region_url, Response 503 (hex "7b226572726f72223a22756e617661696c61626c65227d"));
     ("https://raw.githubusercontent.com/org/repo/a1/key.vdf", Response 200 (hex "6b"))].

(** ** The lines of a script that register an id, as the claim words them *)

(** A line registers [id]: it starts with [addappid(], then come the
    decimal digits of [id], then something that is not a digit, or
    nothing. *)
Definition registers (line id : string) : Prop :=
  exists rest,
    line = "addappid(" +:+ id +:+ rest
    /\ digits id
    /\ (rest = EmptyString \/ exists c t, rest = String c t /\ is_digit c = false).

(** A line of a plain script: it registers an id, or [addappid(] does not
    occur in it. *)
Definition plain_line (line : string) : Prop :=
  (exists id, registers line id) \/ substring_of "addappid(" line = false.

(** The lines whose numeric id is [n]. *)
Definition with_appid (n : Z) (lines : list string) : list string :=
  List.filter (fun line => get_appid_from_line line =? n) lines.

(** * Properties *)

(** Reduction of the binds of [result] once their first argument is known. *)
Ltac rsimpl :=
  cbn [mbind mret fmap result_bind result_ret result_fmap rbind] in *.

(** ** The network *)

(** A GET awaited directly leaves its two events side by side and
    nothing else. *)
Lemma http_get_requests (url : string) (w : world) :
  requests (http_get url w).2 = (requests w ++ asked [url])%list.
Proof. cbn. rewrite <- app_assoc. reflexivity. Qed.

Lemma http_get_answer (url : string) (w : world) : (http_get url w).1 = remote w url.
Proof. reflexivity. Qed.

Lemma status_other {A} (status : Z) (a b : A) :
  status <> 200 -> match status with 200 => a | _ => b end = b.
Proof.
  intros Hne. destruct status as [|p|p]; try reflexivity.
  do 8 (destruct p as [p|p|]; try reflexivity). congruence.
Qed.

(** ** Bytes and the ST decoder *)

Lemma byte_val_range (b : byte) : 0 <= byte_val b < 256.
Proof.
  unfold byte_val. pose proof (Byte.to_N_bounded b). lia.
Qed.

Lemma byte_val_of_val (z : Z) : 0 <= z < 256 -> byte_val (byte_of_val z) = z.
Proof.
  intros Hz. unfold byte_val, byte_of_val.
  rewrite Z.mod_small by lia.
  destruct (Byte.of_N (Z.to_N z)) as [b|] eqn:E.
  - simpl. apply Byte.to_of_N in E. rewrite E. lia.
  - apply Byte.of_N_None_iff in E. lia.
Qed.

Lemma lxor_byte_range (a b : Z) : 0 <= a < 256 -> 0 <= b < 256 -> 0 <= Z.lxor a b < 256.
Proof.
  intros Ha Hb. split; [apply Z.lxor_nonneg; lia|].
  destruct (Z.eq_dec (Z.lxor a b) 0) as [->|Hne]; [lia|].
  assert (0 < Z.lxor a b) by (pose proof (proj2 (Z.lxor_nonneg a b)); lia).
  apply (Z.log2_lt_pow2 _ 8); [lia|].
  pose proof (Z.log2_lxor a b ltac:(lia) ltac:(lia)) as Hl.
  assert (Z.log2 a < 8).
  { destruct (Z.eq_dec a 0) as [->|]; [simpl; lia|]. apply Z.log2_lt_pow2; lia. }
  assert (Z.log2 b < 8).
  { destruct (Z.eq_dec b 0) as [->|]; [simpl; lia|]. apply Z.log2_lt_pow2; lia. }
  lia.
Qed.

Lemma st_key_range (xorKey : Z) : 0 <= st_key xorKey < 256.
Proof.
  unfold st_key. change 255 with (Z.ones 8). rewrite Z.land_ones by lia.
  apply Z.mod_pos_bound. lia.
Qed.

(** The key only depends on the lowest byte of the raw key. *)
Lemma st_key_low_byte (xorKey : Z) : st_key xorKey = Z.lxor (xorKey mod 256) 200.
Proof.
  unfold st_key. change 256 with (2 ^ 8). rewrite <- Z.land_ones by lia.
  change (Z.ones 8) with 255. change 200 with (Z.land 4294878408 255).
  apply Z.bits_inj'. intros n Hn.
  rewrite Z.lxor_spec, !Z.land_spec, Z.lxor_spec.
  destruct (Z.testbit xorKey n), (Z.testbit 4294878408 n), (Z.testbit 255 n); reflexivity.
Qed.

Lemma le_uint_nonneg (bs : list byte) : 0 <= le_uint bs.
Proof.
  induction bs as [|b bs IH]; simpl; [lia|]. pose proof (byte_val_range b). lia.
Qed.

Lemma len_nonneg {A} (l : list A) : 0 <= len l.
Proof. unfold len. lia. Qed.

Lemma slice_payload (content : list byte) (n : Z) :
  0 <= n -> slice content 12 (12 + n) = st_payload content n.
Proof.
  intros Hn. unfold slice, st_payload.
  replace (Z.to_nat (12 + n) - Z.to_nat 12)%nat with (Z.to_nat n) by lia.
  reflexivity.
Qed.

Lemma struct_unpack_header (content : list byte) :
  12 <= len content -> struct_unpack_III (take 12 content) = Ok (st_header content).
Proof.
  unfold len. intros Hlen. assert (12 <= length content)%nat as Hn by lia. clear Hlen.
  do 12 (destruct content as [|? content]; [simpl in Hn; lia|]).
  unfold st_header, u32_le. cbn -[Z.mul Z.add byte_val].
  f_equal. f_equal; [f_equal|]; unfold u32_le; rewrite ?take_0; cbn [foldr]; lia.
Qed.

Lemma st_header_size_nonneg (content : list byte) : 0 <= (st_header content).1.2.
Proof. unfold st_header. simpl. apply le_uint_nonneg. Qed.

Lemma st_payload_len (content : list byte) (n : Z) :
  0 <= n -> len (st_payload content n) = Z.min n (Z.max 0 (len content - 12)).
Proof.
  intros Hn. unfold len, st_payload. rewrite length_take, length_drop. lia.
Qed.

Lemma xor_bytes_exact (key : Z) (bs : list byte) :
  0 <= key < 256 ->
  map byte_val (xor_bytes key bs) = map (fun b => Z.lxor (byte_val b) key) bs.
Proof.
  intros Hk. unfold xor_bytes. rewrite map_map. apply map_ext. intros b.
  apply byte_val_of_val, lxor_byte_range; [apply byte_val_range|assumption].
Qed.

Section STConverterFacts.
Context `{Libs}.

(** The decoder, once the two length checks have passed. *)
Lemma parse_st_bytes_checked (content : list byte) :
  12 <= len content ->
  (st_header content).1.2 <= len content - 12 ->
  let '(xorKey, payloadSize, _) := st_header content in
  parse_st_bytes content =
    (inflated ← of_option ZlibError
       (zlib_decompress (xor_bytes (st_key xorKey) (st_payload content payloadSize)));
     text ← of_option UnicodeDecodeError (utf8_decode (drop 512 inflated));
     Ok (text, {| original_xorkey := st_key xorKey; st_size := payloadSize |})).
Proof.
  intros Hlen Hsize. pose proof (st_header_size_nonneg content) as Hnn.
  unfold parse_st_bytes.
  destruct (Z.ltb_spec (len content) 12) as [?|_]; [lia|].
  rewrite struct_unpack_header by assumption.
  destruct (st_header content) as [[xorKey payloadSize] reserved] eqn:Eh.
  simpl in Hsize, Hnn. cbn [mbind result_bind rbind].
  rewrite slice_payload by assumption.
  destruct (Z.ltb_spec (len (st_payload content payloadSize)) payloadSize) as [Hlt|_].
  { rewrite st_payload_len in Hlt by assumption. lia. }
  reflexivity.
Qed.
End STConverterFacts.

Section STDecoding.
Context `{Libs}.

Lemma parse_st_bytes_short_header (content : list byte) :
  len content < 12 -> parse_st_bytes content = Raise (ValueError "文件头长度不足").
Proof.
  intros Hlen. unfold parse_st_bytes.
  destruct (Z.ltb_spec (len content) 12); [reflexivity|lia].
Qed.

Lemma parse_st_bytes_short_payload (content : list byte) :
  12 <= len content ->
  len content - 12 < (st_header content).1.2 ->
  parse_st_bytes content = Raise (ValueError "数据长度不足").
Proof.
  intros Hlen Hsize. pose proof (st_header_size_nonneg content) as Hnn.
  unfold parse_st_bytes.
  destruct (Z.ltb_spec (len content) 12) as [?|_]; [lia|].
  rewrite struct_unpack_header by assumption.
  destruct (st_header content) as [[xorKey payloadSize] reserved] eqn:Eh.
  simpl in Hsize, Hnn. cbn [mbind result_bind rbind].
  rewrite slice_payload by assumption.
  destruct (Z.ltb_spec (len (st_payload content payloadSize)) payloadSize) as [_|Hge];
    [reflexivity|].
  rewrite st_payload_len in Hge by assumption. lia.
Qed.

Lemma parse_st_bytes_bad_stream (content : list byte) :
  12 <= len content ->
  (st_header content).1.2 <= len content - 12 ->
  zlib_decompress
    (xor_bytes (st_key (st_header content).1.1)
       (st_payload content (st_header content).1.2)) = None ->
  parse_st_bytes content = Raise ZlibError.
Proof.
  intros Hlen Hsize Hz. pose proof (parse_st_bytes_checked content Hlen Hsize) as Hp.
  destruct (st_header content) as [[xorKey payloadSize] reserved].
  simpl in Hz. rewrite Hp, Hz. reflexivity.
Qed.

(** A conversion that raises leaves the staging directory and the list of
    scripts as they were, writes no file, and ends in two log entries:
    the one of [convert_file] and the one of the loop. *)
Lemma convert_st_contains (dir : dict file) (lua_files : list string)
    (st_file : string) (e : exn) (w : world) :
  parse_st_file dir st_file = Raise e ->
  exists msg1 msg2,
    convert_st st_file (dir, lua_files) w
    = ((dir, lua_files), emit ERROR msg2 (emit ERROR msg1 w)).
Proof.
  intros Hp. unfold convert_st, convert_file. rewrite Hp. eauto.
Qed.
End STDecoding.

(** ** Dictionaries *)

Section DictFacts.
Context {V : Type}.
Implicit Types (d other : dict V) (k : string) (v : V).

Lemma dict_get_set_eq k v d : dict_get k (dict_set k v d) = Some v.
Proof.
  induction d as [|[k' v'] d IH]; simpl.
  - rewrite String.eqb_refl. reflexivity.
  - destruct (String.eqb_spec k k') as [->|Hne]; simpl.
    + rewrite String.eqb_refl. reflexivity.
    + destruct (String.eqb_spec k k'); [contradiction|assumption].
Qed.

Lemma dict_get_set_ne k k' v d : k <> k' -> dict_get k' (dict_set k v d) = dict_get k' d.
Proof.
  intros Hne. induction d as [|[k0 v0] d IH]; simpl.
  - destruct (String.eqb_spec k' k); [congruence|reflexivity].
  - destruct (String.eqb_spec k k0) as [->|Hk]; simpl.
    + destruct (String.eqb_spec k' k0); [congruence|reflexivity].
    + destruct (String.eqb_spec k' k0); [reflexivity|assumption].
Qed.

Lemma dict_get_Some_keys k v d : dict_get k d = Some v -> k ∈ dict_keys d.
Proof.
  unfold dict_keys. induction d as [|[k' v'] d IH]; simpl; [discriminate|].
  destruct (String.eqb_spec k k') as [->|Hne]; intros Hg.
  - apply list_elem_of_here.
  - apply list_elem_of_further. auto.
Qed.

Lemma dict_get_None_keys k d : dict_get k d = None <-> k ∉ dict_keys d.
Proof.
  unfold dict_keys. induction d as [|[k' v'] d IH]; simpl.
  - split; [intros _; apply not_elem_of_nil|reflexivity].
  - rewrite not_elem_of_cons. destruct (String.eqb_spec k k') as [->|Hne].
    + split; [discriminate|intros [? _]; contradiction].
    + rewrite IH. tauto.
Qed.

Lemma dict_keys_get k d : k ∈ dict_keys d -> exists v, dict_get k d = Some v.
Proof.
  intros Hin. destruct (dict_get k d) as [v|] eqn:E; [eauto|].
  apply dict_get_None_keys in E. contradiction.
Qed.

Lemma dict_set_same k v d : dict_get k d = Some v -> dict_set k v d = d.
Proof.
  induction d as [|[k' v'] d IH]; simpl; [discriminate|].
  destruct (String.eqb_spec k k') as [->|Hne]; intros Hg.
  - congruence.
  - rewrite IH by assumption. reflexivity.
Qed.

Lemma dict_set_twice k v v' d : dict_set k v (dict_set k v' d) = dict_set k v d.
Proof.
  induction d as [|[k0 v0] d IH]; simpl.
  - rewrite String.eqb_refl. reflexivity.
  - destruct (String.eqb_spec k k0) as [->|Hne]; simpl.
    + rewrite String.eqb_refl. reflexivity.
    + destruct (String.eqb_spec k k0); [contradiction|]. rewrite IH. reflexivity.
Qed.

Lemma dict_set_absent k v d : k ∉ dict_keys d -> dict_set k v d = (d ++ [(k, v)])%list.
Proof.
  unfold dict_keys. induction d as [|[k' v'] d IH]; simpl; [reflexivity|].
  rewrite not_elem_of_cons. intros [Hne Hnin].
  destruct (String.eqb_spec k k'); [contradiction|]. rewrite IH by assumption. reflexivity.
Qed.

Lemma dict_get_app_r k d tail :
  k ∉ dict_keys d -> dict_get k (d ++ tail)%list = dict_get k tail.
Proof.
  unfold dict_keys. induction d as [|[k' v'] d IH]; simpl; [reflexivity|].
  rewrite not_elem_of_cons. intros [Hne Hnin].
  destruct (String.eqb_spec k k'); [contradiction|]. auto.
Qed.

Lemma dict_set_app_l k v d tail :
  k ∈ dict_keys d -> dict_set k v (d ++ tail)%list = (dict_set k v d ++ tail)%list.
Proof.
  unfold dict_keys. induction d as [|[k' v'] d IH]; simpl.
  - intros Hin. apply elem_of_nil in Hin. contradiction.
  - rewrite elem_of_cons. intros Hin.
    destruct (String.eqb_spec k k') as [->|Hne]; [reflexivity|].
    destruct Hin as [?|Hin]; [contradiction|]. rewrite IH by assumption. reflexivity.
Qed.

Lemma dict_keys_set_present k v d :
  k ∈ dict_keys d -> dict_keys (dict_set k v d) = dict_keys d.
Proof.
  unfold dict_keys. induction d as [|[k' v'] d IH]; simpl.
  - intros Hin. apply elem_of_nil in Hin. contradiction.
  - rewrite elem_of_cons. intros Hin.
    destruct (String.eqb_spec k k') as [->|Hne]; [reflexivity|]. simpl.
    destruct Hin as [?|Hin]; [contradiction|]. f_equal. apply IH, Hin.
Qed.

Lemma dict_keys_set_subseteq k v d : dict_keys d ⊆ dict_keys (dict_set k v d).
Proof.
  intros x Hx. destruct (decide (k ∈ dict_keys d)) as [Hin|Hnin].
  - rewrite dict_keys_set_present by assumption. assumption.
  - rewrite dict_set_absent by assumption. unfold dict_keys in *.
    rewrite fmap_app. apply elem_of_app. auto.
Qed.

Lemma dict_keys_set_in k v d : k ∈ dict_keys (dict_set k v d).
Proof. eapply dict_get_Some_keys, dict_get_set_eq. Qed.

(** Two assignments to different keys commute when one of the keys is
    already there. *)
Lemma dict_set_comm k k' v v' d :
  k <> k' -> k ∈ dict_keys d ->
  dict_set k v (dict_set k' v' d) = dict_set k' v' (dict_set k v d).
Proof.
  unfold dict_keys. intros Hne. induction d as [|[k0 v0] d IH]; simpl.
  - intros Hin. apply elem_of_nil in Hin. contradiction.
  - rewrite elem_of_cons. intros Hin.
    destruct (String.eqb_spec k' k0) as [->|Hk']; simpl.
    + destruct (String.eqb_spec k k0) as [->|Hk]; [contradiction|]. simpl.
      rewrite String.eqb_refl. reflexivity.
    + destruct (String.eqb_spec k k0) as [->|Hk]; simpl.
      * destruct (String.eqb_spec k' k0); [contradiction|]. reflexivity.
      * destruct (String.eqb_spec k' k0); [contradiction|].
        destruct Hin as [?|Hin]; [contradiction|]. rewrite IH by assumption. reflexivity.
Qed.

Lemma dict_update_cons d k v other :
  dict_update d ((k, v) :: other) = dict_update (dict_set k v d) other.
Proof. reflexivity. Qed.

Lemma dict_update_snoc d k v other :
  dict_update d (other ++ [(k, v)])%list = dict_set k v (dict_update d other).
Proof. unfold dict_update. rewrite fold_left_app. reflexivity. Qed.

Lemma dict_keys_update_subseteq d other : dict_keys d ⊆ dict_keys (dict_update d other).
Proof.
  revert d. induction other as [|[k v] other IH]; intros d; [reflexivity|].
  rewrite dict_update_cons. etransitivity; [apply (dict_keys_set_subseteq k v)|apply IH].
Qed.

Lemma dict_keys_update_other d other : dict_keys other ⊆ dict_keys (dict_update d other).
Proof.
  revert d. induction other as [|[k v] other IH]; intros d x Hx.
  - apply elem_of_nil in Hx. contradiction.
  - rewrite dict_update_cons. unfold dict_keys in Hx. simpl in Hx.
    apply elem_of_cons in Hx as [->|Hx].
    + apply dict_keys_update_subseteq, dict_keys_set_in.
    + apply IH, Hx.
Qed.

(** Re-assigning [k] after an update that began by assigning [k]. *)
Lemma dict_set_update_set k v v' d other :
  k ∈ dict_keys d ->
  dict_set k v (dict_update (dict_set k v' d) other) = dict_set k v (dict_update d other).
Proof.
  revert d. induction other as [|[k0 v0] other IH]; intros d Hin.
  - simpl. apply dict_set_twice.
  - rewrite !dict_update_cons. destruct (decide (k = k0)) as [->|Hne].
    + rewrite dict_set_twice. reflexivity.
    + rewrite <- (dict_set_comm k k0) by assumption.
      apply IH. apply dict_keys_set_subseteq, Hin.
Qed.

Lemma dict_update_app_l d tail other :
  dict_keys other ⊆ dict_keys d ->
  dict_update (d ++ tail)%list other = (dict_update d other ++ tail)%list.
Proof.
  revert d. induction other as [|[k v] other IH]; intros d Hsub; [reflexivity|].
  rewrite !dict_update_cons.
  assert (k ∈ dict_keys d) as Hk by (apply Hsub; unfold dict_keys; simpl; apply list_elem_of_here).
  rewrite dict_set_app_l by assumption. apply IH.
  intros x Hx. apply dict_keys_set_subseteq, Hsub. unfold dict_keys in *. simpl.
  apply list_elem_of_further, Hx.
Qed.

(** Updating twice with the same mapping is updating once. *)
Lemma dict_update_idem d other :
  dict_update (dict_update d other) other = dict_update d other.
Proof.
  revert d. induction other as [|[k v] other IH] using rev_ind; intros d; [reflexivity|].
  rewrite !dict_update_snoc.
  set (X := dict_update d other).
  destruct (decide (k ∈ dict_keys X)) as [Hin|Hnin].
  - rewrite dict_set_update_set by assumption. subst X. rewrite IH. reflexivity.
  - rewrite (dict_set_absent k v X) by assumption.
    rewrite dict_update_app_l by apply dict_keys_update_other.
    subst X. rewrite IH. apply dict_set_same.
    rewrite dict_get_app_r by assumption. simpl. rewrite String.eqb_refl. reflexivity.
Qed.
End DictFacts.

(** ** Merging depot keys into the configuration *)

Lemma dict_get_update (V : Type) (k : string) (d other : dict V) :
  dict_get k (dict_update d other)
  = match dict_get k (reverse other) with
    | Some v => Some v
    | None => dict_get k d
    end.
Proof.
  revert d. induction other as [|[k0 v0] other IH] using rev_ind; intros d; [reflexivity|].
  rewrite dict_update_snoc, reverse_snoc. simpl.
  destruct (String.eqb_spec k k0) as [->|Hne].
  - apply dict_get_set_eq.
  - rewrite dict_get_set_ne by congruence. apply IH.
Qed.

Lemma dict_get_update_kept (V : Type) (k : string) (d other : dict V) :
  k ∉ dict_keys other -> dict_get k (dict_update d other) = dict_get k d.
Proof.
  intros Hnin. rewrite dict_get_update.
  destruct (dict_get k (reverse other)) as [v|] eqn:E; [|reflexivity].
  apply dict_get_Some_keys in E. exfalso. apply Hnin.
  unfold dict_keys in *. rewrite fmap_reverse, elem_of_reverse in E. exact E.
Qed.

Lemma dict_get_update_supplied (V : Type) (k : string) (d other : dict V) :
  k ∈ dict_keys other ->
  exists v, dict_get k (dict_update d other) = Some v /\ (k, v) ∈ other.
Proof.
  intros Hin. rewrite dict_get_update.
  assert (k ∈ dict_keys (reverse other)) as Hr.
  { unfold dict_keys in *. rewrite fmap_reverse, elem_of_reverse. exact Hin. }
  apply dict_keys_get in Hr as [v Hv]. rewrite Hv. exists v. split; [reflexivity|].
  rewrite <- elem_of_reverse. clear Hin. revert Hv.
  induction (reverse other) as [|[k' v'] l IH]; simpl; [discriminate|].
  destruct (String.eqb_spec k k') as [->|Hne].
  - intros [= ->]. apply list_elem_of_here.
  - intros Hv. apply list_elem_of_further. auto.
Qed.

(** The keys already there keep their places; new keys follow them. *)
Lemma dict_keys_update_prefix (V : Type) (d other : dict V) :
  exists tail, dict_keys (dict_update d other) = (dict_keys d ++ tail)%list.
Proof.
  revert d. induction other as [|[k v] other IH]; intros d.
  - exists []. rewrite app_nil_r. reflexivity.
  - rewrite dict_update_cons. destruct (IH (dict_set k v d)) as [tail Ht]. rewrite Ht.
    destruct (decide (k ∈ dict_keys d)) as [Hin|Hnin].
    + rewrite dict_keys_set_present by assumption. eauto.
    + rewrite dict_set_absent by assumption. unfold dict_keys. rewrite fmap_app.
      rewrite <- app_assoc. eauto.
Qed.

#[local] Arguments software_get : simpl never.

Lemma software_get_Some (name : string) (config : dict vdf) (s : vdf) :
  software_get name config = Ok (Some s) ->
  exists ics sw,
    dict_get "InstallConfigStore" config = Some (VDict ics)
    /\ dict_get "Software" ics = Some (VDict sw)
    /\ dict_get name sw = Some s.
Proof.
  unfold software_get, py_get_or_empty, py_get. cbn [mbind result_bind rbind].
  destruct (dict_get "InstallConfigStore" config) as [[?|ics]|] eqn:E1; cbn;
    try discriminate.
  destruct (dict_get "Software" ics) as [[?|sw]|] eqn:E2; cbn; try discriminate.
  intros [= Hs]. eauto.
Qed.

Lemma software_get_at (name : string) (config : dict vdf) (s : vdf) :
  software_get name config = Ok (Some s) ->
  vdf_at ["InstallConfigStore"; "Software"; name] (VDict config) = Some s.
Proof.
  intros (ics & sw & H1 & H2 & H3)%software_get_Some. cbn. rewrite H1. cbn.
  rewrite H2. cbn. rewrite H3. reflexivity.
Qed.

Lemma software_get_of_path (name : string) (config ics sw : dict vdf) :
  dict_get "InstallConfigStore" config = Some (VDict ics) ->
  dict_get "Software" ics = Some (VDict sw) ->
  software_get name config = Ok (dict_get name sw).
Proof.
  intros H1 H2. unfold software_get, py_get_or_empty, py_get.
  cbn [mbind result_bind rbind]. rewrite H1. cbn. rewrite H2. reflexivity.
Qed.

Lemma find_steam_spelling (config : dict vdf) (spelling : string) (s : vdf) :
  find_steam config = Ok (Some (spelling, s)) ->
  (spelling = "Valve" \/ spelling = "valve")
  /\ software_get spelling config = Ok (Some s).
Proof.
  unfold find_steam. cbn [mbind result_bind rbind].
  destruct (software_get "Valve" config) as [[upper|]|] eqn:Eu; cbn; try discriminate.
  - destruct (truthy upper).
    + intros ?. simplify_eq. auto.
    + destruct (software_get "valve" config) as [[lower|]|] eqn:El; cbn; try discriminate.
      intros ?. simplify_eq. auto.
  - destruct (software_get "valve" config) as [[lower|]|] eqn:El; cbn; try discriminate.
    intros ?. simplify_eq. auto.
Qed.

(** What [find_steam] answers depends only on what lies under the two
    spellings. *)
Lemma find_steam_ext (config config' : dict vdf) :
  software_get "Valve" config' = software_get "Valve" config ->
  software_get "valve" config' = software_get "valve" config ->
  find_steam config' = find_steam config.
Proof. intros Hu Hl. unfold find_steam. rewrite Hu, Hl. reflexivity. Qed.

Lemma store_steam_path (spelling : string) (s : vdf) (config ics sw : dict vdf) :
  dict_get "InstallConfigStore" config = Some (VDict ics) ->
  dict_get "Software" ics = Some (VDict sw) ->
  store_steam spelling s config
  = dict_set "InstallConfigStore"
      (VDict (dict_set "Software" (VDict (dict_set spelling s sw)) ics)) config.
Proof. intros H1 H2. unfold store_steam. rewrite H1, H2. reflexivity. Qed.

Lemma software_get_store (spelling name : string) (s : vdf) (config ics sw : dict vdf) :
  dict_get "InstallConfigStore" config = Some (VDict ics) ->
  dict_get "Software" ics = Some (VDict sw) ->
  software_get name (store_steam spelling s config)
  = Ok (dict_get name (dict_set spelling s sw)).
Proof.
  intros H1 H2. rewrite (store_steam_path _ _ _ _ _ H1 H2).
  apply (software_get_of_path name _ (dict_set "Software" (VDict (dict_set spelling s sw)) ics));
    apply dict_get_set_eq.
Qed.

Lemma store_steam_same (spelling : string) (s : vdf) (config : dict vdf) :
  software_get spelling config = Ok (Some s) -> store_steam spelling s config = config.
Proof.
  intros (ics & sw & H1 & H2 & H3)%software_get_Some.
  rewrite (store_steam_path _ _ _ _ _ H1 H2).
  rewrite (dict_set_same spelling s sw H3), (dict_set_same "Software" _ ics H2).
  apply dict_set_same, H1.
Qed.

(** Storing the section changes nothing off the path that leads to it. *)
Lemma store_steam_frame (spelling : string) (s : vdf) (config : dict vdf)
    (i : nat) (k : string) (rest : list string) :
  (i < 3)%nat ->
  ["InstallConfigStore"; "Software"; spelling] !! i <> Some k ->
  vdf_at (take i ["InstallConfigStore"; "Software"; spelling] ++ k :: rest)%list
    (VDict (store_steam spelling s config))
  = vdf_at (take i ["InstallConfigStore"; "Software"; spelling] ++ k :: rest)%list
      (VDict config).
Proof.
  intros Hi Hk. unfold store_steam.
  destruct (dict_get "InstallConfigStore" config) as [[?|ics]|] eqn:E1; try reflexivity.
  destruct (dict_get "Software" ics) as [[?|sw]|] eqn:E2; try reflexivity.
  destruct i as [|[|[|i]]]; [| | |lia]; cbn in Hk |- *.
  - rewrite dict_get_set_ne by congruence. reflexivity.
  - rewrite dict_get_set_eq, E1. cbn. rewrite dict_get_set_ne by congruence. reflexivity.
  - rewrite dict_get_set_eq, E1. cbn. rewrite dict_get_set_eq, E2. cbn.
    rewrite dict_get_set_ne by congruence. reflexivity.
Qed.

Lemma dict_setdefault_get (V : Type) (k : string) (v x : V) (d d' : dict V) :
  dict_setdefault k v d = (x, d') -> dict_get k d' = Some x.
Proof.
  unfold dict_setdefault. destruct (dict_get k d) as [y|] eqn:E; intros ?; simplify_eq.
  - assumption.
  - rewrite dict_get_app_r by (apply dict_get_None_keys, E).
    simpl. rewrite String.eqb_refl. reflexivity.
Qed.

Lemma dict_set_setdefault (V : Type) (k : string) (v x y : V) (d d' : dict V) :
  dict_setdefault k v d = (x, d') -> dict_set k y d' = dict_set k y d.
Proof.
  unfold dict_setdefault. destruct (dict_get k d) as [z|] eqn:E; intros ?; simplify_eq.
  - reflexivity.
  - apply dict_get_None_keys in E.
    match goal with |- dict_set _ _ (?l ++ [(_, ?z)])%list = _ =>
      rewrite <- (dict_set_absent k z l E) end.
    apply dict_set_twice.
Qed.

Lemma truthy_dict_set (k : string) (v : vdf) (d : dict vdf) :
  truthy (VDict (dict_set k v d)) = true.
Proof.
  destruct d as [|[k' v'] d]; simpl; [reflexivity|]. destruct (String.eqb k k'); reflexivity.
Qed.

Lemma merge_depots_truthy (s s' : vdf) (depots_config : dict vdf) :
  merge_depots s depots_config = Ok s' -> truthy s' = true.
Proof.
  unfold merge_depots. destruct s as [?|st]; [discriminate|].
  destruct (dict_setdefault "depots" (VDict []) st) as [depots st1] eqn:Es.
  destruct depots as [?|old]; [discriminate|].
  destruct (default (VDict []) (dict_get "depots" depots_config)) as [[|? ?]|new];
    intros ?; simplify_eq.
  - apply dict_setdefault_get in Es. destruct st1; [discriminate|reflexivity].
  - apply truthy_dict_set.
Qed.

Lemma merge_depots_idem (s s' : vdf) (depots_config : dict vdf) :
  merge_depots s depots_config = Ok s' -> merge_depots s' depots_config = Ok s'.
Proof.
  unfold merge_depots. destruct s as [?|st]; [discriminate|].
  destruct (dict_setdefault "depots" (VDict []) st) as [depots st1] eqn:Es.
  destruct depots as [?|old]; [discriminate|].
  pose proof (dict_setdefault_get _ _ _ _ _ _ Es) as Hget.
  destruct (default (VDict []) (dict_get "depots" depots_config)) as [[|? ?]|new];
    intros ?; simplify_eq.
  - unfold dict_setdefault. rewrite Hget. reflexivity.
  - unfold dict_setdefault. rewrite dict_get_set_eq.
    rewrite dict_update_idem, dict_set_twice. reflexivity.
Qed.

(** The merge when the section is a non-empty map whose depots, if any,
    are a map, and a map of depots is supplied. *)
Lemma merge_depots_section (section supplied : dict vdf) :
  (forall s, dict_get "depots" section <> Some (VStr s)) ->
  merge_depots (VDict section) [("depots", VDict supplied)]
  = Ok (VDict (merged_section section supplied)).
Proof.
  intros Hd. unfold merge_depots, merged_section, depots_of, dict_setdefault.
  destruct (dict_get "depots" section) as [[s|old]|] eqn:E.
  - exfalso. eapply Hd. reflexivity.
  - reflexivity.
  - cbn [default dict_get String.eqb Ascii.eqb Bool.eqb id].
    apply dict_get_None_keys in E.
    rewrite <- (dict_set_absent "depots" (VDict []) section E), dict_set_twice.
    reflexivity.
Qed.

Lemma merge_config_found (config section supplied : dict vdf) (spelling : string) :
  find_steam config = Ok (Some (spelling, VDict section)) ->
  section <> [] ->
  (forall s, dict_get "depots" section <> Some (VStr s)) ->
  merge_config config [("depots", VDict supplied)]
  = Ok (Some (store_steam spelling (VDict (merged_section section supplied)) config)).
Proof.
  intros Hf Hne Hd. unfold merge_config. rewrite Hf. cbn [mbind result_bind rbind].
  destruct section as [|kv section]; [contradiction|]. cbn [truthy].
  rewrite merge_depots_section by assumption. reflexivity.
Qed.

(** Merging again what has just been merged changes nothing. *)
Lemma merge_config_idem (config config' depots_config : dict vdf) :
  merge_config config depots_config = Ok (Some config') ->
  merge_config config' depots_config = Ok (Some config').
Proof.
  unfold merge_config. intros Hm.
  destruct (find_steam config) as [[[spelling s]|]|] eqn:Ef; rsimpl; try discriminate.
  destruct (truthy s) eqn:Et; [|discriminate].
  destruct (merge_depots s depots_config) as [s'|] eqn:Em; rsimpl; [|discriminate].
  simplify_eq.
  pose proof (merge_depots_truthy _ _ _ Em) as Ht'.
  pose proof (merge_depots_idem _ _ _ Em) as Hm'.
  destruct (find_steam_spelling _ _ _ Ef) as [Hsp Hg].
  destruct (software_get_Some _ _ _ Hg) as (ics & sw & H1 & H2 & H3).
  assert (find_steam (store_steam spelling s' config) = Ok (Some (spelling, s'))) as Ef'.
  { unfold find_steam in Ef |- *.
    rewrite !(software_get_store _ _ _ _ _ _ H1 H2).
    rewrite !(software_get_of_path _ _ _ _ H1 H2) in Ef.
    cbn [mbind result_bind rbind fmap result_fmap] in Ef |- *.
    destruct Hsp as [-> | ->].
    - rewrite dict_get_set_eq, Ht'. reflexivity.
    - rewrite dict_get_set_eq. rewrite dict_get_set_ne by discriminate.
      destruct (dict_get "Valve" sw) as [upper|]; [|reflexivity].
      destruct (truthy upper); [|reflexivity]. simplify_eq. }
  rewrite Ef'. rsimpl. rewrite Ht', Hm'. rsimpl. rewrite store_steam_same; [reflexivity|].
  rewrite (software_get_store _ _ _ _ _ _ H1 H2), dict_get_set_eq. reflexivity.
Qed.

Lemma vdf_at_app (p q : list string) (v : vdf) :
  vdf_at (p ++ q)%list v = v' ← vdf_at p v; vdf_at q v'.
Proof.
  revert v. induction p as [|k p IH]; intros v; [reflexivity|].
  simpl. destruct v as [?|d]; [reflexivity|].
  destruct (dict_get k d) as [v'|]; [apply IH|reflexivity].
Qed.

(** Merging the depots changes nothing off the path that leads to them. *)
Lemma merged_config_frame (spelling : string) (config section supplied : dict vdf)
    (i : nat) (k : string) (rest : list string) :
  software_get spelling config = Ok (Some (VDict section)) ->
  (i < 4)%nat ->
  depots_path spelling !! i <> Some k ->
  vdf_at (take i (depots_path spelling) ++ k :: rest)%list
    (VDict (store_steam spelling (VDict (merged_section section supplied)) config))
  = vdf_at (take i (depots_path spelling) ++ k :: rest)%list (VDict config).
Proof.
  intros Hg Hi Hk. destruct (decide (i = 3)%nat) as [->|Hne].
  - change (take 3 (depots_path spelling)) with ["InstallConfigStore"; "Software"; spelling].
    rewrite !vdf_at_app. rewrite (software_get_at _ _ _ Hg).
    destruct (software_get_Some _ _ _ Hg) as (ics & sw & H1 & H2 & H3).
    erewrite software_get_at;
      [|rewrite (software_get_store _ _ _ _ _ _ H1 H2), dict_get_set_eq; reflexivity].
    cbn in Hk |- *. unfold merged_section. rewrite dict_get_set_ne by congruence.
    reflexivity.
  - assert (i < 3)%nat as Hi' by lia.
    replace (take i (depots_path spelling))
      with (take i ["InstallConfigStore"; "Software"; spelling])
      by (destruct i as [|[|[|i]]]; [reflexivity..|lia]).
    apply store_steam_frame; [assumption|].
    destruct i as [|[|[|i]]]; [exact Hk..|lia].
Qed.

Lemma merged_config_depots (spelling : string) (config section supplied : dict vdf) :
  software_get spelling config = Ok (Some (VDict section)) ->
  vdf_at (depots_path spelling)
    (VDict (store_steam spelling (VDict (merged_section section supplied)) config))
  = Some (VDict (dict_update (depots_of section) supplied)).
Proof.
  intros Hg. destruct (software_get_Some _ _ _ Hg) as (ics & sw & H1 & H2 & H3).
  change (depots_path spelling)
    with (["InstallConfigStore"; "Software"; spelling] ++ ["depots"])%list.
  rewrite vdf_at_app.
  erewrite software_get_at;
    [|rewrite (software_get_store _ _ _ _ _ _ H1 H2), dict_get_set_eq; reflexivity].
  cbn. unfold merged_section. rewrite dict_get_set_eq. reflexivity.
Qed.

Lemma files_emit (l : level) (msg : string) (w : world) : files (emit l msg w) = files w.
Proof. reflexivity. Qed.

Section DepotkeyMergeFacts.
Context `{Libs}.

(** What [depotkey_merge] returns and writes, from what it reads. *)
Lemma depotkey_merge_run (self : backend) (depots_config : dict vdf) (w : world)
    (text : string) (config : dict vdf) :
  read_text (config_path self) w = Ok text ->
  vdf_loads text = Some config ->
  exists msg,
    depotkey_merge self depots_config w
    = match merge_config config depots_config with
      | Ok (Some config') =>
          (true, emit INFO msg (write_text (config_path self) (vdf_dumps config') w))
      | _ => (false, emit ERROR msg w)
      end.
Proof.
  intros Hr Hl. unfold depotkey_merge.
  assert (is_Some (files w !! config_path self)) as [f Hf].
  { unfold read_text in Hr. destruct (files w !! config_path self); [eauto|discriminate]. }
  rewrite Hf, Hr. rsimpl. rewrite Hl. cbn [of_option]. rsimpl.
  destruct (merge_config config depots_config) as [[config'|]|e]; eauto.
Qed.

(** A merge that reports failure has written nothing. *)
Lemma depotkey_merge_false (self : backend) (depots_config : dict vdf) (w : world) :
  (depotkey_merge self depots_config w).1 = false ->
  files (depotkey_merge self depots_config w).2 = files w.
Proof.
  unfold depotkey_merge. destruct (files w !! config_path self); [|reflexivity].
  destruct (_ ≫= _) as [[config'|]|e]; [discriminate|reflexivity..].
Qed.

(** The files never shrink. *)
Lemma depotkey_merge_keeps (self : backend) (depots_config : dict vdf) (w : world)
    (p : path) :
  is_Some (files w !! p) -> is_Some (files (depotkey_merge self depots_config w).2 !! p).
Proof.
  intros Hp. unfold depotkey_merge. destruct (files w !! config_path self); [|exact Hp].
  destruct (_ ≫= _) as [[config'|]|e]; [|exact Hp..].
  cbn. destruct (decide (config_path self = p)) as [->|Hne].
  - rewrite lookup_insert_eq. eauto.
  - rewrite lookup_insert_ne by assumption. exact Hp.
Qed.
End DepotkeyMergeFacts.

Section DepotkeyMerge.
Context `{Libs}.

Lemma depotkey_merge_files_only (self : backend) (depots_config : dict vdf) (w w' : world) :
  files w = files w' ->
  (depotkey_merge self depots_config w).1 = (depotkey_merge self depots_config w').1
  /\ files (depotkey_merge self depots_config w).2
     = files (depotkey_merge self depots_config w').2.
Proof.
  intros Hf. unfold depotkey_merge, read_text. rewrite Hf.
  destruct (files w' !! config_path self); [|auto].
  destruct (_ ≫= _) as [[config'|]|e]; cbn; rewrite ?Hf; auto.
Qed.

Lemma depotkey_merge_true (self : backend) (depots_config : dict vdf) (w : world) :
  (depotkey_merge self depots_config w).1 = true ->
  exists text config config',
    read_text (config_path self) w = Ok text
    /\ vdf_loads text = Some config
    /\ merge_config config depots_config = Ok (Some config')
    /\ files (depotkey_merge self depots_config w).2
       = <[config_path self := Text (vdf_dumps config')]> (files w).
Proof.
  unfold depotkey_merge. destruct (files w !! config_path self) eqn:Ef; [|discriminate].
  destruct (read_text (config_path self) w) as [text|] eqn:Er; rsimpl; [|discriminate].
  destruct (vdf_loads text) as [config|] eqn:El; cbn [of_option]; rsimpl; [|discriminate].
  destruct (merge_config config depots_config) as [[config'|]|e] eqn:Em; try discriminate.
  intros _. exists text, config, config'. auto.
Qed.

(** C7. Merging the same depot keys into the configuration file twice: the
    second merge leaves the content of every file as the first merge left
    it, and reports what the first reported.  This is for every state of the
    file system, every section and every mapping, provided the library reads
    back what it wrote for the merged configuration. *)
Theorem depotkey_merge_twice (self : backend) (depots_config : dict vdf) (w : world) :
  (forall text config config',
     read_text (config_path self) w = Ok text ->
     vdf_loads text = Some config ->
     merge_config config depots_config = Ok (Some config') ->
     vdf_loads (vdf_dumps config') = Some config') ->
  let first := depotkey_merge self depots_config w in
  let second := depotkey_merge self depots_config first.2 in
  files second.2 = files first.2 /\ second.1 = first.1.
Proof.
  intros Hround first second. subst second.
  destruct (first.1) eqn:Eb.
  - destruct (depotkey_merge_true _ _ _ Eb) as (text & config & config' & Hr & Hl & Hm & Hf).
    fold first in Hf.
    assert (read_text (config_path self) first.2 = Ok (vdf_dumps config')) as Hr'.
    { unfold read_text. rewrite Hf, lookup_insert_eq. reflexivity. }
    destruct (depotkey_merge_run self depots_config first.2 _ _ Hr'
                (Hround _ _ _ Hr Hl Hm)) as [msg Hrun].
    rewrite (merge_config_idem _ _ _ Hm) in Hrun. rewrite Hrun. cbn.
    rewrite Hf, insert_insert_eq. auto.
  - pose proof (depotkey_merge_false _ _ _ Eb) as Hf. fold first in Hf.
    destruct (depotkey_merge_files_only self depots_config first.2 w Hf) as [H1 H2].
    fold first in H1, H2. rewrite H1, H2, Hf. auto.
Qed.

(** The section the merge works on, read off the configuration: what lies
    under [Valve] when that is a non-empty map, and otherwise, when
    [Valve] is absent or empty, what lies under [valve]. *)
Lemma find_steam_found (config : dict vdf) (spelling : string) (section : dict vdf) :
  vdf_at ["InstallConfigStore"; "Software"; spelling] (VDict config) = Some (VDict section) ->
  section <> [] ->
  spelling = "Valve"
  \/ (spelling = "valve"
      /\ forall v, vdf_at ["InstallConfigStore"; "Software"; "Valve"] (VDict config) = Some v ->
                   v = VDict [] \/ v = VStr EmptyString) ->
  find_steam config = Ok (Some (spelling, VDict section)).
Proof.
  intros Hat Hne Hsp. cbn in Hat.
  destruct (dict_get "InstallConfigStore" config) as [[?|ics]|] eqn:E1; try discriminate.
  cbn in Hat.
  destruct (dict_get "Software" ics) as [[?|sw]|] eqn:E2; try discriminate.
  cbn in Hat.
  destruct (dict_get spelling sw) as [v|] eqn:E3; [|discriminate]. cbn in Hat.
  injection Hat as ->.
  assert (truthy (VDict section) = true) as Htrue
    by (destruct section; [contradiction|reflexivity]).
  unfold find_steam. rewrite !(software_get_of_path _ _ _ _ E1 E2). rsimpl.
  destruct Hsp as [->|[-> Hupper]].
  - rewrite E3, Htrue. reflexivity.
  - rewrite E3. cbn [fmap result_fmap option_map].
    destruct (dict_get "Valve" sw) as [v|] eqn:Ev; [|reflexivity].
    destruct (Hupper v) as [->| ->]; [|reflexivity..].
    cbn. rewrite E1. cbn. rewrite E2. cbn. rewrite Ev. reflexivity.
Qed.

(** Neither spelling: nothing is found. *)
Lemma merge_config_not_found (config depots_config : dict vdf) (config' : dict vdf) :
  vdf_at ["InstallConfigStore"; "Software"; "Valve"] (VDict config) = None ->
  vdf_at ["InstallConfigStore"; "Software"; "valve"] (VDict config) = None ->
  merge_config config depots_config <> Ok (Some config').
Proof.
  intros Hu Hl. unfold merge_config.
  destruct (find_steam config) as [[[spelling s]|]|e] eqn:Ef; rsimpl; try discriminate.
  destruct (find_steam_spelling _ _ _ Ef) as [[-> | ->] Hg];
    apply software_get_at in Hg; congruence.
Qed.

(** C3 (as amended). When what lies under [Valve] of
    [InstallConfigStore/Software], or under [valve] when [Valve] is absent
    or empty, is a non-empty map whose [depots] entry, if any, is a map,
    [depotkey_merge] finds it under that spelling, succeeds and writes the
    configuration in which the depots map is the old one updated with the
    supplied one: depots that are not supplied keep their values, supplied
    ones are present, and every value off the path to the depots map is as
    before.  When neither spelling is present it returns [False] and
    writes nothing. *)
Theorem depotkey_merge_spec (self : backend) (supplied : dict vdf) (w : world)
    (text : string) (config : dict vdf) :
  read_text (config_path self) w = Ok text ->
  vdf_loads text = Some config ->
  (forall spelling section,
     vdf_at ["InstallConfigStore"; "Software"; spelling] (VDict config)
     = Some (VDict section) ->
     section <> [] ->
     spelling = "Valve"
     \/ (spelling = "valve"
         /\ forall v,
              vdf_at ["InstallConfigStore"; "Software"; "Valve"] (VDict config) = Some v ->
              v = VDict [] \/ v = VStr EmptyString) ->
     (forall s, dict_get "depots" section <> Some (VStr s)) ->
     exists config' msg,
       depotkey_merge self [("depots", VDict supplied)] w
       = (true, emit INFO msg (write_text (config_path self) (vdf_dumps config') w))
       /\ vdf_at (depots_path spelling) (VDict config')
          = Some (VDict (dict_update (depots_of section) supplied))
       /\ (forall id, id ∉ dict_keys supplied ->
             dict_get id (dict_update (depots_of section) supplied)
             = dict_get id (depots_of section))
       /\ (forall id, id ∈ dict_keys supplied ->
             exists v, dict_get id (dict_update (depots_of section) supplied) = Some v
                       /\ (id, v) ∈ supplied)
       /\ (forall i k rest,
             (i < 4)%nat -> depots_path spelling !! i <> Some k ->
             vdf_at (take i (depots_path spelling) ++ k :: rest)%list (VDict config')
             = vdf_at (take i (depots_path spelling) ++ k :: rest)%list (VDict config)))
  /\ (vdf_at ["InstallConfigStore"; "Software"; "Valve"] (VDict config) = None ->
      vdf_at ["InstallConfigStore"; "Software"; "valve"] (VDict config) = None ->
      exists msg,
        depotkey_merge self [("depots", VDict supplied)] w = (false, emit ERROR msg w)
        /\ files (emit ERROR msg w) = files w).
Proof.
  intros Hr Hl.
  destruct (depotkey_merge_run self [("depots", VDict supplied)] w _ _ Hr Hl) as [msg Hrun].
  split.
  - intros spelling section Hat Hne Hsp Hd.
    pose proof (find_steam_found _ _ _ Hat Hne Hsp) as Hf.
    rewrite (merge_config_found _ _ supplied _ Hf Hne Hd) in Hrun.
    destruct (find_steam_spelling _ _ _ Hf) as [_ Hg].
    eexists _, msg. split; [exact Hrun|].
    split; [apply merged_config_depots, Hg|].
    split; [intros id Hid; apply dict_get_update_kept, Hid|].
    split; [intros id Hid; apply dict_get_update_supplied, Hid|].
    intros i k rest Hi Hk. apply merged_config_frame; assumption.
  - intros Hu Hlo. exists msg. split; [|reflexivity].
    pose proof (merge_config_not_found config [("depots", VDict supplied)]) as Hnot.
    destruct (merge_config config [("depots", VDict supplied)]) as [[config'|]|e];
      [exfalso; exact (Hnot config' Hu Hlo eq_refl)|exact Hrun..].
Qed.
End DepotkeyMerge.

(** C3, witness: the sample configuration whose [Valve] section holds one
    depot and one unrelated setting, and the one whose section is spelled
    [valve] and holds no depot yet. *)
Lemma depotkey_merge_spec_witness :
  (depotkey_merge (H:=sample_libs) gl_backend sample_keys (world_with_config config_valve)).1
  = true
  /\ (depotkey_merge (H:=sample_libs) gl_backend sample_keys
        (world_with_config config_lower)).1 = true.
Proof.
  destruct (depotkey_merge_spec (H:=sample_libs) gl_backend
              [("228981", VDict [("DecryptionKey", VStr "00ff")])]
              (world_with_config config_valve) (sample_dumps config_valve) config_valve)
    as [Hupper _]; [vm_compute; reflexivity..|].
  destruct (Hupper "Valve"
              [("depots", VDict [("228982", VDict [("DecryptionKey", VStr "aa11")])]);
               ("AutoUpdateWindowEnabled", VStr "0")])
    as (config1 & msg1 & Hrun1 & _);
    [reflexivity | discriminate | left; reflexivity | intros s; vm_compute; discriminate |].
  destruct (depotkey_merge_spec (H:=sample_libs) gl_backend
              [("228981", VDict [("DecryptionKey", VStr "00ff")])]
              (world_with_config config_lower) (sample_dumps config_lower) config_lower)
    as [Hlower _]; [vm_compute; reflexivity..|].
  destruct (Hlower "valve" [("AutoUpdateWindowEnabled", VStr "0")])
    as (config2 & msg2 & Hrun2 & _);
    [reflexivity | discriminate | right; split; [reflexivity|intros v; discriminate]
    | intros s; vm_compute; discriminate |].
  unfold sample_keys. rewrite Hrun1, Hrun2. split; reflexivity.
Defined.

(** C3, counterexample to the claim as first stated: the [Valve] section is
    present, and empty; nothing is merged and the merge reports failure. *)
Lemma depotkey_merge_empty_section :
  software_get "Valve" config_empty_section = Ok (Some (VDict []))
  /\ merge_config config_empty_section sample_keys = Ok None
  /\ (depotkey_merge (H:=sample_libs) gl_backend sample_keys
        (world_with_config config_empty_section)).1 = false.
Proof. vm_compute. auto. Qed.

(** C7, witness: the sample configuration merged twice. *)
Lemma depotkey_merge_twice_witness :
  let first := depotkey_merge (H:=sample_libs) gl_backend sample_keys
                 (world_with_config config_valve) in
  files (depotkey_merge (H:=sample_libs) gl_backend sample_keys first.2).2 = files first.2.
Proof.
  intros first.
  apply (depotkey_merge_twice (H:=sample_libs) gl_backend sample_keys
           (world_with_config config_valve)).
  intros text config config' Hr Hl Hm.
  assert (text = sample_dumps config_valve) as -> by (vm_compute in Hr; inversion Hr; reflexivity).
  assert (config = config_valve) as -> by (vm_compute in Hl; inversion Hl; reflexivity).
  assert (config' = config_valve_merged) as -> by (vm_compute in Hm; inversion Hm; reflexivity).
  vm_compute. reflexivity.
Defined.

(** ** Decoding an ST file *)

Section ParseStFile.
Context `{Libs}.

Lemma parse_st_file_read (dir : dict file) (st_file_path : string) (content : list byte) :
  dict_get st_file_path dir = Some (Binary content) ->
  parse_st_file dir st_file_path = parse_st_bytes content.
Proof. intros Hd. unfold parse_st_file, read_bytes_in. rewrite Hd. reflexivity. Qed.

(** C2. For a file of at least 12 bytes whose declared payload is present
    and inflates, the text [parse_st_file] returns is the UTF-8 decoding of
    what follows the first 512 inflated bytes, where the inflated bytes come
    from the [payloadSize] bytes after the header, each XOR-ed with the
    one-byte key [(xorKey XOR 0xFFFEA4C8) AND 0xFF], and the header is the
    little-endian triple [(xorKey, payloadSize, reserved)].  The XOR is
    exact on every byte. *)
Theorem parse_st_file_decodes (dir : dict file) (st_file_path : string)
    (content inflated : list byte) :
  dict_get st_file_path dir = Some (Binary content) ->
  12 <= len content ->
  (st_header content).1.2 <= len content - 12 ->
  zlib_decompress
    (xor_bytes (st_key (st_header content).1.1)
       (st_payload content (st_header content).1.2)) = Some inflated ->
  fst <$> parse_st_file dir st_file_path
  = of_option UnicodeDecodeError (utf8_decode (drop 512 inflated))
  /\ map byte_val
       (xor_bytes (st_key (st_header content).1.1)
          (st_payload content (st_header content).1.2))
     = map (fun b => Z.lxor (byte_val b) (st_key (st_header content).1.1))
         (st_payload content (st_header content).1.2).
Proof.
  intros Hd Hlen Hsize Hz. split.
  - rewrite (parse_st_file_read _ _ _ Hd).
    pose proof (parse_st_bytes_checked content Hlen Hsize) as Hp.
    destruct (st_header content) as [[xorKey payloadSize] reserved].
    cbn [fst snd] in Hz. rewrite Hp, Hz. cbn [of_option]. rsimpl.
    destruct (utf8_decode (drop 512 inflated)); reflexivity.
  - apply xor_bytes_exact, st_key_range.
Qed.

(** C6 (as amended). A header shorter than 12 bytes, a payload shorter than
    the header declares, and a payload that does not inflate each make
    [parse_st_file] raise ([ValueError] for the first two, [zlib.error] for
    the third).  The loop over the ST files catches whatever it raises: the
    staging directory and the list of scripts stay as they were, no file
    is written, two errors are logged, and the installation goes on with
    the files that remain. *)
Theorem parse_st_file_malformed (dir : dict file) (st_file : string) (content : list byte) :
  dict_get st_file dir = Some (Binary content) ->
  (len content < 12 ->
   parse_st_file dir st_file = Raise (ValueError "文件头长度不足"))
  /\ (12 <= len content -> len content - 12 < (st_header content).1.2 ->
      parse_st_file dir st_file = Raise (ValueError "数据长度不足"))
  /\ (12 <= len content -> (st_header content).1.2 <= len content - 12 ->
      zlib_decompress
        (xor_bytes (st_key (st_header content).1.1)
           (st_payload content (st_header content).1.2)) = None ->
      parse_st_file dir st_file = Raise ZlibError)
  /\ (forall e lua_files rest w,
        parse_st_file dir st_file = Raise e ->
        exists msg1 msg2,
          convert_st st_file (dir, lua_files) w
          = ((dir, lua_files), emit ERROR msg2 (emit ERROR msg1 w))
          /\ files (emit ERROR msg2 (emit ERROR msg1 w)) = files w
          /\ convert_all (st_file :: rest) (dir, lua_files) w
             = convert_all rest (dir, lua_files) (emit ERROR msg2 (emit ERROR msg1 w))).
Proof.
  intros Hd. rewrite (parse_st_file_read _ _ _ Hd).
  split; [apply parse_st_bytes_short_header|].
  split; [apply parse_st_bytes_short_payload|].
  split; [apply parse_st_bytes_bad_stream|].
  intros e lua_files rest w He.
  rewrite <- (parse_st_file_read _ _ _ Hd) in He.
  destruct (convert_st_contains dir lua_files st_file e w He) as (msg1 & msg2 & Hc).
  exists msg1, msg2. split; [exact Hc|]. split; [reflexivity|].
  cbn [convert_all]. rewrite Hc. reflexivity.
Qed.
End ParseStFile.

(** C2, witness: a real ST file, whose script is one line. *)
Lemma parse_st_file_decodes_witness :
  fst <$> parse_st_file (H:=sample_libs) st_sample_dir "480.st"
  = Ok ("addappid(480)" +:+ nl).
Proof.
  destruct (parse_st_file_decodes (H:=sample_libs) st_sample_dir "480.st" st_sample
              (replicate 512 x00 ++ hex "616464617070696428343830290a")%list)
    as [Hd _].
  - reflexivity.
  - vm_compute. discriminate.
  - vm_compute. discriminate.
  - vm_compute. reflexivity.
  - rewrite Hd. vm_compute. reflexivity.
Defined.

(** C6, witness: the three-byte file of the sample archive. *)
Lemma parse_st_file_malformed_witness :
  parse_st_file (H:=sample_libs) [("broken.st", Binary (hex "000102"))] "broken.st"
  = Raise (ValueError "文件头长度不足").
Proof.
  destruct (parse_st_file_malformed (H:=sample_libs)
              [("broken.st", Binary (hex "000102"))] "broken.st" (hex "000102"))
    as [Hshort _].
  - reflexivity.
  - apply Hshort. vm_compute. reflexivity.
Defined.

(** C6, counterexample to the claim as first stated: the archive holds a
    manifest and an ST file that cannot be decoded.  The failure is logged
    and the source is reported as a success, not as a failure. *)
Lemma malformed_st_source_succeeds :
  parse_st_file (H:=sample_libs) [("broken.st", Binary (hex "000102"))] "broken.st"
  = Raise (ValueError "文件头长度不足")
  /\ (process_zip_based_manifest (H:=sample_libs) st_backend "228980"
        "https://api.printedwaste.com/gfk/download/228980" "SWA V2" world_broken_st).1
     = true.
Proof. vm_compute. auto. Qed.

(** ** Installing from an archive *)

Lemma grows_refl (w : world) : grows w w.
Proof. intros p Hp. exact Hp. Qed.

Lemma grows_trans (w1 w2 w3 : world) : grows w1 w2 -> grows w2 w3 -> grows w1 w3.
Proof. intros H12 H23 p Hp. auto. Qed.

Lemma grows_same_files (w w' : world) : files w' = files w -> grows w w'.
Proof. intros Hf p Hp. rewrite Hf. exact Hp. Qed.

Lemma grows_insert (w : world) (p : path) (f : file) : grows w (set_files (insert p f) w).
Proof.
  intros q Hq. cbn. destruct (decide (p = q)) as [->|Hne].
  - rewrite lookup_insert_eq. eauto.
  - rewrite lookup_insert_ne by assumption. exact Hq.
Qed.

Lemma untouched_refl (p : path) (w : world) : untouched p w w.
Proof. reflexivity. Qed.

Lemma untouched_trans (p : path) (w1 w2 w3 : world) :
  untouched p w1 w2 -> untouched p w2 w3 -> untouched p w1 w3.
Proof. unfold untouched. congruence. Qed.

Lemma untouched_insert (p q : path) (f : file) (w : world) :
  q <> p -> untouched p w (set_files (insert q f) w).
Proof. intros Hne. unfold untouched. cbn. apply lookup_insert_ne, Hne. Qed.

Lemma glob_in_dir (ext : string) (dir : dict file) : glob ext dir ⊆ dict_keys dir.
Proof.
  intros x Hx. unfold glob in Hx. apply list_elem_of_In, filter_In in Hx as [Hx _].
  apply list_elem_of_In, Hx.
Qed.

Section ArchiveFacts.
Context `{Libs}.

Lemma convert_st_fst (st_file : string) (acc : dict file * list string) (w w' : world) :
  (convert_st st_file acc w).1 = (convert_st st_file acc w').1.
Proof.
  unfold convert_st, convert_file. destruct acc as [dir lua_files].
  destruct (parse_st_file dir st_file) as [[content ?]|e]; reflexivity.
Qed.

Lemma convert_st_files (st_file : string) (acc : dict file * list string) (w : world) :
  files (convert_st st_file acc w).2 = files w.
Proof.
  unfold convert_st, convert_file. destruct acc as [dir lua_files].
  destruct (parse_st_file dir st_file) as [[content ?]|e]; reflexivity.
Qed.

Lemma convert_st_keys (st_file : string) (acc : dict file * list string) (w : world) :
  dict_keys acc.1 ⊆ dict_keys (convert_st st_file acc w).1.1.
Proof.
  unfold convert_st, convert_file. destruct acc as [dir lua_files].
  destruct (parse_st_file dir st_file) as [[content ?]|e]; cbn.
  - apply dict_keys_set_subseteq.
  - reflexivity.
Qed.

Lemma convert_all_fst (st_files : list string) (acc : dict file * list string) (w w' : world) :
  (convert_all st_files acc w).1 = (convert_all st_files acc w').1.
Proof.
  revert acc w w'. induction st_files as [|st_file rest IH]; intros acc w w'; [reflexivity|].
  cbn [convert_all]. pose proof (convert_st_fst st_file acc w w') as Hst.
  destruct (convert_st st_file acc w) as [acc1 w1], (convert_st st_file acc w') as [acc2 w2].
  cbn in Hst. subst acc2. apply IH.
Qed.

Lemma convert_all_files (st_files : list string) (acc : dict file * list string) (w : world) :
  files (convert_all st_files acc w).2 = files w.
Proof.
  revert acc w. induction st_files as [|st_file rest IH]; intros acc w; [reflexivity|].
  cbn [convert_all]. pose proof (convert_st_files st_file acc w) as Hst.
  destruct (convert_st st_file acc w) as [acc1 w1]. cbn in Hst. rewrite IH. exact Hst.
Qed.

Lemma convert_all_keys (st_files : list string) (acc : dict file * list string) (w : world) :
  dict_keys acc.1 ⊆ dict_keys (convert_all st_files acc w).1.1.
Proof.
  revert acc w. induction st_files as [|st_file rest IH]; intros acc w; [reflexivity|].
  cbn [convert_all]. pose proof (convert_st_keys st_file acc w) as Hst.
  destruct (convert_st st_file acc w) as [acc1 w1]. cbn in Hst.
  etransitivity; [exact Hst|apply IH].
Qed.

(** Copying files that are in the staging directory does not raise; the
    copies are there afterwards, no file is lost, and nothing outside the
    target directory changes. *)
Lemma copy_all (dir : dict file) (names : list string) (target : path) (w : world) :
  names ⊆ dict_keys dir ->
  exists w',
    for_each names (fun f => copy2 dir f target) w = (Ok tt, w')
    /\ grows w w'
    /\ (forall f, f ∈ names -> is_Some (files w' !! (target ++ [f])%list))
    /\ (forall p, (forall f, p <> (target ++ [f])%list) -> untouched p w w')
    /\ log w' = log w.
Proof.
  revert w. induction names as [|name names IH]; intros w Hsub.
  - exists w. split; [reflexivity|]. split; [apply grows_refl|].
    split; [intros f Hf; apply elem_of_nil in Hf; contradiction|].
    split; [intros; apply untouched_refl|reflexivity].
  - assert (name ∈ dict_keys dir) as Hname by (apply Hsub, list_elem_of_here).
    apply dict_keys_get in Hname as [content Hc].
    destruct (IH (set_files (insert (target ++ [name])%list content) w))
      as (w' & Hrun & Hg & Hin & Hout & Hlog).
    { intros x Hx. apply Hsub, list_elem_of_further, Hx. }
    exists w'. split.
    { cbn [for_each]. unfold mbind, act_mbind, act_bind, copy2 at 1. rewrite Hc.
      exact Hrun. }
    split; [eapply grows_trans; [apply grows_insert|exact Hg]|].
    split.
    { intros f [->|Hf]%elem_of_cons; [|auto].
      apply Hg. cbn. rewrite lookup_insert_eq. eauto. }
    split; [|exact Hlog].
    intros p Hp. eapply untouched_trans; [|apply Hout, Hp].
    apply untouched_insert. intros Heq. exact (Hp name (eq_sym Heq)).
Qed.

Lemma flag_files_written (self : backend) (ids : list string) (w : world) :
  let w' := fold_left
              (fun w appid =>
                 write_text ((steam_path self ++ ["AppList"]) ++ [appid +:+ ".txt"])%list
                   appid w) ids w in
  grows w w'
  /\ (forall id, id ∈ ids ->
        is_Some (files w' !! (steam_path self ++ ["AppList"; id +:+ ".txt"])%list))
  /\ (forall p, (forall id, p <> (steam_path self ++ ["AppList"; id +:+ ".txt"])%list) ->
        untouched p w w').
Proof.
  assert (forall (a : list string) (b c : string), ((a ++ [b]) ++ [c] = a ++ [b; c])%list)
    as Hassoc by (intros; rewrite <- app_assoc; reflexivity).
  revert w. induction ids as [|id ids IH]; intros w; cbn zeta.
  - split; [apply grows_refl|]. split; [|intros; apply untouched_refl].
    intros id Hid. apply elem_of_nil in Hid. contradiction.
  - cbn [fold_left].
    destruct (IH (write_text ((steam_path self ++ ["AppList"]) ++ [id +:+ ".txt"])%list id w))
      as (Hg & Hin & Hout).
    split; [eapply grows_trans; [apply grows_insert|exact Hg]|]. split.
    + intros id' [->|Hid']%elem_of_cons; [|auto].
      apply Hg. cbn. rewrite Hassoc, lookup_insert_eq. eauto.
    + intros p Hp. eapply untouched_trans; [|apply Hout, Hp].
      apply untouched_insert. rewrite Hassoc. intros Heq. exact (Hp id (eq_sym Heq)).
Qed.

Lemma greenluma_add_run (self : backend) (ids : list string) (w : world) :
  (greenluma_add self ids w).1 = true
  /\ grows w (greenluma_add self ids w).2
  /\ (forall id, id ∈ ids ->
        is_Some (files (greenluma_add self ids w).2
                 !! (steam_path self ++ ["AppList"; id +:+ ".txt"])%list))
  /\ (forall p, (forall id, p <> (steam_path self ++ ["AppList"; id +:+ ".txt"])%list) ->
        untouched p w (greenluma_add self ids w).2).
Proof.
  split; [reflexivity|].
  exact (flag_files_written self ids (mkdir (steam_path self ++ ["AppList"])%list w)).
Qed.
End ArchiveFacts.

(** *** Running actions *)

Lemma act_bind_run {A B} (m : act A) (k : A -> act B) (w w' : world) (a : A) :
  m w = (Ok a, w') -> (m ≫= k) w = k a w'.
Proof. intros Hm. unfold mbind, act_mbind, act_bind. rewrite Hm. reflexivity. Qed.

Lemma act_bind_raise {A B} (m : act A) (k : A -> act B) (w w' : world) (e : exn) :
  m w = (Raise e, w') -> (m ≫= k) w = (Raise e, w').
Proof. intros Hm. unfold mbind, act_mbind, act_bind. rewrite Hm. reflexivity. Qed.

Lemma act_bind_logger {B} (l : level) (msg : string) (k : unit -> act B) (w : world) :
  (logger l msg ≫= k) w = k tt (emit l msg w).
Proof. reflexivity. Qed.

Lemma act_bind_call {A B} (f : world -> A * world) (k : A -> act B) (w : world) :
  (call f ≫= k) w = k (f w).1 (f w).2.
Proof.
  unfold mbind, act_mbind, act_bind, call. destruct (f w) as [a w']. reflexivity.
Qed.

Lemma act_bind_assoc {A B C} (m : act A) (f : A -> act B) (g : B -> act C) (w : world) :
  ((m ≫= f) ≫= g) w = (m ≫= fun a => f a ≫= g) w.
Proof.
  unfold mbind, act_mbind, act_bind. destruct (m w) as [[a|e] w']; reflexivity.
Qed.

Lemma act_bind_lift {A B} (a : A) (k : A -> act B) (w : world) :
  (lift (Ok a) ≫= k) w = k a w.
Proof. reflexivity. Qed.

Lemma act_bind_modify {B} (f : world -> world) (k : unit -> act B) (w : world) :
  (modify f ≫= k) w = k tt (f w).
Proof. reflexivity. Qed.

(** ** Resolving a paid title over the ordered sources *)

Section PaidResolution.
Context `{Libs}.
Variable github : backend -> string -> string -> act bool.

(** One turn of the loop is one attempt. *)
Lemma try_repos_cons (self : backend) (dlc_id repo_value : string)
    (rest : list string) (w : world) :
  try_repos github self dlc_id (repo_value :: rest) w
  = if (attempt github self dlc_id repo_value w).1
    then (true, (attempt github self dlc_id repo_value w).2)
    else try_repos github self dlc_id rest (attempt github self dlc_id repo_value w).2.
Proof.
  cbn [try_repos]. unfold attempt.
  destruct (fetch_dlc _ _ _ _ _) as [[[|]|e] w']; reflexivity.
Qed.

(** The loop performs an ordered fallback. *)
Lemma try_repos_fallback (self : backend) (dlc_id : string) (repos : list string)
    (w : world) :
  exists tried winner,
    ordered_fallback github self dlc_id repos w tried winner (try_repos github self dlc_id repos w).2
    /\ (try_repos github self dlc_id repos w).1 = bool_decide (is_Some winner).
Proof.
  revert w. induction repos as [|repo rest IH]; intros w.
  - exists [], None. split; [constructor|reflexivity].
  - rewrite try_repos_cons. destruct (attempt github self dlc_id repo w) as [[|] w'] eqn:Ea.
    + exists [repo], (Some repo). split; [apply fallback_hit, Ea|reflexivity].
    + destruct (IH w') as (tried & winner & Hf & Hb). cbn [fst snd].
      exists (repo :: tried), winner. split; [eapply fallback_miss; eassumption|exact Hb].
Qed.

(** An ordered fallback tries a prefix of the sources, in their order;
    with a winner the prefix ends with it, without one it is the whole
    list. *)
Lemma ordered_fallback_prefix (self : backend) (dlc_id : string)
    (repos tried : list string) (winner : option string) (w w' : world) :
  ordered_fallback github self dlc_id repos w tried winner w' ->
  (exists untried, repos = (tried ++ untried)%list)
  /\ match winner with
     | Some r => exists before, tried = (before ++ [r])%list
     | None => tried = repos
     end.
Proof.
  induction 1 as [w|source rest w w' Ha|source rest tried winner w w' w'' Ha Hrest IH].
  - split; [exists []; reflexivity|reflexivity].
  - split; [exists rest; reflexivity|exists []; reflexivity].
  - destruct IH as [[untried ->] Hw]. split; [exists untried; reflexivity|].
    destruct winner as [r|].
    + destruct Hw as [before ->]. exists (source :: before). reflexivity.
    + rewrite Hw at 1. reflexivity.
Qed.

(** An ordered fallback is determined by the sources and the world. *)
Lemma ordered_fallback_det (self : backend) (dlc_id : string) (repos : list string)
    (w : world) (tried1 tried2 : list string) (winner1 winner2 : option string)
    (w1 w2 : world) :
  ordered_fallback github self dlc_id repos w tried1 winner1 w1 ->
  ordered_fallback github self dlc_id repos w tried2 winner2 w2 ->
  tried1 = tried2 /\ winner1 = winner2 /\ w1 = w2.
Proof.
  intros H1. revert tried2 winner2 w2.
  induction H1 as [w|source rest w w' Ha|source rest tried winner w w' w'' Ha Hrest IH];
    intros tried2 winner2 w2 H2;
    inversion H2 as [|? ? ? ? Ha2|? ? ? ? ? u ? Ha2 Hrest2]; subst.
  - auto.
  - rewrite Ha in Ha2. simplify_eq. auto.
  - rewrite Ha in Ha2. discriminate.
  - rewrite Ha in Ha2. discriminate.
  - rewrite Ha in Ha2. simplify_eq.
    destruct (IH _ _ _ Hrest2) as (-> & -> & ->). auto.
Qed.
Lemma resolve_paid_run (self : backend) (selected_repos : list string) (dlc : dlc_info)
    (result : dlcs_result) (w : world) :
  resolve_paid github self selected_repos (result, w) dlc
  = if (try_repos github self (appid dlc) selected_repos w).1
    then (add_success dlc result, (try_repos github self (appid dlc) selected_repos w).2)
    else (add_failed dlc result,
          emit WARNING ("无法从任何源获取DLC " +:+ appid dlc +:+ " 的密钥")
            (try_repos github self (appid dlc) selected_repos w).2).
Proof.
  unfold resolve_paid. destruct (try_repos _ _ _ _ _) as [[|] w']; reflexivity.
Qed.

(** C1. For every title and every ordered list of sources, the loop of
    [process_dlcs] over the sources is an ordered fallback: it tries a
    prefix of the list, in the order given; if a source yields the title,
    the prefix ends with that source, nothing after it is tried, and the
    title goes to the success list; the title goes to the failed list
    only when the whole list has been tried and every source has missed.
    In particular, with sources [A; B; C] where [A] misses and [B] hits,
    the sources tried are [A; B], the world is the one the attempt at [B]
    left, and the title is a success. *)
Theorem paid_resolution_ordered (self : backend) (selected_repos : list string)
    (dlc : dlc_info) (result : dlcs_result) (w : world) :
  (exists tried winner w',
     ordered_fallback github self (appid dlc) selected_repos w tried winner w'
     /\ (exists untried, selected_repos = (tried ++ untried)%list)
     /\ match winner with
        | Some r =>
            (exists before, tried = (before ++ [r])%list)
            /\ resolve_paid github self selected_repos (result, w) dlc
               = (add_success dlc result, w')
        | None =>
            tried = selected_repos
            /\ exists msg,
                 resolve_paid github self selected_repos (result, w) dlc
                 = (add_failed dlc result, emit WARNING msg w')
        end)
  /\ (forall A B C w1 w2,
        attempt github self (appid dlc) A w = (false, w1) ->
        attempt github self (appid dlc) B w1 = (true, w2) ->
        ordered_fallback github self (appid dlc) [A; B; C] w [A; B] (Some B) w2
        /\ resolve_paid github self [A; B; C] (result, w) dlc = (add_success dlc result, w2)).
Proof.
  split.
  - destruct (try_repos_fallback self (appid dlc) selected_repos w)
      as (tried & winner & Hf & Hb).
    destruct (ordered_fallback_prefix _ _ _ _ _ _ _ Hf) as [Hpre Hw].
    exists tried, winner, (try_repos github self (appid dlc) selected_repos w).2.
    split; [exact Hf|]. split; [exact Hpre|].
    rewrite resolve_paid_run, Hb. destruct winner as [r|]; cbn; eauto.
  - intros A B C w1 w2 HA HB.
    assert (ordered_fallback github self (appid dlc) [A; B; C] w [A; B] (Some B) w2) as Hf
      by (eapply fallback_miss; [exact HA|]; apply fallback_hit, HB).
    split; [exact Hf|].
    destruct (try_repos_fallback self (appid dlc) [A; B; C] w)
      as (tried & winner & Hf' & Hb).
    destruct (ordered_fallback_det _ _ _ _ _ _ _ _ _ _ Hf Hf') as (_ & Hw & Hw2).
    rewrite resolve_paid_run, Hb, <- Hw, <- Hw2. reflexivity.
Qed.
End PaidResolution.

(** C1, witness: the sources are the archive hosts [swa], [cysaw] and
    [furcate]; the first cannot be reached, the second has the archive.
    The title is a success and the third host is never asked. *)
Lemma paid_resolution_ordered_witness :
  let out := resolve_paid (H:=sample_libs) no_github gl_backend ["swa"; "cysaw"; "furcate"]
               ({| success := []; failed := []; result_total := 1 |}, world_with_key)
               sample_dlc in
  success out.1 = [sample_dlc] /\ failed out.1 = []
  /\ requests out.2
     = [Sent "https://api.printedwaste.com/gfk/download/228980";
        Received "https://api.printedwaste.com/gfk/download/228980";
        Sent "https://cysaw.top/uploads/228980.zip";
        Received "https://cysaw.top/uploads/228980.zip"].
Proof.
  intros out.
  destruct (paid_resolution_ordered (H:=sample_libs) no_github gl_backend
              ["swa"; "cysaw"; "furcate"] sample_dlc
              {| success := []; failed := []; result_total := 1 |} world_with_key)
    as [_ HABC].
  destruct (HABC "swa" "cysaw" "furcate"
              (attempt (H:=sample_libs) no_github gl_backend "228980" "swa" world_with_key).2
              (attempt (H:=sample_libs) no_github gl_backend "228980" "cysaw"
                 (attempt (H:=sample_libs) no_github gl_backend "228980" "swa"
                    world_with_key).2).2)
    as [_ Hrun]; [vm_compute; reflexivity..|].
  subst out. rewrite Hrun. vm_compute. auto.
Defined.

(** ** Classifying the candidates in batches *)

Lemma slice_take_drop {A} (l : list A) (lo hi : Z) :
  0 <= lo <= hi ->
  slice l lo hi = take (Z.to_nat (hi - lo)) (drop (Z.to_nat lo) l).
Proof. intros Hr. unfold slice. f_equal. lia. Qed.

Lemma counting_up_app (from n m total : Z) :
  0 <= n -> 0 <= m ->
  counting_up from (n + m) total
  = (counting_up from n total ++ counting_up (from + n) m total)%list.
Proof.
  intros Hn Hm. unfold counting_up. rewrite seqZ_app by assumption. apply fmap_app.
Qed.

Section Classifying.
Variable get_dlc_ids : string -> result (list string).
Variable get_game_name : string -> string.
Variable analyze_single_dlc : string -> result dlc_info.

(** The loop over the answers of one batch. *)
Lemma classify_results_run (progress_callback : bool) (total : Z)
    (results : list (result dlc_info)) (st : classifying) (w : world) :
  exists st' w',
    fold_left (classify_result progress_callback total) results (st, w) = (st', w')
    /\ processed_count st' = processed_count st + len results
    /\ progress st'
       = (progress st ++
          if progress_callback
          then counting_up (processed_count st + 1) (len results) total else [])%list
    /\ free_dlcs st' = (free_dlcs st ++ omap free_of results)%list
    /\ paid_dlcs st' = (paid_dlcs st ++ omap paid_of results)%list
    /\ gathered st' = gathered st
    /\ sleeps st' = sleeps st
    /\ List.filter is_error (log w')
       = (List.filter is_error (log w)
          ++ map (fun e => (ERROR, "分析DLC时出错: " +:+ exn_str e)) (omap error_of results))%list
    /\ files w' = files w.
Proof.
  revert st w. induction results as [|r results IH]; intros st w.
  - exists st, w. unfold len, counting_up. cbn.
    rewrite !app_nil_r, Z.add_0_r. destruct progress_callback; rewrite ?app_nil_r; auto 10.
  - cbn [fold_left].
    destruct (classify_result progress_callback total (st, w) r) as [st1 w1] eqn:E1.
    destruct (IH st1 w1) as (st' & w' & Hrun & Hpc & Hpr & Hfr & Hpa & Hga & Hsl & Hlog & Hfi).
    exists st', w'. split; [exact Hrun|].
    assert (len (r :: results) = 1 + len results) as Hlen by (unfold len; cbn; lia).
    unfold classify_result in E1.
    assert (processed_count st1 = processed_count st + 1
            /\ progress st1
               = (progress st ++
                  if progress_callback then [(processed_count st + 1, total)] else [])%list
            /\ free_dlcs st1 = (free_dlcs st ++ from_option (fun x => [x]) [] (free_of r))%list
            /\ paid_dlcs st1 = (paid_dlcs st ++ from_option (fun x => [x]) [] (paid_of r))%list
            /\ gathered st1 = gathered st /\ sleeps st1 = sleeps st
            /\ List.filter is_error (log w1)
               = (List.filter is_error (log w)
                  ++ map (fun e => (ERROR, "分析DLC时出错: " +:+ exn_str e))
                       (from_option (fun x => [x]) [] (error_of r)))%list
            /\ files w1 = files w) as (H1 & H2 & H3 & H4 & H5 & H6 & H7 & H8).
    { destruct r as [info|e]; simplify_eq; cbn.
      - destruct (has_depots info), progress_callback; cbn; rewrite ?app_nil_r; auto 10.
      - rewrite List.filter_app. destruct progress_callback; cbn; rewrite ?app_nil_r; auto 10. }
    rewrite Hpc, Hpr, Hfr, Hpa, Hga, Hsl, Hlog, Hfi, H1, H2, H3, H4, H5, H6, H7, H8, Hlen.
    split; [lia|]. split.
    { rewrite <- app_assoc. f_equal. destruct progress_callback; [|reflexivity].
      rewrite (counting_up_app _ 1 (len results)) by (pose proof (len_nonneg results); lia).
      reflexivity. }
    split; [rewrite <- app_assoc; f_equal; destruct r as [info|e]; cbn;
            [destruct (has_depots info)|]; reflexivity|].
    split; [rewrite <- app_assoc; f_equal; destruct r as [info|e]; cbn;
            [destruct (has_depots info)|]; reflexivity|].
    split; [reflexivity|]. split; [reflexivity|]. split; [|reflexivity].
    rewrite <- app_assoc. f_equal. destruct r as [info|e]; reflexivity.
Qed.
Lemma take_batch {A} (rest : list A) (n : Z) :
  n = len rest -> take (Z.to_nat (Z.min 10 n)) rest = take 10 rest.
Proof.
  intros ->. unfold len. destruct (decide (10 <= length rest)%nat) as [Hge|Hlt].
  - f_equal. lia.
  - rewrite !take_ge by lia. reflexivity.
Qed.

(** The loop over the batches, from the batch that starts at [start]. *)
Lemma classify_batches_run (progress_callback : bool) (all_dlc_ids : list string)
    (fuel : nat) (start : Z) (st : classifying) (w : world) :
  0 <= start ->
  (Z.to_nat (len all_dlc_ids - start) <= fuel)%nat ->
  let rest := drop (Z.to_nat start) all_dlc_ids in
  exists st' w' batches,
    fold_left (classify_batch analyze_single_dlc progress_callback all_dlc_ids)
      (range_from fuel start (len all_dlc_ids) batch_size) (st, w) = (st', w')
    /\ processed_count st' = processed_count st + len rest
    /\ progress st'
       = (progress st ++
          if progress_callback
          then counting_up (processed_count st + 1) (len rest) (len all_dlc_ids)
          else [])%list
    /\ free_dlcs st' = (free_dlcs st ++ omap free_of (map analyze_single_dlc rest))%list
    /\ paid_dlcs st' = (paid_dlcs st ++ omap paid_of (map analyze_single_dlc rest))%list
    /\ gathered st' = (gathered st ++ batches)%list
    /\ concat batches = rest
    /\ len batches = (len rest + 9) / 10
    /\ Forall (fun b => 1 <= len b <= 10) batches
    /\ List.filter is_error (log w')
       = (List.filter is_error (log w)
          ++ map (fun e => (ERROR, "分析DLC时出错: " +:+ exn_str e))
               (omap error_of (map analyze_single_dlc rest)))%list
    /\ files w' = files w.
Proof.
  revert start st w. induction fuel as [|fuel IH]; intros start st w Hstart Hfuel rest.
  - assert (rest = []) as Hrest by (apply drop_ge; unfold len in Hfuel; lia).
    exists st, w, []. rewrite Hrest. unfold len, counting_up. cbn.
    rewrite !app_nil_r, Z.add_0_r. destruct progress_callback; rewrite ?app_nil_r; auto 12.
  - cbn [range_from]. destruct (Z.ltb_spec start (len all_dlc_ids)) as [Hlt|Hge].
    2:{ assert (rest = []) as Hrest by (apply drop_ge; unfold len in Hge; lia).
        exists st, w, []. rewrite Hrest. unfold len, counting_up. cbn.
        rewrite !app_nil_r, Z.add_0_r.
        destruct progress_callback; rewrite ?app_nil_r; auto 12. }
    cbn [fold_left]. unfold classify_batch at 2. cbn [fst snd].
    assert (len rest = len all_dlc_ids - start) as Hlen
      by (unfold rest, len in *; rewrite length_drop; lia).
    set (batch := slice all_dlc_ids start (Z.min (start + batch_size) (len all_dlc_ids))).
    assert (batch = take 10 rest) as Hbatch.
    { unfold batch, batch_size. rewrite slice_take_drop by lia. fold rest.
      replace (Z.min (start + 10) (len all_dlc_ids) - start) with (Z.min 10 (len rest)) by lia.
      apply take_batch. reflexivity. }
    assert (drop (Z.to_nat (start + batch_size)) all_dlc_ids = drop 10 rest) as Hrest'.
    { unfold rest, batch_size. rewrite drop_drop. f_equal. lia. }
    assert (rest = (batch ++ drop 10 rest)%list) as Hsplit
      by (rewrite Hbatch; symmetry; apply take_drop).
    assert (1 <= len batch <= 10) as Hblen.
    { rewrite Hbatch. unfold len in *. rewrite length_take. lia. }
    assert (len rest = len batch + len (drop 10 rest)) as Hsum.
    { rewrite Hsplit at 1. unfold len. rewrite length_app. lia. }
    set (st0 := {| processed_count := processed_count st; free_dlcs := free_dlcs st;
                   paid_dlcs := paid_dlcs st; progress := progress st;
                   gathered := (gathered st ++ [batch])%list; sleeps := sleeps st |}).
    destruct (classify_results_run progress_callback (len all_dlc_ids)
                (map analyze_single_dlc batch) st0 w)
      as (st1 & w1 & Hrun1 & Hpc1 & Hpr1 & Hfr1 & Hpa1 & Hga1 & Hsl1 & Hlog1 & Hfi1).
    rewrite Hrun1.
    set (st2 := if Z.min (start + batch_size) (len all_dlc_ids) <? len all_dlc_ids
                then {| processed_count := processed_count st1; free_dlcs := free_dlcs st1;
                        paid_dlcs := paid_dlcs st1; progress := progress st1;
                        gathered := gathered st1; sleeps := S (sleeps st1) |}
                else st1).
    assert (processed_count st2 = processed_count st1 /\ free_dlcs st2 = free_dlcs st1
            /\ paid_dlcs st2 = paid_dlcs st1 /\ progress st2 = progress st1
            /\ gathered st2 = gathered st1) as (E1 & E2 & E3 & E4 & E5)
      by (unfold st2; destruct (_ <? _); auto).
    destruct (IH (start + batch_size) st2 w1) as
      (st' & w' & batches & Hrun & Hpc & Hpr & Hfr & Hpa & Hga & Hcat & Hnb & Hall & Hlog & Hfi).
    { unfold batch_size. lia. }
    { unfold batch_size. lia. }
    rewrite Hrest' in *.
    exists st', w', (batch :: batches). split.
    { rewrite <- Hrun. f_equal. unfold st2. destruct (_ <? _); reflexivity. }
    assert (len (map analyze_single_dlc batch) = len batch) as Hmlen
      by (unfold len; rewrite length_map; reflexivity).
    rewrite Hmlen in *.
    rewrite Hpc, Hpr, Hfr, Hpa, Hga, Hlog, Hfi, E1, E2, E3, E4, E5,
      Hpc1, Hpr1, Hfr1, Hpa1, Hga1, Hlog1, Hfi1. cbn [processed_count free_dlcs paid_dlcs
      progress gathered st0].
    split; [lia|]. split.
    { rewrite <- app_assoc. f_equal. destruct progress_callback; [|reflexivity].
      rewrite Hsum, counting_up_app by apply len_nonneg.
      do 2 f_equal. lia. }
    split; [rewrite <- app_assoc, <- omap_app, <- fmap_app, <- Hsplit; reflexivity|].
    split; [rewrite <- app_assoc, <- omap_app, <- fmap_app, <- Hsplit; reflexivity|].
    split; [rewrite <- app_assoc; reflexivity|].
    split; [cbn; rewrite Hcat; symmetry; exact Hsplit|].
    split.
    { unfold len in Hnb |- *. cbn [length]. rewrite Nat2Z.inj_succ, Hnb.
      fold (len (drop 10 rest)). fold (len rest).
      pose proof (len_nonneg (drop 10 rest)) as Hnn.
      assert (len batch = 10 \/ len (drop 10 rest) = 0) as [Hfull|Hlast].
      { rewrite Hbatch. unfold len. rewrite length_take, length_drop. lia. }
      - rewrite Hsum, Hfull.
        replace (10 + len (drop 10 rest) + 9) with (len (drop 10 rest) + 9 + 1 * 10) by lia.
        rewrite Z.div_add by lia. lia.
      - rewrite Hsum, Hlast. change ((0 + 9) / 10) with 0.
        rewrite Z.add_0_r. apply Z.div_unique with (r := len batch - 1); lia. }
    split; [constructor; assumption|]. split; [|reflexivity].
    rewrite <- app_assoc, <- fmap_app, <- omap_app, <- fmap_app, <- Hsplit. reflexivity.
Qed.
End Classifying.


(** ** The region check and the hosts asked for raw files *)




Lemma asked_sent (u : string) (urls : list string) : Sent u ∈ asked urls -> u ∈ urls.
Proof.
  unfold asked. induction urls as [|v urls IH]; cbn.
  - intros Hin. apply elem_of_nil in Hin. contradiction.
  - intros Hin. apply elem_of_cons in Hin as [Heq|Hin]; [simplify_eq; apply list_elem_of_here|].
    apply elem_of_cons in Hin as [Heq|Hin]; [discriminate|].
    apply list_elem_of_further, IH, Hin.
Qed.

Section RegionGate.
Context `{Libs}.




End RegionGate.


(** C10, the last clause of the claim fails: the official host is used
    without the check having reported a place outside China.  A region
    service out of order, answering with status 503 and an error object,
    leaves [IS_CN] at [no], and the file is then asked from the official
    host; and where no check has run at all, as when the DLCs of a title
    are resolved, [IS_CN] is not set and the official host is asked too. *)
Lemma region_error_answer_uses_official :
  let w := checkcn (H:=region_libs) world_region_error in
  json_loads (Libs:=region_libs) (hex "7b226572726f72223a22756e617661696c61626c65227d")
  = Some (JObj [("error", JStr "unavailable")])
  /\ environ_IS_CN w = Some "no"
  /\ events_since w (get_from_url "a1" "key.vdf" "org/repo" w).2
     = [Sent "https://raw.githubusercontent.com/org/repo/a1/key.vdf";
        Received "https://raw.githubusercontent.com/org/repo/a1/key.vdf"]
  /\ environ_IS_CN world_region_error = None
  /\ events_since world_region_error
       (get_from_url "a1" "key.vdf" "org/repo" world_region_error).2
     = [Sent "https://raw.githubusercontent.com/org/repo/a1/key.vdf";
        Received "https://raw.githubusercontent.com/org/repo/a1/key.vdf"].
Proof. vm_compute. auto 10. Qed.

(** ** Searching every repository *)

(** *** The order of strings *)







(** *** The sort and its first entry *)

Lemma insert_desc_cons {A} (key : A -> string) (x : A) (l : list A) :
  exists y t, insert_desc key x l = y :: t.
Proof. destruct l as [|y t]; cbn; [eauto|]. destruct (str_lt _ _); eauto. Qed.


Lemma dated_hits (results : list hit) (dated : list (string * hit)) :
  mapM (fun h => d ← date_str h; Ok (d, h)) results = Ok dated ->
  dated.*2 = results /\ forall d h, (d, h) ∈ dated -> date_str h = Ok d.
Proof.
  revert dated. induction results as [|h results IH]; intros dated; cbn [mapM].
  - intros Hd. inversion Hd. split; [reflexivity|].
    intros d h Hin. apply elem_of_nil in Hin. contradiction.
  - destruct (date_str h) as [d|e] eqn:Ed; rsimpl; [|discriminate].
    destruct (mapM _ results) as [k|e]; rsimpl; [|discriminate].
    destruct (IH k eq_refl) as [Hsnd Hdate]. intros Hd. inversion Hd as [Hk]. split.
    + cbn. rewrite Hsnd. reflexivity.
    + intros d' h' Hin. apply elem_of_cons in Hin as [Heq|Hin]; [|eauto].
      inversion Heq. subst d' h'. exact Ed.
Qed.



(** *** The requests of the search *)




Lemma events_since_app (w w' : world) (new : list net_event) :
  requests w' = (requests w ++ new)%list -> events_since w w' = new.
Proof. unfold events_since. intros ->. apply drop_app_length. Qed.






Section SearchFacts.
Context `{Libs}.




End SearchFacts.

Section SearchAllFacts.
Context `{Libs}.





End SearchAllFacts.

Section SearchAllGate.
Context `{Libs}.
Variable process_from_github_with_client : string -> string -> hit -> act bool.

End SearchAllGate.



(** ** The script of a game and the free DLCs *)

(** *** Characters, stripping and line breaks *)

Lemma str_app_cons (c : ascii) (a b : string) : String c a +:+ b = String c (a +:+ b).
Proof. reflexivity. Qed.

Lemma str_app_nil_l (b : string) : EmptyString +:+ b = b.
Proof. reflexivity. Qed.




Lemma str_app_nil_r (a : string) : a +:+ EmptyString = a.
Proof.
  induction a as [|x a IH]; [reflexivity|]. rewrite str_app_cons, IH. reflexivity.
Qed.




















(** *** The pattern on a registration line *)

Lemma strip_prefix_app (pre s : string) : strip_prefix pre (pre +:+ s) = Some s.
Proof.
  induction pre as [|c pre IH]; [destruct s; reflexivity|].
  rewrite str_app_cons. cbn [strip_prefix]. rewrite Ascii.eqb_refl. exact IH.
Qed.

Lemma span_app (p : ascii -> bool) (a : string) (c : ascii) (b : string) :
  str_forall (fun x => p x = true) a -> p c = false ->
  span p (a +:+ String c b) = (a, String c b).
Proof.
  intros Ha Hc. induction a as [|x a IH].
  - rewrite str_app_nil_l. cbn [span]. rewrite Hc. reflexivity.
  - destruct Ha as [Hx Ha]. rewrite str_app_cons. cbn [span]. rewrite Hx, (IH Ha).
    reflexivity.
Qed.

(** The id of the line written for a DLC is read back as it is. *)
Lemma re_search_here {G} (m : matcher G) (s : string) (g : G) (rest : string) :
  m s = Some (g, rest) -> re_search m s = Some g.
Proof. intros Hm. destruct s; cbn [re_search]; rewrite Hm; reflexivity. Qed.

Lemma re_search_skip {G} (m : matcher G) (c : ascii) (s : string) :
  m (String c s) = None -> re_search m (String c s) = re_search m s.
Proof. intros Hm. cbn [re_search]. rewrite Hm. reflexivity. Qed.

(** *** The lines of a script *)








(** *** The sort of the registration lines *)





(** The sort is stable: the entries of one key keep their order. *)
Lemma insert_asc_stable {A} (key : A -> Z) (n : Z) (x : A) (l : list A) :
  List.filter (fun a => key a =? n) (insert_asc key x l)
  = List.filter (fun a => key a =? n) (x :: l).
Proof.
  induction l as [|y t IH]; [reflexivity|]. cbn [insert_asc].
  destruct (Z.ltb_spec (key y) (key x)) as [Hlt|Hge]; [|reflexivity].
  cbn [List.filter] in *. rewrite IH.
  destruct (Z.eqb_spec (key x) n) as [Hx|Hx]; [|reflexivity].
  destruct (Z.eqb_spec (key y) n) as [Hy|Hy]; [lia|reflexivity].
Qed.

Lemma sort_asc_stable {A} (key : A -> Z) (n : Z) (l : list A) :
  List.filter (fun a => key a =? n) (sort_asc key l) = List.filter (fun a => key a =? n) l.
Proof.
  induction l as [|x l IH]; [reflexivity|]. unfold sort_asc. cbn [fold_right].
  fold (sort_asc key l). rewrite insert_asc_stable. cbn [List.filter]. rewrite IH.
  reflexivity.
Qed.

(** *** The lines that register an id *)

Lemma registers_search (line id : string) :
  registers line id -> re_search pat_addappid line = Some id.
Proof.
  intros (rest & -> & [Hne Hdigits] & Hrest).
  apply (re_search_here _ _ _ rest). unfold pat_addappid. rewrite strip_prefix_app.
  cbn [mbind option_bind].
  assert (span is_digit (id +:+ rest) = (id, rest)) as ->.
  { destruct Hrest as [->|(c & t & -> & Hc)]; [|apply span_app; assumption].
    rewrite str_app_nil_r. clear Hne. induction id as [|x id IH]; [reflexivity|].
    destruct Hdigits as [Hx Hid]. cbn [span]. rewrite Hx, (IH Hid). reflexivity. }
  rewrite bool_decide_eq_false_2 by exact Hne. reflexivity.
Qed.

Lemma no_addappid_search (line : string) :
  substring_of "addappid(" line = false -> re_search pat_addappid line = None.
Proof.
  induction line as [|c line IH]; [reflexivity|]. cbn [substring_of].
  intros [Hs Hrest]%orb_false_elim. cbn [re_search].
  assert (pat_addappid (String c line) = None) as ->.
  { unfold pat_addappid, startswith in *.
    destruct (strip_prefix "addappid(" (String c line)); [|reflexivity].
    apply bool_decide_eq_false_1 in Hs. exfalso. apply Hs. eauto. }
  apply IH, Hrest.
Qed.

Lemma registers_kind (line id : string) :
  registers line id ->
  is_kind AddAppId line = true /\ get_appid_from_line line = int_of_digits id.
Proof.
  intros Hreg. split.
  - destruct Hreg as (rest & -> & _). unfold is_kind, kind_of, startswith.
    change ("addappid(" +:+ id +:+ rest) with ("addappid" +:+ "(" +:+ id +:+ rest).
    rewrite strip_prefix_app. reflexivity.
  - unfold get_appid_from_line. rewrite (registers_search _ _ Hreg). reflexivity.
Qed.

(** In a plain script the ids found are the ids registered. *)
Lemma plain_script_ids (existing_lines : list string) (id : string) :
  Forall plain_line existing_lines ->
  id ∈ existing_appids_of existing_lines
  <-> exists line, line ∈ existing_lines /\ registers line id.
Proof.
  intros Hplain. unfold existing_appids_of. rewrite list_elem_of_omap. split.
  - intros (line & Hin & Hre). exists line. split; [exact Hin|].
    destruct (proj1 (Forall_forall _ _) Hplain line Hin) as [(id' & Hreg)|Hno].
    + rewrite (registers_search _ _ Hreg) in Hre. injection Hre as ->. exact Hreg.
    + rewrite (no_addappid_search _ Hno) in Hre. discriminate.
  - intros (line & Hin & Hreg). exists line. split; [exact Hin|].
    apply registers_search, Hreg.
Qed.

(** *** What the merge keeps *)











Section FreeDlcs.
Context `{Libs}.

End FreeDlcs.



(** * Further properties of the backend *)

(** ** What the ST decoder reads *)

Lemma st_header_app (content extra : list byte) :
  12 <= len content -> st_header (content ++ extra) = st_header content.
Proof.
  unfold len. intros Hlen. unfold st_header.
  rewrite !drop_app_le, !take_app_le by (rewrite ?length_drop; lia). reflexivity.
Qed.

Lemma st_payload_app (content extra : list byte) (n : Z) :
  0 <= n <= len content - 12 ->
  st_payload (content ++ extra) n = st_payload content n.
Proof.
  unfold len. intros Hn. unfold st_payload.
  rewrite drop_app_le, take_app_le by (rewrite ?length_drop; lia). reflexivity.
Qed.

Lemma u32_le_low_byte (b0 b1 b2 b3 : byte) : u32_le b0 b1 b2 b3 mod 256 = byte_val b0.
Proof.
  unfold u32_le. pose proof (byte_val_range b0).
  replace (byte_val b0 + 256 * byte_val b1 + 65536 * byte_val b2 + 16777216 * byte_val b3)
    with (byte_val b0 + (byte_val b1 + 256 * byte_val b2 + 65536 * byte_val b3) * 256)
    by lia.
  rewrite Z.mod_add by lia. apply Z.mod_small. lia.
Qed.

Section STReads.
Context `{Libs}.

(** X1. Bytes after the declared payload are not read: a file whose
    header and declared payload are present decodes to the same text and
    metadata whatever follows the payload. *)
Theorem parse_st_file_ignores_trailing (dir dir' : dict file) (p p' : string)
    (content extra : list byte) :
  dict_get p dir = Some (Binary content) ->
  dict_get p' dir' = Some (Binary (content ++ extra)%list) ->
  12 <= len content ->
  (st_header content).1.2 <= len content - 12 ->
  parse_st_file dir' p' = parse_st_file dir p.
Proof.
  intros Hd Hd' Hlen Hsize.
  rewrite (parse_st_file_read _ _ _ Hd), (parse_st_file_read _ _ _ Hd').
  pose proof (st_header_size_nonneg content) as Hnn.
  pose proof (parse_st_bytes_checked content Hlen Hsize) as Hp.
  assert (12 <= len (content ++ extra)) as Hlen'
    by (unfold len in *; rewrite length_app; lia).
  assert ((st_header (content ++ extra)).1.2 <= len (content ++ extra) - 12) as Hsize'
    by (rewrite st_header_app by assumption; unfold len in *; rewrite length_app; lia).
  pose proof (parse_st_bytes_checked (content ++ extra) Hlen' Hsize') as Hp'.
  rewrite st_header_app in Hp' by assumption.
  destruct (st_header content) as [[xorKey payloadSize] reserved].
  cbn [fst snd] in *. rewrite Hp, Hp', st_payload_app by lia. reflexivity.
Qed.

(** X2. Of the header only the lowest byte of the key word and the size
    word are read: the three other bytes of the key word and the four
    bytes of the third word change neither the text nor the metadata,
    nor the error raised. *)
Theorem parse_st_bytes_header_bytes_read (k0 k1 k2 k3 k1' k2' k3' : byte)
    (size reserved reserved' rest : list byte) :
  length size = 4%nat -> length reserved = 4%nat -> length reserved' = 4%nat ->
  parse_st_bytes ([k0; k1; k2; k3] ++ size ++ reserved ++ rest)%list
  = parse_st_bytes ([k0; k1'; k2'; k3'] ++ size ++ reserved' ++ rest)%list.
Proof.
  intros Hs Hr Hr'.
  do 4 (destruct size as [|? size]; [discriminate|]). destruct size; [|discriminate].
  do 4 (destruct reserved as [|? reserved]; [discriminate|]).
  destruct reserved; [|discriminate].
  do 4 (destruct reserved' as [|? reserved']; [discriminate|]).
  destruct reserved'; [|discriminate].
  unfold parse_st_bytes, len. cbn [app length take struct_unpack_III].
  match goal with
  | |- context [?a <? 12] => destruct (Z.ltb_spec a 12) as [?|_]; [lia|]
  end.
  rewrite take_0. rsimpl. unfold slice. change (Z.to_nat 12) with 12%nat. cbn [drop].
  change (Z.land (Z.lxor (u32_le k0 k1 k2 k3) 4294878408) 255)
    with (st_key (u32_le k0 k1 k2 k3)).
  change (Z.land (Z.lxor (u32_le k0 k1' k2' k3') 4294878408) 255)
    with (st_key (u32_le k0 k1' k2' k3')).
  rewrite !st_key_low_byte, !u32_le_low_byte. reflexivity.
Qed.
End STReads.

(** X1, witness: the sample file followed by two more bytes. *)
Lemma parse_st_file_ignores_trailing_witness :
  parse_st_file (H:=sample_libs) [("more.st", Binary (st_sample ++ hex "00ff")%list)] "more.st"
  = parse_st_file (H:=sample_libs) st_sample_dir "480.st".
Proof.
  apply (parse_st_file_ignores_trailing (H:=sample_libs) st_sample_dir
           [("more.st", Binary (st_sample ++ hex "00ff")%list)] "480.st" "more.st"
           st_sample (hex "00ff")).
  - reflexivity.
  - reflexivity.
  - vm_compute. discriminate.
  - vm_compute. discriminate.
Defined.

(** X2, witness: the sample file with another key word of the same lowest
    byte and another third word. *)
Lemma parse_st_bytes_header_bytes_read_witness :
  parse_st_bytes (H:=sample_libs)
    (hex "78563412" ++ hex "1c000000" ++ hex "00000000" ++ drop 12 st_sample)%list
  = parse_st_bytes (H:=sample_libs)
      (hex "78ffffff" ++ hex "1c000000" ++ hex "deadbeef" ++ drop 12 st_sample)%list.
Proof.
  apply (parse_st_bytes_header_bytes_read (H:=sample_libs)
           x78 x56 x34 x12 xff xff xff
           (hex "1c000000") (hex "00000000") (hex "deadbeef") (drop 12 st_sample));
    reflexivity.
Defined.

(** ** Failures of the key merge *)

Section DepotkeyMergeFailures.
Context `{Libs}.

(** X3. [depotkey_merge] changes no file other than the configuration
    file; when it reports failure it has changed no file at all.  It
    fails when the configuration file is missing, cannot be decoded or
    cannot be parsed.  Every call logs exactly one entry, an error
    exactly when it fails. *)
Theorem depotkey_merge_failure_is_clean (self : backend) (depots_config : dict vdf)
    (w : world) :
  let out := depotkey_merge self depots_config w in
  (forall p, p <> config_path self -> files out.2 !! p = files w !! p)
  /\ (out.1 = false -> files out.2 = files w)
  /\ (files w !! config_path self = None -> out.1 = false)
  /\ (forall e, read_text (config_path self) w = Raise e -> out.1 = false)
  /\ (forall text, read_text (config_path self) w = Ok text ->
        vdf_loads text = None -> out.1 = false)
  /\ exists l msg, log out.2 = (log w ++ [(l, msg)])%list
                   /\ (out.1 = false <-> l = ERROR).
Proof.
  cbn zeta. split; [|split; [apply depotkey_merge_false|]].
  - intros p Hp. unfold depotkey_merge. destruct (files w !! config_path self); [|reflexivity].
    destruct (_ ≫= _) as [[config'|]|e]; try reflexivity.
    cbn. rewrite lookup_insert_ne by congruence. reflexivity.
  - unfold depotkey_merge. split; [intros ->; reflexivity|].
    split; [|split].
    + intros e He. destruct (files w !! config_path self); [|reflexivity].
      rewrite He. reflexivity.
    + intros text Ht Hl. destruct (files w !! config_path self); [|reflexivity].
      rewrite Ht. rsimpl. rewrite Hl. reflexivity.
    + destruct (files w !! config_path self).
      * destruct (_ ≫= _) as [[config'|]|e]; cbn; eexists _, _;
          (split; [reflexivity|]); split; congruence.
      * cbn. eexists _, _. split; [reflexivity|]. split; congruence.
Qed.
End DepotkeyMergeFailures.

(** ** The flag files of GreenLuma *)

Lemma applist_name_inj (base : path) (a b : string) :
  (base ++ ["AppList"; a +:+ ".txt"])%list = (base ++ ["AppList"; b +:+ ".txt"])%list ->
  a = b.
Proof.
  intros Heq. apply app_inv_head in Heq. inversion Heq as [Hab]. clear Heq.
  revert b Hab. induction a as [|c a IH]; intros [|d b] Hab.
  - reflexivity.
  - rewrite str_app_nil_l, str_app_cons in Hab. inversion Hab as [[Hc Hb]].
    destruct b as [|? [|? [|? [|? ?]]]]; discriminate.
  - rewrite str_app_nil_l, str_app_cons in Hab. inversion Hab as [[Hc Hb]].
    destruct a as [|? [|? [|? [|? ?]]]]; discriminate.
  - rewrite !str_app_cons in Hab. inversion Hab. f_equal. auto.
Qed.

Section GreenLumaFlags.
Context `{Libs}.

Lemma flag_files_content (self : backend) (ids : list string) (w : world) (id : string) :
  let w' := fold_left
              (fun w appid =>
                 write_text ((steam_path self ++ ["AppList"]) ++ [appid +:+ ".txt"])%list
                   appid w) ids w in
  files w' !! (steam_path self ++ ["AppList"; id +:+ ".txt"])%list
  = if bool_decide (id ∈ ids) then Some (Text id)
    else files w !! (steam_path self ++ ["AppList"; id +:+ ".txt"])%list.
Proof.
  assert (forall (a : list string) (b c : string), ((a ++ [b]) ++ [c] = a ++ [b; c])%list)
    as Hassoc by (intros; rewrite <- app_assoc; reflexivity).
  revert w. induction ids as [|i ids IH]; intros w; cbn zeta; [reflexivity|].
  cbn [fold_left]. rewrite IH. destruct (decide (id ∈ ids)) as [Hin|Hnin].
  - rewrite !bool_decide_eq_true_2; [reflexivity|apply list_elem_of_further, Hin|exact Hin].
  - rewrite (bool_decide_eq_false_2 _ Hnin). cbn. rewrite Hassoc.
    destruct (decide (id = i)) as [->|Hne].
    + rewrite lookup_insert_eq, bool_decide_eq_true_2 by apply list_elem_of_here. reflexivity.
    + rewrite lookup_insert_ne by (intros Heq; apply applist_name_inj in Heq; congruence).
      rewrite bool_decide_eq_false_2; [reflexivity|].
      intros [->|Hin]%elem_of_cons; [congruence|contradiction].
Qed.

(** X4. Given ids that are strings of digits, [greenluma_add] reports
    success and leaves, for each id of the list, the file
    [AppList/<id>.txt] holding that id; every other file is as before.
    Adding the same ids again changes no file. *)
Theorem greenluma_add_flags (self : backend) (ids : list string) (w : world) :
  Forall digits ids ->
  let out := greenluma_add self ids w in
  out.1 = true
  /\ (forall id, id ∈ ids ->
        files out.2 !! (steam_path self ++ ["AppList"; id +:+ ".txt"])%list = Some (Text id))
  /\ (forall p, (forall id, id ∈ ids -> p <> (steam_path self ++ ["AppList"; id +:+ ".txt"])%list) ->
        files out.2 !! p = files w !! p)
  /\ files (greenluma_add self ids out.2).2 = files out.2.
Proof.
  intros _. cbn zeta.
  assert (forall w0 id, id ∈ ids ->
            files (greenluma_add self ids w0).2
            !! (steam_path self ++ ["AppList"; id +:+ ".txt"])%list = Some (Text id)) as Hin.
  { intros w0 id Hid. unfold greenluma_add. cbn [snd]. rewrite files_emit.
    pose proof (flag_files_content self ids
                  (mkdir (steam_path self ++ ["AppList"])%list w0) id) as Hc.
    cbn zeta in Hc. rewrite Hc, bool_decide_eq_true_2 by exact Hid. reflexivity. }
  assert (forall w0 p,
            (forall id, id ∈ ids -> p <> (steam_path self ++ ["AppList"; id +:+ ".txt"])%list) ->
            files (greenluma_add self ids w0).2 !! p = files w0 !! p) as Hout.
  { intros w0 p Hp. unfold greenluma_add. cbn [snd]. rewrite files_emit.
    change (files w0) with (files (mkdir (steam_path self ++ ["AppList"])%list w0)).
    generalize (mkdir (steam_path self ++ ["AppList"])%list w0).
    clear Hin w0. intros w0. revert w0.
    induction ids as [|i ids' IH]; intros w0; [reflexivity|].
    cbn [fold_left]. rewrite IH by (intros id Hid; apply Hp, list_elem_of_further, Hid).
    cbn. apply lookup_insert_ne. rewrite <- app_assoc. intros Heq.
    exact (Hp i (list_elem_of_here _ _) (eq_sym Heq)). }
  split; [reflexivity|]. split; [apply Hin|]. split; [apply Hout|].
  apply map_eq. intros p.
  destruct (decide (p ∈ map (fun id => (steam_path self ++ ["AppList"; id +:+ ".txt"])%list) ids))
    as [Hp|Hp].
  - apply list_elem_of_fmap in Hp as (id & -> & Hid). rewrite !Hin by exact Hid. reflexivity.
  - apply Hout. intros id Hid ->. apply Hp, list_elem_of_fmap. eauto.
Qed.
End GreenLumaFlags.

(** X4, witness: two ids added to an installation without any file. *)
Lemma greenluma_add_flags_witness :
  (greenluma_add gl_backend ["480"; "481"] (world_of [] [])).1 = true
  /\ files (greenluma_add gl_backend ["480"; "481"] (world_of [] [])).2
     !! (steam_path gl_backend ++ ["AppList"; "481" +:+ ".txt"])%list = Some (Text "481").
Proof.
  assert (Forall digits ["480"; "481"]) as Hids
    by (repeat constructor; cbn; try discriminate; auto).
  destruct (greenluma_add_flags gl_backend ["480"; "481"] (world_of [] []) Hids)
    as (Hok & Hin & _).
  split; [exact Hok|]. apply Hin. right. left.
Defined.

(** ** The GreenLuma branch of an archive *)

(** A name that ends in [.manifest] does not end in [.lua], which every
    name made by [with_suffix ".lua"] does: converting the ST files
    leaves the manifests of the staging directory as they are. *)
Lemma list_ascii_app (a b : string) :
  list_ascii_of_string (a +:+ b) = (list_ascii_of_string a ++ list_ascii_of_string b)%list.
Proof.
  induction a as [|c a IH]; [reflexivity|]. rewrite str_app_cons. cbn. rewrite IH. reflexivity.
Qed.

Lemma string_of_list_app (a b : list ascii) :
  string_of_list_ascii (a ++ b) = string_of_list_ascii a +:+ string_of_list_ascii b.
Proof.
  induction a as [|c a IH]; [reflexivity|]. cbn. rewrite IH. reflexivity.
Qed.

Lemma str_rev_app (a b : string) : str_rev (a +:+ b) = str_rev b +:+ str_rev a.
Proof.
  unfold str_rev. rewrite list_ascii_app, rev_app_distr. apply string_of_list_app.
Qed.

Lemma endswith_app (suf x : string) : endswith suf (x +:+ suf) = true.
Proof.
  unfold endswith, startswith. rewrite str_rev_app, strip_prefix_app.
  apply bool_decide_eq_true_2. eauto.
Qed.

Lemma with_suffix_endswith (suffix name : string) :
  endswith suffix (with_suffix suffix name) = true.
Proof.
  unfold with_suffix. destruct (span _ (str_rev name)) as [ext_rev rest].
  destruct ext_rev as [|? ?]; [apply endswith_app|].
  destruct rest as [|? [|? ?]]; apply endswith_app.
Qed.

Lemma manifest_not_lua (name : string) :
  endswith ".manifest" name = true -> endswith ".lua" name = false.
Proof.
  unfold endswith, startswith.
  change (str_rev ".manifest") with "tsefinam.". change (str_rev ".lua") with "aul.".
  destruct (str_rev name) as [|c r]; [reflexivity|]. cbn [strip_prefix].
  destruct (Ascii.eqb_spec "t" c) as [<-|Hne]; [intros _; reflexivity|].
  intros Hm. apply bool_decide_eq_true_1 in Hm. destruct Hm as [x Hx]. discriminate.
Qed.

Section GreenLumaInstall.
Context `{Libs}.

Lemma convert_st_kept (st_file : string) (acc : dict file * list string) (w : world)
    (name : string) :
  endswith ".lua" name = false ->
  dict_get name (convert_st st_file acc w).1.1 = dict_get name acc.1.
Proof.
  intros Hname. unfold convert_st, convert_file. destruct acc as [dir lua_files].
  destruct (parse_st_file dir st_file) as [[content ?]|e]; cbn [fst snd]; [|reflexivity].
  apply dict_get_set_ne. intros Heq. rewrite <- Heq, with_suffix_endswith in Hname.
  discriminate.
Qed.

Lemma convert_all_kept (st_files : list string) (acc : dict file * list string) (w : world)
    (name : string) :
  endswith ".lua" name = false ->
  dict_get name (convert_all st_files acc w).1.1 = dict_get name acc.1.
Proof.
  intros Hname. revert acc w.
  induction st_files as [|st_file rest IH]; intros acc w; [reflexivity|].
  cbn [convert_all]. pose proof (convert_st_kept st_file acc w name Hname) as Hst.
  destruct (convert_st st_file acc w) as [acc1 w1]. cbn [fst] in Hst.
  rewrite IH. exact Hst.
Qed.

Lemma glob_endswith (ext : string) (dir : dict file) (name : string) :
  name ∈ glob ext dir -> endswith ext name = true.
Proof.
  unfold glob. intros Hin. apply list_elem_of_In, filter_In in Hin as [_ Hext]. exact Hext.
Qed.

(** [depotkey_merge] writes no file but the configuration. *)
Lemma depotkey_merge_frame (self : backend) (depots_config : dict vdf) (w : world)
    (p : path) :
  p <> config_path self ->
  files (depotkey_merge self depots_config w).2 !! p = files w !! p.
Proof.
  intros Hp. unfold depotkey_merge. destruct (files w !! config_path self); [|reflexivity].
  destruct (_ ≫= _) as [[config'|]|e]; [|reflexivity..].
  cbn. apply lookup_insert_ne. congruence.
Qed.

(** Copying files that are in the staging directory does not raise; each
    copy holds what the staging directory holds under its name, and
    nothing else changes. *)
Lemma copy_all_content (dir : dict file) (names : list string) (target : path) (w : world) :
  names ⊆ dict_keys dir ->
  exists w',
    for_each names (fun f => copy2 dir f target) w = (Ok tt, w')
    /\ (forall f, f ∈ names -> files w' !! (target ++ [f])%list = dict_get f dir)
    /\ (forall p, (forall f, f ∈ names -> p <> (target ++ [f])%list) ->
          files w' !! p = files w !! p).
Proof.
  revert w. induction names as [|name names IH]; intros w Hsub.
  - exists w. split; [reflexivity|].
    split; [intros f Hf; apply elem_of_nil in Hf; contradiction|reflexivity].
  - assert (name ∈ dict_keys dir) as Hname by (apply Hsub, list_elem_of_here).
    apply dict_keys_get in Hname as [content Hc].
    destruct (IH (set_files (insert (target ++ [name])%list content) w))
      as (w' & Hrun & Hin & Hout).
    { intros x Hx. apply Hsub, list_elem_of_further, Hx. }
    exists w'. split.
    { cbn [for_each]. unfold mbind, act_mbind, act_bind, copy2 at 1. rewrite Hc.
      exact Hrun. }
    split.
    + intros f Hf. destruct (decide (f ∈ names)) as [Hn|Hn]; [apply Hin, Hn|].
      apply elem_of_cons in Hf as [->|Hf]; [|contradiction].
      rewrite Hout.
      * cbn. rewrite lookup_insert_eq. symmetry. exact Hc.
      * intros g Hg Heq. apply app_inv_head in Heq. congruence.
    + intros p Hp. rewrite Hout by (intros f Hf; apply Hp, list_elem_of_further, Hf).
      cbn. apply lookup_insert_ne. intros Heq.
      exact (Hp name (list_elem_of_here _ _) (eq_sym Heq)).
Qed.

(** The GreenLuma branch once the archive is unpacked and a manifest is
    there: it reports success, with or without keys. *)
Lemma install_greenluma_run (self : backend) (app_id source_name : string)
    (dir : dict file) (manifest_files lua_files : list string)
    (all_depots : dict vdf) (w : world) :
  manifest_files <> [] ->
  manifest_files ⊆ dict_keys dir ->
  collect_depots pat_gl_depot decryption_key dir lua_files [] = Ok all_depots ->
  exists w',
    install_greenluma self app_id source_name dir manifest_files lua_files w = (Ok true, w')
    /\ (forall f, f ∈ manifest_files ->
          files w' !! (steam_path self ++ ["depotcache"; f])%list = dict_get f dir)
    /\ files w' !! (steam_path self ++ ["AppList"; app_id +:+ ".txt"])%list
       = Some (Text app_id)
    /\ (all_depots = [] -> untouched (config_path self) w w').
Proof.
  intros Hne Hsub Hcol. unfold install_greenluma. rewrite act_bind_logger, act_bind_modify.
  destruct manifest_files as [|m ms] eqn:Em; [contradiction|]. rewrite <- Em in *.
  set (w1 := mkdir _ (emit INFO _ w)).
  destruct (copy_all_content dir manifest_files (steam_path self ++ ["depotcache"])%list
              w1 Hsub) as (w2 & Hcopy & Hin2 & Hout2).
  rewrite (act_bind_run _ _ _ _ _ Hcopy), act_bind_logger, Hcol, act_bind_lift.
  set (w3 := emit INFO _ w2).
  assert (forall (a : list string) (b c : string), ((a ++ [b]) ++ [c] = a ++ [b; c])%list)
    as Hassoc by (intros; rewrite <- app_assoc; reflexivity).
  assert (untouched (config_path self) w w3) as Hcfg.
  { unfold untouched. change (files w3) with (files w2).
    etransitivity; [apply (Hout2 (config_path self))|reflexivity].
    intros f _. rewrite Hassoc. unfold config_path. intros Heq.
    apply app_inv_head in Heq. discriminate. }
  assert (forall f, f ∈ manifest_files ->
            files w3 !! (steam_path self ++ ["depotcache"; f])%list = dict_get f dir) as Hin3.
  { intros f Hf. rewrite <- Hassoc. apply Hin2, Hf. }
  assert (forall ids w0,
            app_id ∈ ids ->
            (forall f, files w0 !! (steam_path self ++ ["depotcache"; f])%list
                       = files w3 !! (steam_path self ++ ["depotcache"; f])%list) ->
            (forall f, f ∈ manifest_files ->
               files (greenluma_add self ids w0).2
               !! (steam_path self ++ ["depotcache"; f])%list = dict_get f dir)
            /\ files (greenluma_add self ids w0).2
               !! (steam_path self ++ ["AppList"; app_id +:+ ".txt"])%list
               = Some (Text app_id)
            /\ untouched (config_path self) w0 (greenluma_add self ids w0).2) as Hadd.
  { intros ids w0 Hid H0.
    destruct (greenluma_add_run self ids w0) as (_ & _ & _ & Hout).
    split; [|split].
    - intros f Hf. rewrite <- (Hin3 f Hf), <- H0. apply Hout.
      intros id Heq. apply app_inv_head in Heq. discriminate.
    - unfold greenluma_add. cbn [snd]. rewrite files_emit.
      pose proof (flag_files_content self ids
                    (mkdir (steam_path self ++ ["AppList"])%list w0) app_id) as Hc.
      cbn zeta in Hc. rewrite Hc, bool_decide_eq_true_2 by exact Hid. reflexivity.
    - apply Hout. intros id. unfold config_path. intros Heq.
      apply app_inv_head in Heq. discriminate. }
  destruct all_depots as [|d ds].
  - destruct (Hadd [app_id] w3 (list_elem_of_here _ _) (fun _ => eq_refl))
      as (Hm & Hflag & Hc).
    eexists. split; [rewrite act_bind_call; reflexivity|].
    split; [exact Hm|]. split; [exact Hflag|].
    intros _. eapply untouched_trans; eassumption.
  - set (w4 := (depotkey_merge self [("depots", VDict (d :: ds))] w3).2).
    destruct (Hadd (app_id :: dict_keys (d :: ds)) w4 (list_elem_of_here _ _))
      as (Hm & Hflag & _).
    { intros f. apply depotkey_merge_frame. unfold config_path. intros Heq.
      apply app_inv_head in Heq. discriminate. }
    eexists. split; [rewrite act_bind_assoc, act_bind_call, act_bind_call; reflexivity|].
    split; [exact Hm|]. split; [exact Hflag|]. intros Hnil. discriminate.
Qed.
End GreenLumaInstall.

Section ArchiveOutcome.
Context `{Libs}.

(** C4 (as amended). In GreenLuma mode, when the archive has been
    downloaded and unpacked: without a manifest the attempt reports failure
    and writes nothing; with a manifest it reports success as soon as the
    scripts can be read, whether or not they carry a key.  Every manifest
    of the archive is then in [depotcache] under its name, holding the
    bytes the archive has for it, and the flag file of the title holds its
    id; when no key was obtained the configuration file is not touched and
    success is reported all the same. *)
Theorem greenluma_archive_outcome (self : backend)
    (app_id download_url source_name : string) (w : world)
    (zip : list byte) (listing : list (string * list byte)) :
  is_steamtools self = false ->
  remote w download_url = Response 200 zip ->
  zip_extract zip = Some listing ->
  let dir := map (fun e => (e.1, Binary e.2)) listing in
  let manifest_files := glob ".manifest" dir in
  let staged := (convert_all (glob ".st" dir) (dir, glob ".lua" dir) w).1 in
  let out := process_zip_based_manifest self app_id download_url source_name w in
  (manifest_files = [] -> out.1 = false /\ files out.2 = files w)
  /\ (manifest_files <> [] ->
      forall all_depots,
        collect_depots pat_gl_depot decryption_key staged.1 staged.2 [] = Ok all_depots ->
        out.1 = true
        /\ (forall f, f ∈ manifest_files ->
              exists data,
                (f, data) ∈ listing
                /\ files out.2 !! (steam_path self ++ ["depotcache"; f])%list
                   = Some (Binary data))
        /\ files out.2 !! (steam_path self ++ ["AppList"; app_id +:+ ".txt"])%list
           = Some (Text app_id)
        /\ (all_depots = [] -> untouched (config_path self) w out.2)).
Proof.
  intros Hgl Hnet Hzip dir manifest_files staged out.
  subst out. unfold process_zip_based_manifest, download_and_install.
  rewrite act_bind_logger, act_bind_call. set (w1 := emit INFO _ w).
  change (http_get download_url w1).1 with (remote w download_url). rewrite Hnet.
  set (w2 := (http_get download_url w1).2).
  change (negb (200 =? 200)) with false. cbn iota.
  rewrite act_bind_logger, Hzip. cbn [of_option]. rewrite act_bind_lift.
  set (w3 := emit INFO _ w2). cbn zeta. fold dir. fold manifest_files.
  rewrite act_bind_call.
  set (c := convert_all _ _ w3).
  assert (c.1 = staged) as Hst by apply convert_all_fst.
  assert (files c.2 = files w) as Hfiles
    by (unfold c; rewrite convert_all_files; reflexivity).
  assert (dict_keys dir ⊆ dict_keys c.1.1) as Hkeys
    by apply (convert_all_keys (glob ".st" dir) (dir, glob ".lua" dir) w3).
  rewrite Hgl. split.
  - intros Hnil. rewrite Hnil. unfold install_greenluma.
    rewrite act_bind_logger, act_bind_modify, act_bind_logger. cbn. auto.
  - intros Hne all_depots Hcol. rewrite <- Hst in Hcol.
    destruct (install_greenluma_run self app_id source_name c.1.1 manifest_files c.1.2
                all_depots c.2 Hne) as (w5 & Hrun & Hin & Hflag & Hcfg).
    { etransitivity; [apply glob_in_dir|exact Hkeys]. }
    { exact Hcol. }
    rewrite Hrun. cbn [fst snd]. split; [reflexivity|]. split.
    { intros f Hf. rewrite (Hin f Hf). unfold c.
      rewrite convert_all_kept by (apply manifest_not_lua, (glob_endswith _ dir), Hf).
      cbn [fst].
      assert (f ∈ dict_keys dir) as Hk by (apply (glob_in_dir ".manifest"), Hf).
      clear -Hk. unfold dir in *. induction listing as [|[name data] rest IH].
      - apply elem_of_nil in Hk. contradiction.
      - cbn [map dict_get fst snd]. destruct (String.eqb_spec f name) as [->|Hne].
        + exists data. split; [apply list_elem_of_here|reflexivity].
        + cbn in Hk. apply elem_of_cons in Hk as [Hk|Hk]; [congruence|].
          destruct (IH Hk) as (d & Hd & Hg). exists d.
          split; [apply list_elem_of_further, Hd|exact Hg]. }
    split; [exact Hflag|]. intros Hnil. unfold untouched in *.
    rewrite (Hcfg Hnil), Hfiles. reflexivity.
Qed.
End ArchiveOutcome.

(** C4, witness: an archive with a manifest and its key. *)
Lemma greenluma_archive_outcome_witness :
  let out := process_zip_based_manifest (H:=sample_libs) gl_backend "228980"
               "https://cysaw.top/uploads/228980.zip" "Cysaw" world_with_key in
  out.1 = true
  /\ files out.2 !! ["Steam"; "AppList"; "228980.txt"] = Some (Text "228980")
  /\ exists data, files out.2 !! ["Steam"; "depotcache"; "228981_7.manifest"]
                  = Some (Binary data).
Proof.
  intros out.
  destruct (greenluma_archive_outcome (H:=sample_libs) gl_backend "228980"
              "https://cysaw.top/uploads/228980.zip" "Cysaw" world_with_key zip_with_key
              [("228981_7.manifest", hex "0405");
               ("228980.lua", hex "6164646170706964283232383938312c20223030666622290a")])
    as [_ Hsome]; [reflexivity | vm_compute; reflexivity | vm_compute; reflexivity |].
  destruct (Hsome ltac:(vm_compute; discriminate)
              [("228981", VDict [("DecryptionKey", VStr "00ff")])])
    as (Hok & Hcopies & Hflag & _); [vm_compute; reflexivity|].
  split; [exact Hok|]. split; [exact Hflag|].
  destruct (Hcopies "228981_7.manifest") as (data & _ & Hdata);
    [vm_compute; left|exists data; exact Hdata].
Defined.

(** C4, counterexample to the claim as first stated: the archive holds a
    manifest and no key.  The manifest is installed, no key is obtained,
    nothing is merged, and the attempt is reported as a success. *)
Lemma manifest_without_key_succeeds :
  let out := process_zip_based_manifest (H:=sample_libs) gl_backend "228980"
               "https://api.printedwaste.com/gfk/download/228980" "SWA V2"
               world_manifest_only in
  out.1 = true
  /\ files out.2 !! ["Steam"; "depotcache"; "228980_1.manifest"]
     = Some (Binary (hex "010203"))
  /\ collect_depots (H:=sample_libs) pat_gl_depot decryption_key
       [("228980_1.manifest", Binary (hex "010203"))] [] [] = Ok []
  /\ files out.2 !! config_path gl_backend = None.
Proof. vm_compute. auto. Qed.

(** ** Fetching a raw file *)

Section RawFile.
Context `{Libs}.

(** The loop of [get_from_url] over URLs that have a host part. *)
Lemma try_urls_first (path : string) (urls : list string) (w : world) :
  Forall (fun u => exists host, host_of u = Ok host) urls ->
  (forall before url after body,
     urls = (before ++ url :: after)%list -> none_ok w before ->
     remote w url = Response 200 body ->
     (try_urls path urls w).1 = Ok body
     /\ requests (try_urls path urls w).2 = (requests w ++ asked (before ++ [url]))%list)
  /\ (none_ok w urls ->
      (try_urls path urls w).1 = Raise (OtherError ("所有下载源均失败: " +:+ path))
      /\ requests (try_urls path urls w).2 = (requests w ++ asked urls)%list)
  /\ files (try_urls path urls w).2 = files w.
Proof.
  intros Hhosts. unfold none_ok. remember (remote w) as r eqn:Er.
  revert w Er. induction Hhosts as [|u urls [host Hu] _ IH]; intros w Er.
  - split; [intros [|? ?] ? ? ? ?; discriminate|].
    cbn. rewrite app_nil_r. auto.
  - cbn [try_urls]. rewrite Hu. set (w1 := emit INFO _ w).
    assert (forall msg,
              (forall b, r u <> Response 200 b) ->
              let w3 := emit WARNING msg (http_get u w1).2 in
              (forall before url after body,
                 u :: urls = (before ++ url :: after)%list ->
                 (forall v b, v ∈ before -> r v <> Response 200 b) ->
                 r url = Response 200 body ->
                 (try_urls path urls w3).1 = Ok body
                 /\ requests (try_urls path urls w3).2
                    = (requests w ++ asked (before ++ [url]))%list)
              /\ ((forall v b, v ∈ u :: urls -> r v <> Response 200 b) ->
                  (try_urls path urls w3).1
                  = Raise (OtherError ("所有下载源均失败: " +:+ path))
                  /\ requests (try_urls path urls w3).2
                     = (requests w ++ asked (u :: urls))%list)
              /\ files (try_urls path urls w3).2 = files w) as Hnext.
    { intros msg Hbad w3.
      destruct (IH w3 Er) as (Hfirst & Hnone & Hf).
      assert (requests w3 = (requests w ++ asked [u])%list) as Hreq
        by apply (http_get_requests u w1).
      split; [|split].
      - intros [|b0 before] url after body Heq Hbefore Hurl.
        + injection Heq as Hu' _. subst url. exfalso. exact (Hbad _ Hurl).
        + injection Heq as Hu' Hurls. subst b0 urls.
          destruct (Hfirst before url after body eq_refl) as [Hres Hreqs].
          { intros v b Hv. apply Hbefore, list_elem_of_further, Hv. }
          { exact Hurl. }
          split; [exact Hres|]. rewrite Hreqs, Hreq, <- app_assoc. reflexivity.
      - intros Hall. destruct Hnone as [Hres Hreqs].
        { intros v b Hv. apply Hall, list_elem_of_further, Hv. }
        split; [exact Hres|]. rewrite Hreqs, Hreq, <- app_assoc. reflexivity.
      - rewrite Hf. reflexivity. }
    change (http_get u w1) with (remote w u, (http_get u w1).2). rewrite <- Er.
    cbv beta iota.
    destruct (r u) as [|status content] eqn:Eu.
    + apply Hnext. intros b; discriminate.
    + destruct (decide (status = 200)) as [->|Hne].
      * split; [|split; [|reflexivity]].
        -- intros [|b0 before] url after body Heq Hbefore Hurl.
           ++ injection Heq as Hu' _. subst url. rewrite Eu in Hurl.
              injection Hurl as ->. split; [reflexivity|].
              apply (http_get_requests u w1).
           ++ injection Heq as Hu' _. subst b0. exfalso.
              exact (Hbefore u content (list_elem_of_here _ _) Eu).
        -- intros Hall. exfalso. exact (Hall u content (list_elem_of_here _ _) Eu).
      * rewrite status_other by exact Hne. apply Hnext.
        intros b Hb. inversion Hb. congruence.
Qed.

Lemma mirror_urls_hosts (w : world) (sha path repo : string) :
  Forall (fun u => exists host, host_of u = Ok host) (mirror_urls w sha path repo).
Proof.
  unfold mirror_urls. destruct (bool_decide _); repeat constructor; eexists; reflexivity.
Qed.

(** X5. [get_from_url] asks its hosts in order, the two mirrors when
    [IS_CN] is [yes] and the official host otherwise, and returns the body
    of the first that answers with status 200, asking none after it.  It
    raises only when every host has been asked and none has answered with
    status 200.  It writes no file. *)
Theorem get_from_url_first_answer (sha path repo : string) (w : world) :
  let urls := mirror_urls w sha path repo in
  let out := get_from_url sha path repo w in
  (forall before url after body,
     urls = (before ++ url :: after)%list -> none_ok w before ->
     remote w url = Response 200 body ->
     out.1 = Ok body /\ events_since w out.2 = asked (before ++ [url]))
  /\ (none_ok w urls ->
      out.1 = Raise (OtherError ("所有下载源均失败: " +:+ path))
      /\ events_since w out.2 = asked urls)
  /\ files out.2 = files w.
Proof.
  cbn zeta. unfold get_from_url.
  destruct (try_urls_first path (mirror_urls w sha path repo) w (mirror_urls_hosts _ _ _ _))
    as (Hfirst & Hnone & Hf).
  split; [|split; [|exact Hf]].
  - intros before url after body Heq Hbefore Hurl.
    destruct (Hfirst before url after body Heq Hbefore Hurl) as [Hres Hreq].
    split; [exact Hres|apply events_since_app, Hreq].
  - intros Hall. destruct (Hnone Hall) as [Hres Hreq].
    split; [exact Hres|apply events_since_app, Hreq].
Qed.
End RawFile.

(** X5, witness: inside China, the first mirror cannot be reached and the
    second has the file. *)
Lemma get_from_url_first_answer_witness :
  let w := checkcn (H:=sample_libs) world_offline_region in
  let out := get_from_url "a1" "key.vdf" "org/repo" w in
  out.1 = Ok (hex "6b")
  /\ events_since w out.2 = asked (cn_mirrors "a1" "key.vdf" "org/repo").
Proof.
  intros w out.
  destruct (get_from_url_first_answer "a1" "key.vdf" "org/repo" w) as (Hfirst & _).
  apply (Hfirst ["https://cdn.jsdmirror.com/gh/org/repo@a1/key.vdf"]
           "https://raw.gitmirror.com/org/repo/a1/key.vdf" [] (hex "6b")).
  - reflexivity.
  - intros u body Hu. apply list_elem_of_singleton in Hu. subst u. vm_compute. discriminate.
  - reflexivity.
Defined.

(** ** Archives in SteamTools mode and archives that cannot be had *)

Section SteamToolsInstall.
Context `{Libs}.


End SteamToolsInstall.

Section ArchiveInSteamToolsMode.
Context `{Libs}.




(** X6. When the archive cannot be had, because the host cannot be
    reached, answers with another status than 200, or sends what is not
    an archive, [_process_zip_based_manifest] reports failure, having
    asked the URL once and changed no file. *)
Theorem failed_download_changes_nothing (self : backend)
    (app_id download_url source_name : string) (w : world) :
  remote w download_url = ConnectionError
  \/ (exists status body, remote w download_url = Response status body /\ status <> 200)
  \/ (exists zip, remote w download_url = Response 200 zip /\ zip_extract zip = None) ->
  let out := process_zip_based_manifest self app_id download_url source_name w in
  out.1 = false /\ files out.2 = files w /\ events_since w out.2 = asked [download_url].
Proof.
  intros Hcase out. unfold out, process_zip_based_manifest, download_and_install.
  rewrite act_bind_logger, act_bind_call. set (w1 := emit INFO _ w).
  change (http_get download_url w1).1 with (remote w download_url).
  set (w2 := (http_get download_url w1).2).
  assert (files w2 = files w) as Hf by reflexivity.
  assert (events_since w w2 = asked [download_url]) as Hr
    by (apply events_since_app; apply (http_get_requests download_url w1)).
  destruct Hcase as [->|[(status & body & -> & Hne)|(zip & -> & Hzip)]].
  - cbn. auto.
  - apply Z.eqb_neq in Hne. rewrite Hne. cbn. auto.
  - change (negb (200 =? 200)) with false. cbn iota. rewrite act_bind_logger, Hzip.
    cbn. auto.
Qed.
End ArchiveInSteamToolsMode.


(** X6, witness: no host can be reached. *)
Lemma failed_download_changes_nothing_witness :
  let out := process_zip_based_manifest (H:=sample_libs) gl_backend "228980"
               "https://cysaw.top/uploads/228980.zip" "Cysaw" (world_of [] []) in
  out.1 = false /\ files out.2 = files (world_of [] []).
Proof.
  intros out.
  destruct (failed_download_changes_nothing (H:=sample_libs) gl_backend "228980"
              "https://cysaw.top/uploads/228980.zip" "Cysaw" (world_of [] []))
    as (Hb & Hf & _); [left; reflexivity|].
  split; [exact Hb|exact Hf].
Defined.

(** ** The account [process_dlcs] gives *)

Lemma filter_sublist {A} (p : A -> bool) (l : list A) : sublist (List.filter p l) l.
Proof.
  induction l as [|x l IH]; [constructor|]. cbn [List.filter].
  destruct (p x); [apply sublist_skip|apply sublist_cons]; exact IH.
Qed.

Section Accounting.
Context `{Libs}.
Variable github : backend -> string -> string -> act bool.

(** The loop over the paid DLCs sends each of them to one of the two
    lists. *)
Lemma resolve_paid_partition (self : backend) (selected_repos : list string)
    (paid : list dlc_info) (result : dlcs_result) (w : world) :
  let r := (fold_left (resolve_paid github self selected_repos) paid (result, w)).1 in
  exists ok bad,
    success r = (success result ++ ok)%list
    /\ failed r = (failed result ++ bad)%list
    /\ result_total r = result_total result
    /\ sublist ok paid /\ sublist bad paid
    /\ (ok ++ bad)%list ≡ₚ paid.
Proof.
  revert result w. induction paid as [|dlc paid IH]; intros result w; cbn zeta.
  - exists [], []. cbn. rewrite !app_nil_r. repeat split; constructor.
  - cbn [fold_left]. rewrite resolve_paid_run.
    destruct (try_repos github self (appid dlc) selected_repos w).1.
    + destruct (IH (add_success dlc result)
                  (try_repos github self (appid dlc) selected_repos w).2)
        as (ok & bad & Hs & Hf & Ht & Hok & Hbad & Hperm).
      exists (dlc :: ok), bad. rewrite Hs, Hf, Ht. cbn. rewrite <- app_assoc.
      repeat split; [apply sublist_skip, Hok|apply sublist_cons, Hbad|].
      constructor. exact Hperm.
    + destruct (IH (add_failed dlc result)
                  (emit WARNING ("无法从任何源获取DLC " +:+ appid dlc +:+ " 的密钥")
                     (try_repos github self (appid dlc) selected_repos w).2))
        as (ok & bad & Hs & Hf & Ht & Hok & Hbad & Hperm).
      exists ok, (dlc :: bad). rewrite Hs, Hf, Ht. cbn. rewrite <- app_assoc.
      repeat split; [apply sublist_cons, Hok|apply sublist_skip, Hbad|].
      rewrite <- Hperm. symmetry. apply Permutation_middle.
Qed.

(** The free DLCs recorded are some of the free DLCs, all of them when
    the unlocker is not SteamTools. *)
Lemma process_free_added (self : backend) (app_id : string) (free : list dlc_info)
    (w : world) (added : list dlc_info) :
  (process_free self app_id free w).1 = Ok added ->
  sublist added free /\ (is_steamtools self = false -> added = free).
Proof.
  unfold process_free. destruct free as [|d free]; [intros [= <-]; split; auto|].
  set (l := d :: free). clearbody l. rewrite act_bind_logger.
  destruct (is_steamtools self).
  - unfold add_free_to_script. cbn [files emit].
    destruct (files w !! lua_path self app_id);
      [|intros [= <-]; split; [apply sublist_nil_l|discriminate]].
    unfold read_text. cbn [files emit].
    destruct (match files w !! lua_path self app_id with
              | Some (Binary b) => of_option UnicodeDecodeError (utf8_decode b)
              | Some (Text s) => Ok s
              | None => Raise (FileNotFoundError (path_str (lua_path self app_id)))
              end) as [text|e]; [|discriminate].
    unfold merge_free.
    destruct (map register_line _); intros [= <-];
      (split; [apply filter_sublist|discriminate]).
  - rewrite act_bind_call. intros [= <-]. split; [reflexivity|auto].
Qed.

(** X8. The result of [process_dlcs] accounts for the DLCs as follows:
    [total] is the number of free and paid DLCs given; every paid DLC is
    in exactly one of the lists [success] and [failed], in the order
    given; [failed] holds paid DLCs only; the free DLCs in [success] are
    some of those given, all of them when the unlocker is not SteamTools.
    So the two lists never hold more than [total] entries, and with
    SteamTools they can hold fewer.  The call only raises in SteamTools
    mode with free DLCs. *)
Theorem process_dlcs_accounting (self : backend) (app_id : string) (dlcs : dlcs)
    (selected_repos : list string) (w : world) :
  let out := process_dlcs github self app_id dlcs selected_repos w in
  (forall r, out.1 = Ok r ->
     result_total r = len (free dlcs) + len (paid dlcs)
     /\ (exists added ok,
           success r = (added ++ ok)%list
           /\ sublist added (free dlcs)
           /\ (is_steamtools self = false -> added = free dlcs)
           /\ sublist ok (paid dlcs) /\ sublist (failed r) (paid dlcs)
           /\ (ok ++ failed r)%list ≡ₚ paid dlcs)
     /\ len (success r) + len (failed r) <= result_total r)
  /\ (is_steamtools self = false \/ free dlcs = [] -> exists r, out.1 = Ok r).
Proof.
  cbn zeta.
  pose proof (process_free_added self app_id (free dlcs) w) as Hfree.
  assert (forall added w1,
            exists r w2,
              (match paid dlcs with
               | [] => ({| success := added; failed := [];
                           result_total := len (free dlcs) + len (paid dlcs) |}, w1)
               | _ :: _ =>
                   fold_left (resolve_paid github self selected_repos) (paid dlcs)
                     ({| success := added; failed := [];
                         result_total := len (free dlcs) + len (paid dlcs) |},
                      emit INFO "正在处理付费DLC..." w1)
               end) = (r, w2)
              /\ result_total r = len (free dlcs) + len (paid dlcs)
              /\ exists ok,
                   success r = (added ++ ok)%list
                   /\ sublist ok (paid dlcs) /\ sublist (failed r) (paid dlcs)
                   /\ (ok ++ failed r)%list ≡ₚ paid dlcs) as Hpaid.
  { intros added w1. destruct (paid dlcs) as [|p ps] eqn:Ep.
    - eexists _, _. split; [reflexivity|]. split; [reflexivity|]. exists [].
      cbn. rewrite app_nil_r. repeat split; constructor.
    - rewrite <- Ep.
      destruct (resolve_paid_partition self selected_repos (paid dlcs)
                  {| success := added; failed := [];
                     result_total := len (free dlcs) + len (paid dlcs) |}
                  (emit INFO "正在处理付费DLC..." w1))
        as (ok & bad & Hs & Hf & Ht & Hok & Hbad & Hperm).
      cbn zeta in Hs, Hf, Ht.
      destruct (fold_left _ (paid dlcs) _) as [r w2]. cbn [fst success failed result_total] in *.
      exists r, w2. split; [reflexivity|]. split; [exact Ht|]. exists ok.
      rewrite Hf. cbn. auto. }
  assert (forall added w1,
            (process_free self app_id (free dlcs) w) = (Ok added, w1) ->
            exists r w3,
              process_dlcs github self app_id dlcs selected_repos w = (Ok r, w3)
              /\ result_total r = len (free dlcs) + len (paid dlcs)
              /\ exists ok,
                   success r = (added ++ ok)%list
                   /\ sublist ok (paid dlcs) /\ sublist (failed r) (paid dlcs)
                   /\ (ok ++ failed r)%list ≡ₚ paid dlcs) as Hrun.
  { intros added w1 Hf. unfold process_dlcs.
    rewrite (act_bind_run _ _ _ _ _ Hf), act_bind_call.
    destruct (Hpaid added w1) as (r & w2 & -> & Hrest).
    eexists r, _. split; [reflexivity|exact Hrest]. }
  split.
  - intros r Hr.
    destruct (process_free self app_id (free dlcs) w) as [[added|e] w1] eqn:Ef.
    2:{ unfold process_dlcs in Hr. rewrite (act_bind_raise _ _ _ _ _ Ef) in Hr.
        discriminate. }
    destruct (Hfree added eq_refl) as [Hsub Hall].
    destruct (Hrun added w1 eq_refl) as (r' & w3 & Hrun' & Ht & ok & Hs & Hok & Hbad & Hperm).
    rewrite Hrun' in Hr. injection Hr as <-.
    split; [exact Ht|]. split; [exists added, ok; auto 10|].
    rewrite Hs, Ht. unfold len. rewrite !length_app.
    apply sublist_length in Hsub. apply Permutation_length in Hperm.
    rewrite length_app in Hperm. lia.
  - intros Hc.
    assert (exists added w1, process_free self app_id (free dlcs) w = (Ok added, w1))
      as (added & w1 & Hf).
    { unfold process_free. destruct Hc as [Hgl|Hnil].
      - destruct (free dlcs); [eexists _, _; reflexivity|].
        rewrite act_bind_logger, Hgl, act_bind_call. eexists _, _. reflexivity.
      - rewrite Hnil. eexists _, _. reflexivity. }
    destruct (Hrun added w1 Hf) as (r & w3 & -> & _). eauto.
Qed.

(** X9. With SteamTools, when the script of the game does not exist and
    there is no paid DLC, the free DLCs given are dropped: no file is
    changed, both lists of the result are empty, and [total] still
    counts them. *)
Theorem free_dlcs_dropped_without_script (self : backend) (app_id : string)
    (given : list dlc_info) (name : option string) (n : Z)
    (selected_repos : list string) (w : world) :
  is_steamtools self = true ->
  files w !! lua_path self app_id = None ->
  let dlcs := {| game_name := name; free := given; paid := []; total := n |} in
  let out := process_dlcs github self app_id dlcs selected_repos w in
  out.1 = Ok {| success := []; failed := []; result_total := len given |}
  /\ files out.2 = files w /\ requests out.2 = requests w.
Proof.
  intros Hst Hmissing dlcs out.
  assert (exists w1, process_free self app_id given w = (Ok [], w1)
                     /\ files w1 = files w /\ requests w1 = requests w)
    as (w1 & Hfree & Hf1 & Hr1).
  { unfold process_free. destruct given as [|d given']; [eexists; split; [reflexivity|auto]|].
    rewrite act_bind_logger, Hst. unfold add_free_to_script. cbn [files emit].
    rewrite Hmissing. eexists. split; [reflexivity|auto]. }
  unfold out, process_dlcs. cbn [free paid dlcs].
  rewrite (act_bind_run _ _ _ _ _ Hfree), act_bind_call.
  unfold mbind, act_mbind, act_bind, modify, mret, act_mret, act_ret.
  rewrite Hst. cbn. rewrite Z.add_0_r. auto.
Qed.
End Accounting.

(** X8, witness: one paid DLC, found at the second of three archive
    hosts, and no free DLC. *)
Lemma process_dlcs_accounting_witness :
  let out := process_dlcs (H:=sample_libs) no_github gl_backend "228979"
               {| game_name := None; free := []; paid := [sample_dlc]; total := 1 |}
               ["swa"; "cysaw"; "furcate"] world_with_key in
  exists r, out.1 = Ok r /\ success r = [sample_dlc] /\ failed r = []
            /\ result_total r = 1.
Proof.
  intros out.
  destruct (process_dlcs_accounting (H:=sample_libs) no_github gl_backend "228979"
              {| game_name := None; free := []; paid := [sample_dlc]; total := 1 |}
              ["swa"; "cysaw"; "furcate"] world_with_key) as [Hacc Htotal].
  destruct Htotal as [r Hr]; [left; reflexivity|].
  destruct (Hacc r Hr) as (Ht & _).
  exists r. split; [exact Hr|]. fold out in Hr.
  assert (out.1 = Ok {| success := [sample_dlc]; failed := []; result_total := 1 |}) as Hv
    by (vm_compute; reflexivity).
  rewrite Hv in Hr. injection Hr as <-. auto.
Defined.

(** X9, witness: an installation of SteamTools without any script. *)
Lemma free_dlcs_dropped_without_script_witness :
  let out := process_dlcs (H:=sample_libs) no_github st_backend "480"
               {| game_name := None; free := [free_dlc "7"]; paid := []; total := 1 |}
               ["swa"] (world_of [] []) in
  out.1 = Ok {| success := []; failed := []; result_total := 1 |}
  /\ files out.2 = files (world_of [] []).
Proof.
  intros out.
  destruct (free_dlcs_dropped_without_script (H:=sample_libs) no_github st_backend "480"
              [free_dlc "7"] None 1 ["swa"] (world_of [] []) eq_refl eq_refl)
    as (Hr & Hf & _).
  split; [exact Hr|exact Hf].
Defined.

(** ** Hits of the same date *)

(** The first entry of the sorted list comes, in the list given, before
    every entry of the same key: the entries before it have smaller
    keys. *)
Lemma sort_desc_head_first {A} (key : A -> string) (l : list A) (x : A) (t : list A) :
  sort_desc key l = x :: t ->
  exists pre post, l = (pre ++ x :: post)%list
                   /\ forall y, y ∈ pre -> str_lt (key y) (key x) = true.
Proof.
  revert x t. induction l as [|a l IH]; intros x t; [discriminate|].
  unfold sort_desc. cbn [fold_right]. fold (sort_desc key l).
  destruct (sort_desc key l) as [|y t'] eqn:Es.
  - destruct l as [|b l]; [|unfold sort_desc in Es; cbn [fold_right] in Es;
      destruct (insert_desc_cons key b (fold_right (insert_desc key) [] l)) as (?&?&E');
      rewrite E' in Es; discriminate].
    cbn. intros [= <- <-]. exists [], []. split; [reflexivity|].
    intros y Hy. apply elem_of_nil in Hy. contradiction.
  - destruct (IH y t' eq_refl) as (pre & post & -> & Hpre). cbn [insert_desc].
    destruct (str_lt (key a) (key y)) eqn:Elt; intros [= <- <-].
    + exists (a :: pre), post. split; [reflexivity|].
      intros z [->|Hz]%elem_of_cons; auto.
    + exists [], (pre ++ y :: post)%list. split; [reflexivity|].
      intros z Hz. apply elem_of_nil in Hz. contradiction.
Qed.

(** X10. Among hits of the same latest date the one selected is the first
    in the order of the results, that is, of the repositories: every hit
    listed before the selected one has a strictly earlier date. *)
Theorem latest_hit_first_among_equals (results : list hit) (selected : hit)
    (rest : list hit) :
  sort_by_date_desc results = Ok (selected :: rest) ->
  exists before after,
    results = (before ++ selected :: after)%list
    /\ forall h d ds, h ∈ before -> date_str h = Ok d -> date_str selected = Ok ds ->
                      str_lt d ds = true.
Proof.
  unfold sort_by_date_desc. destruct results as [|h1 [|h2 results]].
  - discriminate.
  - intros [= <- <-]. exists [], []. split; [reflexivity|].
    intros h d ds Hh. apply elem_of_nil in Hh. contradiction.
  - set (l := h1 :: h2 :: results). clearbody l.
    destruct (mapM _ l) as [dated|e] eqn:Em; rsimpl; [|discriminate].
    destruct (dated_hits _ _ Em) as [Hsnd Hdate].
    destruct (sort_desc fst dated) as [|[ds s] t] eqn:Es; [discriminate|].
    cbn. intros [= <- <-].
    destruct (sort_desc_head_first _ _ _ _ Es) as (pre & post & -> & Hpre).
    exists (pre.*2), (post.*2). split.
    + rewrite <- Hsnd, fmap_app. reflexivity.
    + intros h d ds' Hh Hd Hds. apply list_elem_of_fmap in Hh as ([d0 h0] & -> & Hin).
      cbn in Hd.
      assert (date_str h0 = Ok d0) as Hd0
        by (apply Hdate, elem_of_app; left; exact Hin).
      assert (date_str s = Ok ds) as Hs0
        by (apply Hdate, elem_of_app; right; apply list_elem_of_here).
      rewrite Hd0 in Hd. rewrite Hs0 in Hds. injection Hd as <-. injection Hds as <-.
      exact (Hpre _ Hin).
Qed.

(** X10, witness: three hits, the last two of the same latest date; the
    second is selected. *)
Lemma latest_hit_first_among_equals_witness :
  let hit_of := fun repo date =>
    {| hit_repo := repo; hit_sha := JStr "s"; hit_tree := JArr [];
       update_date := JStr date |} in
  exists rest,
    sort_by_date_desc
      [hit_of "a/one" "2024-01-05T10:00:00Z"; hit_of "b/two" "2024-03-01T08:30:00Z";
       hit_of "c/three" "2024-03-01T08:30:00Z"]
    = Ok (hit_of "b/two" "2024-03-01T08:30:00Z" :: rest)
    /\ str_lt "2024-01-05T10:00:00Z" "2024-03-01T08:30:00Z" = true.
Proof.
  intros hit_of. eexists. split; [vm_compute; reflexivity|].
  destruct (latest_hit_first_among_equals
              [hit_of "a/one" "2024-01-05T10:00:00Z"; hit_of "b/two" "2024-03-01T08:30:00Z";
               hit_of "c/three" "2024-03-01T08:30:00Z"]
              (hit_of "b/two" "2024-03-01T08:30:00Z")
              [hit_of "c/three" "2024-03-01T08:30:00Z"; hit_of "a/one" "2024-01-05T10:00:00Z"])
    as (before & after & Heq & Hbefore); [vm_compute; reflexivity|].
  destruct before as [|b before]; [discriminate|].
  injection Heq as <- Heq.
  apply (Hbefore _ _ _ (list_elem_of_here _ _)); reflexivity.
Defined.

(** ** Reading an AppID out of what the user typed *)

Lemma span_all (p : ascii -> bool) (s a b : string) :
  span p s = (a, b) -> all_chars p a = true /\ s = a +:+ b.
Proof.
  revert a b. induction s as [|c s IH]; intros a b; cbn [span].
  - intros [= <- <-]. auto.
  - destruct (p c) eqn:Ec; [|intros [= <- <-]; auto].
    destruct (span p s) as [a' b']. intros [= <- <-].
    destruct (IH a' b' eq_refl) as [Ha ->]. cbn. rewrite Ec, Ha. auto.
Qed.

Lemma all_chars_impl (p q : ascii -> bool) (s : string) :
  (forall c, p c = true -> q c = true) -> all_chars p s = true -> all_chars q s = true.
Proof.
  intros Hpq. induction s as [|c s IH]; cbn; [auto|].
  intros [Hc Hs]%andb_prop. rewrite (Hpq c Hc), (IH Hs). reflexivity.
Qed.

Lemma all_chars_forall (p : ascii -> bool) (s : string) :
  all_chars p s = true <-> str_forall (fun c => p c = true) s.
Proof.
  induction s as [|c s IH]; cbn; [tauto|]. rewrite andb_true_iff, IH. tauto.
Qed.

(** What [re.search] returns is what the pattern returns somewhere. *)
Lemma re_search_Some {G} (m : matcher G) (s : string) (g : G) :
  re_search m s = Some g -> exists t rest, m t = Some (g, rest).
Proof.
  induction s as [|c s IH]; cbn [re_search].
  - destruct (m EmptyString) as [[g' rest]|] eqn:Em; [|discriminate].
    intros [= <-]. eauto.
  - destruct (m (String c s)) as [[g' rest]|] eqn:Em; [intros [= <-]; eauto|exact IH].
Qed.

(** The group of a match is a non-empty string of decimal digits. *)
Lemma pat_digits_after_group (lit t id rest : string) :
  pat_digits_after lit t = Some (id, rest) ->
  id <> EmptyString /\ all_chars is_digit id = true.
Proof.
  unfold pat_digits_after. destruct (strip_prefix lit t) as [r|]; [|discriminate].
  cbn [mbind option_bind]. destruct (span is_digit r) as [a b] eqn:Es.
  destruct (bool_decide (a = EmptyString)) eqn:Ea; [discriminate|].
  intros [= <- <-]. apply bool_decide_eq_false in Ea.
  split; [exact Ea|]. exact (proj1 (span_all _ _ _ _ Es)).
Qed.

(** A pattern that starts with a letter is not found in a string of
    digits. *)
Lemma re_search_digits_after_digits (c : ascii) (lit s : string) :
  is_isdigit c = false -> all_chars is_isdigit s = true ->
  re_search (pat_digits_after (String c lit)) s = None.
Proof.
  intros Hc. induction s as [|d s IH]; [reflexivity|].
  cbn [all_chars]. intros [Hd Hs]%andb_prop. cbn [re_search].
  unfold pat_digits_after at 1. cbn [strip_prefix].
  destruct (Ascii.eqb_spec c d) as [->|_]; [congruence|]. cbn. apply IH, Hs.
Qed.

Lemma is_digit_isdigit (c : ascii) : is_digit c = true -> is_isdigit c = true.
Proof. unfold is_isdigit. intros ->. reflexivity. Qed.

Lemma py_isdigit_nonempty (s : string) :
  s <> EmptyString -> all_chars is_isdigit s = true -> py_isdigit s = true.
Proof. intros Hne Hs. unfold py_isdigit. rewrite Hs. destruct s; [congruence|reflexivity]. Qed.

(** X11. What [extract_app_id] returns is a non-empty string of digits in
    the sense of [str.isdigit], and given back to [extract_app_id] it is
    returned as it is.  An input without any such digit, the empty input
    included, yields [None]. *)
Theorem extract_app_id_sound (user_input : string) :
  (forall id, extract_app_id user_input = Some id ->
     py_isdigit id = true /\ extract_app_id id = Some id)
  /\ (all_chars (fun c => negb (is_isdigit c)) user_input = true ->
      extract_app_id user_input = None).
Proof.
  assert (forall id, py_isdigit id = true -> extract_app_id id = Some id) as Hfix.
  { intros id Hid. pose proof Hid as Hid'. unfold py_isdigit in Hid'.
    apply andb_prop in Hid' as [_ Hall].
    unfold extract_app_id, pat_store, pat_steamdb.
    rewrite !re_search_digits_after_digits by (exact Hall || reflexivity).
    rewrite Hid. reflexivity. }
  assert (forall lit id, re_search (pat_digits_after lit) user_input = Some id ->
            py_isdigit id = true) as Hgroup.
  { intros lit id Hre. apply re_search_Some in Hre as (t & rest & Hm).
    apply pat_digits_after_group in Hm as [Hne Hall].
    apply py_isdigit_nonempty; [exact Hne|].
    eapply all_chars_impl; [apply is_digit_isdigit|exact Hall]. }
  split.
  - intros id. unfold extract_app_id.
    destruct (re_search pat_store user_input) as [a|] eqn:Ea.
    { intros [= <-]. pose proof (Hgroup _ _ Ea) as Hd. split; [exact Hd|exact (Hfix _ Hd)]. }
    destruct (re_search pat_steamdb user_input) as [b|] eqn:Eb.
    { intros [= <-]. pose proof (Hgroup _ _ Eb) as Hd. split; [exact Hd|exact (Hfix _ Hd)]. }
    destruct (py_isdigit user_input) eqn:Ed; [|discriminate].
    intros [= <-]. split; [exact Ed|exact (Hfix _ Ed)].
  - intros Hnone. unfold extract_app_id.
    assert (forall lit, re_search (pat_digits_after lit) user_input = None) as Hno.
    { intros lit. destruct (re_search (pat_digits_after lit) user_input) as [id|] eqn:Ere;
        [|reflexivity]. exfalso.
      clear Hfix Hgroup. revert Hnone Ere. induction user_input as [|c s IH]; cbn [re_search all_chars].
      - unfold pat_digits_after. destruct (strip_prefix lit EmptyString) as [r|] eqn:Er;
          [|discriminate]. destruct lit; [|discriminate]. injection Er as <-. discriminate.
      - intros [Hc Hs]%andb_prop.
        destruct (pat_digits_after lit (String c s)) as [[g rest]|] eqn:Em; [|apply IH, Hs].
        intros _. clear IH.
        assert (exists t, strip_prefix lit (String c s) = Some t
                          /\ exists d u, t = String d u /\ is_digit d = true)
          as (t & Ht & d & u & -> & Hd).
        { unfold pat_digits_after in Em.
          destruct (strip_prefix lit (String c s)) as [t|]; [|discriminate].
          cbn [mbind option_bind] in Em. exists t. split; [reflexivity|].
          destruct t as [|d u]; [discriminate|]. cbn [span] in Em.
          destruct (is_digit d) eqn:Ed; [eauto|discriminate]. }
        assert (forall l x y, strip_prefix l x = Some y ->
                  all_chars (fun c => negb (is_isdigit c)) x = true ->
                  all_chars (fun c => negb (is_isdigit c)) y = true) as Hsuffix.
        { clear. induction l as [|a l IH]; intros x y.
          - destruct x; intros [= <-]; auto.
          - destruct x as [|b x]; [discriminate|]. cbn [strip_prefix all_chars].
            destruct (Ascii.eqb a b); [|discriminate].
            intros Hp [_ Hx]%andb_prop. exact (IH _ _ Hp Hx). }
        pose proof (Hsuffix _ _ _ Ht) as Hall. cbn [all_chars] in Hall.
        rewrite Hc, Hs in Hall. specialize (Hall eq_refl).
        apply andb_prop in Hall as [Hnd _].
        rewrite (is_digit_isdigit _ Hd) in Hnd. discriminate. }
    unfold pat_store, pat_steamdb. rewrite !Hno.
    unfold py_isdigit. destruct user_input as [|c s]; [reflexivity|].
    cbn [all_chars] in Hnone. apply andb_prop in Hnone as [Hc _].
    cbn. destruct (is_isdigit c); [discriminate|reflexivity].
Qed.

Lemma span_app_end (p : ascii -> bool) (a tail : string) :
  all_chars p a = true ->
  (tail = EmptyString \/ exists c t, tail = String c t /\ p c = false) ->
  span p (a +:+ tail) = (a, tail).
Proof.
  intros Ha Htail. induction a as [|x a IH].
  - rewrite str_app_nil_l. destruct Htail as [->|(c & t & -> & Hc)]; [reflexivity|].
    cbn [span]. rewrite Hc. reflexivity.
  - cbn [all_chars] in Ha. apply andb_prop in Ha as [Hx Ha].
    rewrite str_app_cons. cbn [span]. rewrite Hx, (IH Ha). reflexivity.
Qed.

Lemma pat_digits_after_match (lit id tail : string) :
  id <> EmptyString -> all_chars is_digit id = true ->
  (tail = EmptyString \/ exists c t, tail = String c t /\ is_digit c = false) ->
  pat_digits_after lit (lit +:+ id +:+ tail) = Some (id, tail).
Proof.
  intros Hne Hid Htail. unfold pat_digits_after. rewrite strip_prefix_app.
  cbn [mbind option_bind]. rewrite (span_app_end _ _ _ Hid Htail).
  rewrite bool_decide_eq_false_2 by exact Hne. reflexivity.
Qed.

(** A pattern that starts with a letter does not match inside a run of
    decimal digits. *)
Lemma re_search_through_digits (c : ascii) (lit id tail : string) :
  is_digit c = false -> all_chars is_digit id = true ->
  re_search (pat_digits_after (String c lit)) (id +:+ tail)
  = re_search (pat_digits_after (String c lit)) tail.
Proof.
  intros Hc. induction id as [|d id IH]; [reflexivity|].
  cbn [all_chars]. intros [Hd Hid]%andb_prop. rewrite str_app_cons, re_search_skip.
  - apply IH, Hid.
  - unfold pat_digits_after. cbn [strip_prefix].
    destruct (Ascii.eqb_spec c d) as [->|_]; [congruence|reflexivity].
Qed.

(** X12. A link to the store page of an application yields the digits
    that follow [/app/], whatever follows them; so does a link to its
    SteamDB page, unless a store link comes later in the input, which
    then wins. *)
Theorem extract_app_id_links (id tail : string) :
  id <> EmptyString -> all_chars is_digit id = true ->
  (tail = EmptyString \/ exists c t, tail = String c t /\ is_digit c = false) ->
  extract_app_id ("https://store.steampowered.com/app/" +:+ id +:+ tail) = Some id
  /\ (re_search pat_store tail = None ->
      extract_app_id ("https://steamdb.info/app/" +:+ id +:+ tail) = Some id)
  /\ (forall other, re_search pat_store tail = Some other ->
      extract_app_id ("https://steamdb.info/app/" +:+ id +:+ tail) = Some other).
Proof.
  intros Hne Hid Htail.
  assert (re_search pat_store ("https://store.steampowered.com/app/" +:+ id +:+ tail)
          = Some id) as Hstore.
  { change ("https://store.steampowered.com/app/" +:+ id +:+ tail)
      with (String "h" (String "t" (String "t" (String "p" (String "s" (String ":"
             (String "/" (String "/"
                ("store.steampowered.com/app/" +:+ id +:+ tail))))))))).
    do 8 (rewrite re_search_skip by reflexivity).
    apply (re_search_here _ _ _ tail), pat_digits_after_match; assumption. }
  assert (re_search pat_store ("https://steamdb.info/app/" +:+ id +:+ tail)
          = re_search pat_store tail) as Hnostore.
  { change ("https://steamdb.info/app/" +:+ id +:+ tail)
      with (String "h" (String "t" (String "t" (String "p" (String "s" (String ":"
             (String "/" (String "/" (String "s" (String "t" (String "e" (String "a"
             (String "m" (String "d" (String "b" (String "." (String "i" (String "n"
             (String "f" (String "o" (String "/" (String "a" (String "p" (String "p"
             (String "/" (id +:+ tail)))))))))))))))))))))))))).
    do 25 (rewrite re_search_skip by reflexivity).
    apply re_search_through_digits; [reflexivity|exact Hid]. }
  assert (re_search pat_steamdb ("https://steamdb.info/app/" +:+ id +:+ tail) = Some id)
    as Hdb.
  { change ("https://steamdb.info/app/" +:+ id +:+ tail)
      with (String "h" (String "t" (String "t" (String "p" (String "s" (String ":"
             (String "/" (String "/" ("steamdb.info/app/" +:+ id +:+ tail))))))))).
    do 8 (rewrite re_search_skip by reflexivity).
    apply (re_search_here _ _ _ tail), pat_digits_after_match; assumption. }
  unfold extract_app_id. rewrite Hstore, Hnostore, Hdb.
  split; [reflexivity|]. split; [intros ->; reflexivity|intros other ->; reflexivity].
Qed.

(** X12, witness: the store page and the SteamDB page of application
    480. *)
Lemma extract_app_id_links_witness :
  extract_app_id "https://store.steampowered.com/app/480/Spacewar/" = Some "480"
  /\ extract_app_id "https://steamdb.info/app/480/charts/" = Some "480".
Proof.
  destruct (extract_app_id_links "480" "/Spacewar/") as (Hstore & _);
    [discriminate|reflexivity|right; eexists _, _; split; reflexivity|].
  destruct (extract_app_id_links "480" "/charts/") as (_ & Hdb & _);
    [discriminate|reflexivity|right; eexists _, _; split; reflexivity|].
  split; [exact Hstore|apply Hdb; reflexivity].
Defined.

(** ** Files of a repository *)

Section ManifestFromGithubFacts.
Context `{Libs}.
Variable path_name : string -> string.
Variable dict_repr : dict vdf -> string.

Lemma get_from_url_files (sha path repo : string) (w : world) :
  files (get_from_url sha path repo w).2 = files w.
Proof.
  unfold get_from_url.
  exact (proj2 (proj2 (try_urls_first path _ w (mirror_urls_hosts w sha path repo)))).
Qed.

(** X13. A manifest of the repository: in the auto-update mode of
    SteamTools it is skipped without being asked for and without any
    file being changed; otherwise it is fetched and, when that succeeds,
    saved under its name in [depotcache] and in [config/depotcache], no
    other file being changed and no depot key being returned; when the
    fetch fails the call raises what the fetch raised and no file is
    changed. *)
Theorem manifest_from_github_saved (self : backend)
    (sha path repo app_id : string) (all_manifests : list string) (w : world) :
  endswith ".manifest" path = true ->
  let auto := is_steamtools self && steamtools_only_lua self in
  let out := get_manifest_from_github path_name dict_repr self sha path repo app_id
               all_manifests w in
  (auto = true -> out.1 = Ok [] /\ files out.2 = files w /\ requests out.2 = requests w)
  /\ (auto = false -> forall content w1,
        get_from_url sha path repo w = (Ok content, w1) ->
        out.1 = Ok []
        /\ files out.2
           = <[(steam_path self ++ ["config"; "depotcache"; path_name path])%list
                 := Binary content]>
               (<[(steam_path self ++ ["depotcache"; path_name path])%list
                    := Binary content]> (files w))
        /\ requests out.2 = requests w1)
  /\ (auto = false -> forall e w1,
        get_from_url sha path repo w = (Raise e, w1) ->
        out.1 = Raise e /\ files out.2 = files w).
Proof.
  intros Hm auto out. unfold out, get_manifest_from_github. cbn zeta. fold auto.
  rewrite Hm. cbn [andb]. pose proof (get_from_url_files sha path repo w) as Hfiles.
  destruct auto.
  - split; [intros _; cbn; auto|]. split; discriminate.
  - split; [discriminate|]. cbn [negb]. split.
    + intros _ content w1 Hget. rewrite Hget in Hfiles. cbn [snd] in Hfiles.
      rewrite (act_bind_run _ _ _ _ _ Hget). cbn [for_each].
      unfold mbind, act_mbind, act_bind, modify, logger, mret, act_mret, act_ret.
      cbn [fst snd]. rewrite files_emit. unfold write_bytes, mkdir.
      cbn [files set_files set_dirs requests emit].
      rewrite Hfiles, <- !app_assoc. auto.
    + intros _ e w1 Hget. rewrite Hget in Hfiles. cbn [snd] in Hfiles.
      rewrite (act_bind_raise _ _ _ _ _ Hget). auto.
Qed.

(** The keys of a key file whose depots each hold a key. *)
Lemma decryption_keys_all (depots : list (string * vdf)) (keys : list (string * vdf)) :
  Forall2 (fun entry key =>
             key.1 = entry.1
             /\ exists info, entry.2 = VDict info
                             /\ dict_get "DecryptionKey" info = Some key.2) depots keys ->
  mapM (fun entry : string * vdf =>
          match entry.2 with
          | VDict info =>
              key ← of_option (KeyError "DecryptionKey") (dict_get "DecryptionKey" info);
              Ok (entry.1, key)
          | VStr _ => Raise TypeError
          end) depots = Ok keys.
Proof.
  induction 1 as [|[id v] [id' k] depots keys (Hid & info & Hv & Hk) _ IH]; [reflexivity|].
  cbn [mapM]. cbn in Hid, Hv, Hk. subst id' v. cbn [snd fst]. rewrite Hk.
  cbn [of_option]. rsimpl. rewrite IH. reflexivity.
Qed.

Lemma decryption_keys_section (depots_cfg : dict vdf) (depots : list (string * vdf)) :
  dict_get "depots" depots_cfg = Some (VDict depots) ->
  decryption_keys depots_cfg
  = mapM (fun entry : string * vdf =>
            match entry.2 with
            | VDict info =>
                key ← of_option (KeyError "DecryptionKey") (dict_get "DecryptionKey" info);
                Ok (entry.1, key)
            | VStr _ => Raise TypeError
            end) depots.
Proof. unfold decryption_keys. intros ->. reflexivity. Qed.




(** X15. A file of the repository that is neither a manifest nor a key
    file is fetched all the same and then left aside: no file is
    changed and no key is returned; when the fetch fails the call
    raises. *)
Theorem other_file_from_github (self : backend)
    (sha path repo app_id : string) (all_manifests : list string) (w : world) :
  endswith ".manifest" path = false ->
  substring_of "key.vdf" (lower path) = false ->
  let got := get_from_url sha path repo w in
  let out := get_manifest_from_github path_name dict_repr self sha path repo app_id
               all_manifests w in
  out.1 = (fun _ => []) <$> got.1
  /\ out.2 = got.2
  /\ files out.2 = files w.
Proof.
  intros Hnm Hkey got out. pose proof (get_from_url_files sha path repo w) as Hfiles.
  unfold out, get_manifest_from_github, got. cbn zeta. rewrite Hnm, Hkey. cbn [andb].
  unfold mbind, act_mbind, act_bind.
  destruct (get_from_url sha path repo w) as [[content|e] w1]; cbn in *; auto.
Qed.
End ManifestFromGithubFacts.

(** X13, witness: the manifest of the sample repository, fetched for a
    standard installation of SteamTools. *)
Lemma manifest_from_github_saved_witness :
  let out := get_manifest_from_github (H:=key_file_libs) last_component
               (fun _ => EmptyString) st_backend "a1" "228981_7.manifest" "org/repo"
               "228980" ["228981_7.manifest"] world_repo_files in
  out.1 = Ok []
  /\ files out.2 !! ["Steam"; "depotcache"; "228981_7.manifest"] = Some (Binary (hex "0405"))
  /\ files out.2 !! ["Steam"; "config"; "depotcache"; "228981_7.manifest"]
     = Some (Binary (hex "0405")).
Proof.
  intros out.
  destruct (manifest_from_github_saved (H:=key_file_libs) last_component
              (fun _ => EmptyString) st_backend "a1" "228981_7.manifest" "org/repo"
              "228980" ["228981_7.manifest"] world_repo_files eq_refl)
    as (_ & Hsaved & _).
  destruct (Hsaved eq_refl (hex "0405")
              (get_from_url "a1" "228981_7.manifest" "org/repo"
                 world_repo_files).2) as (Hr & Hf & _); [vm_compute; reflexivity|].
  fold out in Hr, Hf. split; [exact Hr|]. rewrite Hf. vm_compute. auto.
Defined.


(** X15, witness: the text of the sample repository. *)
Lemma other_file_from_github_witness :
  let out := get_manifest_from_github (H:=key_file_libs) last_component
               (fun _ => EmptyString) st_backend "a1" "README.md" "org/repo"
               "228980" ["228981_7.manifest"] world_repo_files in
  out.1 = Ok [] /\ files out.2 = files world_repo_files
  /\ events_since world_repo_files out.2 = asked [official_url "a1" "README.md" "org/repo"].
Proof.
  intros out.
  destruct (other_file_from_github (H:=key_file_libs) last_component
              (fun _ => EmptyString) st_backend "a1" "README.md" "org/repo"
              "228980" ["228981_7.manifest"] world_repo_files eq_refl eq_refl)
    as (Hr & Hw & Hf).
  fold out in Hr, Hw, Hf. split; [rewrite Hr; vm_compute; reflexivity|].
  split; [exact Hf|]. rewrite Hw. vm_compute. reflexivity.
Defined.

(** ** Searching games by name *)

Lemma filter_games_objects (games : list json) :
  Forall (fun g => is_object g = true) games ->
  filter_games games = Ok (List.filter (fun g => is_game_type (game_type g)) games).
Proof.
  induction 1 as [|g games Hg _ IH]; [reflexivity|].
  cbn [filter_games List.filter]. destruct g; try discriminate.
  cbn [json_get game_type]. rsimpl. rewrite IH. rsimpl. reflexivity.
Qed.

Lemma filter_games_malformed (before after : list json) (bad : json) :
  is_object bad = false ->
  exists e, filter_games (before ++ bad :: after) = Raise e.
Proof.
  intros Hbad. induction before as [|g before [e IH]].
  - cbn [app filter_games]. destruct bad; try discriminate; eexists; reflexivity.
  - cbn [app filter_games]. destruct (json_get "type" g) as [t|e']; rsimpl;
      [rewrite IH|]; eexists; reflexivity.
Qed.

Section SearchGamesFacts.
Context `{Libs}.

(** X16. [search_games_by_name] asks the search service once and changes
    no file.  When the service answers with a 2xx status and a JSON
    object whose [games] is an array of objects, the games returned are
    those of type [Game] or [Application], in the order of the answer.
    One entry of the array that is not an object makes the whole search
    return nothing, whatever the other entries are; so do a host that
    cannot be reached, another status and an answer that is not JSON. *)
Theorem search_games_by_name_filters (game_name : string) (w : world) :
  let out := search_games_by_name game_name w in
  files out.2 = files w
  /\ events_since w out.2 = asked [games_url game_name]
  /\ (forall status body j games,
        remote w (games_url game_name) = Response status body ->
        200 <= status <= 299 ->
        json_loads body = Some j ->
        json_get "games" j = Ok (Some (JArr games)) ->
        (Forall (fun g => is_object g = true) games ->
         out.1 = List.filter (fun g => is_game_type (game_type g)) games)
        /\ (forall before bad after,
              games = (before ++ bad :: after)%list -> is_object bad = false ->
              out.1 = []))
  /\ (remote w (games_url game_name) = ConnectionError
      \/ (exists status body, remote w (games_url game_name) = Response status body
                              /\ (status < 200 \/ 299 < status))
      \/ (exists status body, remote w (games_url game_name) = Response status body
                              /\ json_loads body = None) ->
      out.1 = []).
Proof.
  cbn zeta. unfold search_games_by_name.
  set (w1 := emit INFO _ w).
  change (http_get (games_url game_name) w1)
    with (remote w (games_url game_name), (http_get (games_url game_name) w1).2).
  cbv beta iota.
  split; [destruct (games_of_response _); reflexivity|].
  split; [destruct (games_of_response _); apply events_since_app;
          apply (http_get_requests (games_url game_name) w1)|].
  split.
  - intros status body j games -> Hst Hj Hgames.
    assert (games_of_response (Response status body) = filter_games games) as ->.
    { unfold games_of_response.
      destruct (Z.leb_spec 200 status); [|lia]. destruct (Z.leb_spec status 299); [|lia].
      cbn [andb]. rewrite Hj. cbn [of_option]. rsimpl. rewrite Hgames. rsimpl.
      reflexivity. }
    split.
    + intros Hall. rewrite (filter_games_objects _ Hall). reflexivity.
    + intros before bad after -> Hbad.
      destruct (filter_games_malformed before after bad Hbad) as [e ->]. reflexivity.
  - intros [->|[(status & body & -> & Hst)|(status & body & -> & Hj)]].
    + reflexivity.
    + unfold games_of_response.
      destruct (Z.leb_spec 200 status); destruct (Z.leb_spec status 299);
        cbn [andb]; try reflexivity; lia.
    + unfold games_of_response. rewrite Hj.
      destruct ((200 <=? status) && (status <=? 299)); reflexivity.
Qed.
End SearchGamesFacts.

(** X16, witness: of three entries the game and the application are
    returned; an answer with an entry that is a string yields nothing. *)
Lemma search_games_by_name_filters_witness :
  (search_games_by_name (H:=games_libs) "space" world_games).1
  = [JObj [("type", JStr "Game"); ("appid", JNum 480)];
     JObj [("type", JStr "Application"); ("appid", JNum 482)]]
  /\ (search_games_by_name (H:=games_libs) "war" world_games).1 = [].
Proof.
  destruct (search_games_by_name_filters (H:=games_libs) "space" world_games)
    as (_ & _ & Hok & _).
  destruct (Hok 200 _ _ games_answer eq_refl ltac:(lia) eq_refl eq_refl) as [Hall _].
  destruct (search_games_by_name_filters (H:=games_libs) "war" world_games)
    as (_ & _ & Hok' & _).
  destruct (Hok' 200 _ _ _ eq_refl ltac:(lia) eq_refl eq_refl) as [_ Hbad].
  split.
  - rewrite Hall by (repeat constructor). reflexivity.
  - apply (Hbad [JObj [("type", JStr "Game"); ("appid", JNum 480)]] (JStr "oops") []);
      reflexivity.
Defined.

(** ** The loop over the selected sources *)

Lemma usable_names_cons (repo_options : list (string * string)) (repo_value : string)
    (rest : list string) :
  usable_names repo_options (repo_value :: rest)
  = match repo_name_of repo_options repo_value with
    | None | Some EmptyString => usable_names repo_options rest
    | Some repo_name => repo_name :: usable_names repo_options rest
    end.
Proof.
  unfold usable_names. cbn [omap list_omap].
  destruct (repo_name_of repo_options repo_value) as [[|c s]|]; reflexivity.
Qed.

Section ProcessGameFacts.
Context `{Libs}.
Variable process_from_github_with_client : string -> string -> option hit -> act bool.

(** One turn when one source is used: it returns [True] after the entry
    of success, or ends without returning. *)
Lemma process_turn_specified (self : backend) (app_id : string)
    (repo_options : list (string * string)) (repo_value repo_name : string) (w : world) :
  let source := process_source process_from_github_with_client self app_id repo_value w in
  process_turn process_from_github_with_client self false app_id repo_options
    repo_value repo_name w
  = match source.1 with
    | Ok true => (Ok (Some true), emit INFO ("从 " +:+ repo_name +:+ " 下载成功") source.2)
    | Ok false => (Ok None, source.2)
    | Raise e => (Raise e, source.2)
    end.
Proof.
  cbn zeta. unfold process_turn.
  destruct (process_source process_from_github_with_client self app_id repo_value w)
    as [[[|]|e] w1] eqn:E.
  - rewrite (act_bind_run _ _ _ _ _ E). reflexivity.
  - rewrite (act_bind_run _ _ _ _ _ E). reflexivity.
  - rewrite (act_bind_raise _ _ _ _ _ E). reflexivity.
Qed.

(** X17. When one source is used at a time, [failed_repos] receives, in
    the order of the selection, the names of the sources that were tried
    and gave nothing.  If the coroutine returns [False] these are all the
    selected sources that have a name; if it returns [True] they are the
    ones before the source that succeeded, the sources after it are not
    tried, and the last log entry names the one that succeeded. *)
Theorem process_with_client_failed_repos (self : backend) (app_id : string)
    (repo_options : list (string * string)) (selected_repos_list failed_repos : list string)
    (w : world) :
  let out := process_with_client process_from_github_with_client self false app_id
               repo_options selected_repos_list failed_repos w in
  let names := usable_names repo_options selected_repos_list in
  (out.1.1 = false -> out.1.2 = (failed_repos ++ names)%list)
  /\ (out.1.1 = true ->
      exists tried winner later,
        names = (tried ++ winner :: later)%list
        /\ out.1.2 = (failed_repos ++ tried)%list
        /\ last (log out.2) = Some (INFO, "从 " +:+ winner +:+ " 下载成功")).
Proof.
  cbn zeta. revert failed_repos w.
  induction selected_repos_list as [|repo_value rest IH]; intros failed_repos w.
  - cbn. rewrite app_nil_r. split; [reflexivity|discriminate].
  - rewrite usable_names_cons. cbn [process_with_client].
    destruct (repo_name_of repo_options repo_value) as [[|c s]|]; [apply IH| |apply IH].
    set (repo_name := String c s).
    rewrite process_turn_specified. cbn zeta.
    destruct (process_source process_from_github_with_client self app_id repo_value
                (emit INFO ("尝试从 " +:+ repo_name +:+ " 下载清单...") w))
      as [[[|]|e] w1]; cbn [fst snd].
    + split; [discriminate|]. intros _. exists [], repo_name, (usable_names repo_options rest).
      rewrite app_nil_r. cbn [log emit]. rewrite last_snoc. auto.
    + destruct (IH (failed_repos ++ [repo_name])%list
                  (emit WARNING ("从 " +:+ repo_name +:+ " 下载失败，尝试下一个源...") w1))
        as [Hf Ht].
      split.
      * intros Hout. rewrite (Hf Hout), <- app_assoc. reflexivity.
      * intros Hout. destruct (Ht Hout) as (tried & winner & later & Hn & Hfr & Hlog).
        exists (repo_name :: tried), winner, later.
        rewrite Hn, Hfr, <- app_assoc. auto.
    + destruct (IH (failed_repos ++ [repo_name])%list
                  (emit ERROR ("从 " +:+ repo_name +:+ " 下载时出错: " +:+ exn_str e) w1))
        as [Hf Ht].
      split.
      * intros Hout. rewrite (Hf Hout), <- app_assoc. reflexivity.
      * intros Hout. destruct (Ht Hout) as (tried & winner & later & Hn & Hfr & Hlog).
        exists (repo_name :: tried), winner, later.
        rewrite Hn, Hfr, <- app_assoc. auto.
Qed.

(** X18. When all repositories are searched and the search finds nothing,
    the coroutine returns [False] at the first selected source that has a
    name: the sources selected after it are not tried, whatever they are,
    and [failed_repos] is left as it was. *)
Theorem search_all_nothing_found (self : backend) (app_id : string)
    (repo_options : list (string * string)) (selected_repos_list failed_repos : list string)
    (repo_name : string) (others : list string) (w w' : world) :
  usable_names repo_options selected_repos_list = repo_name :: others ->
  search_all_repos app_id (github_repos repo_options)
    (emit INFO ("尝试从 " +:+ repo_name +:+ " 下载清单...") w) = (Ok [], w') ->
  process_with_client process_from_github_with_client self true app_id
    repo_options selected_repos_list failed_repos w
  = (false, failed_repos, emit ERROR "在所有GitHub库中都未找到清单" w').
Proof.
  induction selected_repos_list as [|repo_value rest IH]; [discriminate|].
  rewrite usable_names_cons. cbn [process_with_client].
  destruct (repo_name_of repo_options repo_value) as [[|c s]|]; [exact IH| |exact IH].
  intros Hnames Hsearch. injection Hnames as Hname _. rewrite Hname.
  unfold process_turn, search_all_step.
  rewrite (act_bind_run _ _ _ _ _ Hsearch). reflexivity.
Qed.
End ProcessGameFacts.

(** X18, witness: application 999 has a branch in none of the sample
    repositories; with the archive SWA V2 and the repository First
    selected, the coroutine returns [False] after one search and
    [failed_repos] stays empty. *)
Lemma search_all_nothing_found_witness :
  (process_with_client (H:=sample_libs) (fun _ _ _ => mret true) gl_backend true "999"
     sample_repo_options ["swa"; "orgA/repo"] [] world_three_repos).1
  = (false, []).
Proof.
  pose (w0 := emit INFO ("尝试从 " +:+ "SWA V2" +:+ " 下载清单...") world_three_repos).
  pose (found := search_all_repos (H:=sample_libs) "999"
                   (github_repos sample_repo_options) w0).
  assert (found = (Ok [], found.2)) as Hfound.
  { assert (found.1 = Ok []) as H1 by (vm_compute; reflexivity).
    destruct found as [r w1]. cbn in H1 |- *. rewrite H1. reflexivity. }
  rewrite (search_all_nothing_found (H:=sample_libs) (fun _ _ _ => mret true) gl_backend
             "999" sample_repo_options ["swa"; "orgA/repo"] [] "SWA V2" ["First"]
             world_three_repos found.2 eq_refl Hfound).
  reflexivity.
Defined.

(** ** The pauses of [get_game_dlcs] *)

Section Pauses.
Variable get_dlc_ids : string -> result (list string).
Variable get_game_name : string -> string.
Variable analyze_single_dlc : string -> result dlc_info.

(** The loop over the batches: one more batch each turn, and a pause
    after each batch but the last. *)
Lemma classify_batches_pauses (progress_callback : bool) (all_dlc_ids : list string)
    (fuel : nat) (start : Z) (st : classifying) (w : world) :
  0 <= start ->
  (Z.to_nat (len all_dlc_ids - start) <= fuel)%nat ->
  let out := fold_left (classify_batch analyze_single_dlc progress_callback all_dlc_ids)
               (range_from fuel start (len all_dlc_ids) batch_size) (st, w) in
  exists k : nat,
    length (gathered out.1) = (length (gathered st) + k)%nat
    /\ sleeps out.1 = (sleeps st + (k - 1))%nat
    /\ (k = 0%nat <-> len all_dlc_ids <= start).
Proof.
  revert start st w. induction fuel as [|fuel IH]; intros start st w Hstart Hfuel; cbn zeta.
  - exists 0%nat. cbn. split; [lia|]. split; [lia|]. split; [lia|reflexivity].
  - cbn [range_from]. destruct (Z.ltb_spec start (len all_dlc_ids)) as [Hlt|Hge].
    2:{ exists 0%nat. cbn. split; [lia|]. split; [lia|]. split; [lia|reflexivity]. }
    cbn [fold_left].
    pose (batch := slice all_dlc_ids start (Z.min (start + batch_size) (len all_dlc_ids))).
    pose (st0 := {| processed_count := processed_count st; free_dlcs := free_dlcs st;
                    paid_dlcs := paid_dlcs st; progress := progress st;
                    gathered := (gathered st ++ [batch])%list; sleeps := sleeps st |}).
    destruct (classify_results_run progress_callback (len all_dlc_ids)
                (map analyze_single_dlc batch) st0 w)
      as (st1 & w1 & Hrun1 & _ & _ & _ & _ & Hga1 & Hsl1 & _).
    pose (more := Z.min (start + batch_size) (len all_dlc_ids) <? len all_dlc_ids).
    pose (st2 := {| processed_count := processed_count st1; free_dlcs := free_dlcs st1;
                    paid_dlcs := paid_dlcs st1; progress := progress st1;
                    gathered := gathered st1; sleeps := S (sleeps st1) |}).
    assert (classify_batch analyze_single_dlc progress_callback all_dlc_ids (st, w) start
            = (if more then st2 else st1, w1)) as ->.
    { unfold classify_batch. cbn [fst snd]. fold batch. fold st0. rewrite Hrun1.
      fold more. destruct more; reflexivity. }
    destruct (IH (start + batch_size) (if more then st2 else st1) w1)
      as (k & Hga & Hsl & Hk).
    { unfold batch_size. lia. }
    { unfold batch_size. lia. }
    exists (S k). rewrite Hga, Hsl.
    assert (length (gathered (if more then st2 else st1)) = S (length (gathered st)))
      as -> by (destruct more; cbn; rewrite Hga1; cbn; rewrite length_app; cbn; lia).
    split; [lia|]. split; [|split; [discriminate|lia]].
    unfold more, batch_size in *.
    destruct (Z.ltb_spec (Z.min (start + 10) (len all_dlc_ids)) (len all_dlc_ids));
      cbn [sleeps st2]; rewrite Hsl1; cbn [sleeps st0].
    + assert (k <> 0%nat) by (intros Hk0; apply Hk in Hk0; lia). lia.
    + assert (k = 0%nat) by (apply Hk; lia). lia.
Qed.

(** X19. [get_game_dlcs] pauses once between two batches that follow each
    other, so one time less than there are batches, and never after the
    last batch.  What it returns does not depend on whether a progress
    callback is given, and without one no progress is reported.  When the
    list of candidates cannot be had or is empty, nothing is gathered and
    there is no pause. *)
Theorem get_game_dlcs_pauses (app_id : string) (progress_callback : bool) (w : world) :
  let out := get_game_dlcs get_dlc_ids get_game_name analyze_single_dlc app_id
               progress_callback w in
  sleeps out.1.2 = (length (gathered out.1.2) - 1)%nat
  /\ (progress_callback = false -> progress out.1.2 = [])
  /\ out.1.1
     = (get_game_dlcs get_dlc_ids get_game_name analyze_single_dlc app_id true w).1.1
  /\ (match get_dlc_ids app_id with
      | Ok (_ :: _) => False
      | _ => True
      end -> gathered out.1.2 = [] /\ out.1.1 = no_dlcs).
Proof.
  cbn zeta. unfold get_game_dlcs.
  destruct (get_dlc_ids app_id) as [[|id ids]|e].
  - cbn. auto.
  - set (all_dlc_ids := id :: ids). clearbody all_dlc_ids. unfold py_range.
    set (w1 := emit INFO "找到DLC，正在分析..." (emit INFO _ w)).
    pose proof (classify_batches_pauses progress_callback all_dlc_ids
                  (Z.to_nat (len all_dlc_ids - 0)) 0 classifying_start w1
                  ltac:(lia) ltac:(lia)) as (k & Hga & Hsl & _).
    destruct (classify_batches_run analyze_single_dlc progress_callback all_dlc_ids
                (Z.to_nat (len all_dlc_ids - 0)) 0 classifying_start w1
                ltac:(lia) ltac:(lia))
      as (st' & w' & batches & Hrun & _ & Hpr & Hfr & Hpa & _).
    destruct (classify_batches_run analyze_single_dlc true all_dlc_ids
                (Z.to_nat (len all_dlc_ids - 0)) 0 classifying_start w1
                ltac:(lia) ltac:(lia))
      as (st'' & w'' & batches' & Hrun' & _ & _ & Hfr' & Hpa' & _).
    cbn zeta in Hga, Hsl. rewrite Hrun in Hga, Hsl |- *. rewrite Hrun'.
    cbn [fst snd] in *.
    split; [rewrite Hsl, Hga; cbn; lia|].
    split; [intros ->; rewrite Hpr; reflexivity|].
    split; [rewrite Hfr, Hpa, Hfr', Hpa'; reflexivity|intros []].
  - cbn. auto.
Qed.
End Pauses.
